(** * P2P wallet transfer core: idempotency gate, saga coordinator,
      wallet mutation layer and limit ledger

    A shallow embedding of the NestJS services under [src/]:

    - [src/cache/cache.service.ts]                   (module [CacheService])
    - [src/common/services/idempotency.service.ts]   (module [IdempotencyService])
    - [src/common/services/saga.service.ts]          (module [SagaService])
    - [src/wallet/wallet.service.ts]                 (module [WalletService])
    - [src/transfer/transfer.service.ts]             (module [TransferService])

    Modelling conventions.

    - Money is fixed point with two decimals (the columns are
      [decimal(15,2)]): every amount and balance is a [Z] counting cents.
      The rows of the store hold such numbers.  An entity object read from
      the store holds a decimal column as the string the driver returns;
      where the code adds, compares or prints such a property the string is
      written out ([Js.Text]), next to the numbers of the request
      ([Js.Number]).  Balances stay within the range of their column.
    - Dates are [Z] (milliseconds since the epoch).
    - Asynchronous methods become computations in a state-and-exception monad
      over [World]: the relational store (wallets, transactions, limit
      ledgers), the Redis key space, the clock, and three oracles (entropy for
      UUIDs and random tokens, a fault schedule for I/O calls, and a trace of
      the events the properties speak about).  A rejected promise is [Throw].
    - Every awaited call on a repository or on the Redis client consults the
      fault schedule once ([io]): [true] makes that call reject.  An empty
      schedule means the infrastructure is healthy from then on.
    - The values Redis holds are the JSON texts the code writes; they are kept
      as typed values ([CacheVal]), [JSON.parse (JSON.stringify v)] being [v].
      Expiry (TTL) is not simulated: an expired entry is an absent entry, and
      the theorems quantify over the content of the key space. *)

From Stdlib Require Import ZArith QArith Qabs List Ascii String Bool Lia.
From stdpp Require Import base option list gmap strings pretty fin_maps.

Open Scope string_scope.
Open Scope Z_scope.


(* ===================================================================== *)
(** * MD5 (RFC 1321): the digest behind [crypto.createHash('md5')]        *)
(* ===================================================================== *)

Module MD5.

Definition w32 (x : Z) : Z := x mod 4294967296.
Definition add32 (a b : Z) : Z := w32 (a + b).
Definition not32 (x : Z) : Z := Z.lxor x 4294967295.
Definition rotl32 (x n : Z) : Z :=
  w32 (Z.lor (Z.shiftl x n) (Z.shiftr x (32 - n))).

Definition K : list Z :=
  [3614090360; 3905402710; 606105819; 3250441966; 4118548399; 1200080426;
   2821735955; 4249261313; 1770035416; 2336552879; 4294925233; 2304563134;
   1804603682; 4254626195; 2792965006; 1236535329; 4129170786; 3225465664;
   643717713; 3921069994; 3593408605; 38016083; 3634488961; 3889429448;
   568446438; 3275163606; 4107603335; 1163531501; 2850285829; 4243563512;
   1735328473; 2368359562; 4294588738; 2272392833; 1839030562; 4259657740;
   2763975236; 1272893353; 4139469664; 3200236656; 681279174; 3936430074;
   3572445317; 76029189; 3654602809; 3873151461; 530742520; 3299628645;
   4096336452; 1126891415; 2878612391; 4237533241; 1700485571; 2399980690;
   4293915773; 2240044497; 1873313359; 4264355552; 2734768916; 1309151649;
   4149444226; 3174756917; 718787259; 3951481745].

Definition shifts : list Z :=
  [7; 12; 17; 22; 7; 12; 17; 22; 7; 12; 17; 22; 7; 12; 17; 22;
   5; 9; 14; 20; 5; 9; 14; 20; 5; 9; 14; 20; 5; 9; 14; 20;
   4; 11; 16; 23; 4; 11; 16; 23; 4; 11; 16; 23; 4; 11; 16; 23;
   6; 10; 15; 21; 6; 10; 15; 21; 6; 10; 15; 21; 6; 10; 15; 21].

Definition bytes_of_string (s : string) : list Z :=
  map (fun a => Z.of_nat (nat_of_ascii a)) (list_ascii_of_string s).

(** Little-endian bytes of [x], [n] of them. *)
Fixpoint le_bytes (n : nat) (x : Z) : list Z :=
  match n with
  | O => []
  | S n' => (x mod 256) :: le_bytes n' (x / 256)
  end.

Definition pad (msg : list Z) : list Z :=
  let len := Z.of_nat (length msg) in
  let zeros := Z.to_nat ((55 - len) mod 64) in
  msg ++ [128] ++ repeat 0 zeros ++ le_bytes 8 ((8 * len) mod 18446744073709551616).

Definition word_at (bytes : list Z) (off : nat) : Z :=
  nth off bytes 0 + 256 * nth (off + 1) bytes 0
  + 65536 * nth (off + 2) bytes 0 + 16777216 * nth (off + 3) bytes 0.

Definition block_words (bytes : list Z) (b : nat) : list Z :=
  map (fun j => word_at bytes (64 * b + 4 * j)%nat) (seq 0 16).

Record regs := Regs { rA : Z; rB : Z; rC : Z; rD : Z }.

Definition round (m : list Z) (r : regs) (i : nat) : regs :=
  let '(Regs a b c d) := r in
  let zi := Z.of_nat i in
  let '(f, g) :=
    if (i <? 16)%nat then (Z.lor (Z.land b c) (Z.land (not32 b) d), zi)
    else if (i <? 32)%nat then (Z.lor (Z.land d b) (Z.land (not32 d) c), (5 * zi + 1) mod 16)
    else if (i <? 48)%nat then (Z.lxor (Z.lxor b c) d, (3 * zi + 5) mod 16)
    else (Z.lxor c (Z.lor b (not32 d)), (7 * zi) mod 16) in
  let f' := add32 (add32 (add32 f a) (nth i K 0)) (nth (Z.to_nat g) m 0) in
  Regs d (add32 b (rotl32 f' (nth i shifts 0))) b c.

Definition process_block (bytes : list Z) (r : regs) (b : nat) : regs :=
  let m := block_words bytes b in
  let r' := fold_left (round m) (seq 0 64) r in
  Regs (add32 (rA r) (rA r')) (add32 (rB r) (rB r'))
       (add32 (rC r) (rC r')) (add32 (rD r) (rD r')).

Definition hex_digit (n : Z) : ascii :=
  ascii_of_nat (Z.to_nat (if n <? 10 then 48 + n else 87 + n)).

Definition hex_byte (x : Z) : string :=
  String (hex_digit (x / 16)) (String (hex_digit (x mod 16)) EmptyString).

Definition hex_word (x : Z) : string :=
  fold_right (fun b acc => hex_byte b +:+ acc) EmptyString (le_bytes 4 x).

Definition digest_bytes (msg : list Z) : regs :=
  let bytes := pad msg in
  fold_left (process_block bytes) (seq 0 (length bytes / 64))
            (Regs 1732584193 4023233417 2562383102 271733878).

Definition hex (s : string) : string :=
  let r := digest_bytes (bytes_of_string s) in
  hex_word (rA r) +:+ hex_word (rB r) +:+ hex_word (rC r) +:+ hex_word (rD r).

End MD5.

(* ===================================================================== *)
(** * [JSON.stringify] of the request descriptor                          *)
(* ===================================================================== *)

Module JSON.

Definition quote : string := String (ascii_of_nat 34) EmptyString.
Definition backslash : string := String (ascii_of_nat 92) EmptyString.

(** The escape of one code unit inside a JSON string literal. *)
Definition escapeChar (c : ascii) : string :=
  let n := nat_of_ascii c in
  if (n =? 34)%nat then backslash +:+ quote
  else if (n =? 92)%nat then backslash +:+ backslash
  else if (n =? 8)%nat then backslash +:+ "b"
  else if (n =? 12)%nat then backslash +:+ "f"
  else if (n =? 10)%nat then backslash +:+ "n"
  else if (n =? 13)%nat then backslash +:+ "r"
  else if (n =? 9)%nat then backslash +:+ "t"
  else if (n <? 32)%nat then backslash +:+ "u00" +:+ MD5.hex_byte (Z.of_nat n)
  else String c EmptyString.

Fixpoint escape (s : string) : string :=
  match s with
  | EmptyString => EmptyString
  | String c s' => escapeChar c +:+ escape s'
  end.

Definition ofString (s : string) : string := quote +:+ escape s +:+ quote.

(** A number with at most two decimals, given in cents: [15000] prints as
    [150], [15050] as [150.5], [15005] as [150.05].  All the digits are
    printed: the text is the one [JSON.stringify] gives below [1e21], where
    it switches to the exponent notation. *)
Definition ofNumber (cents : Z) : string :=
  let a := Z.abs cents in
  let q := a / 100 in
  let r := a mod 100 in
  (if cents <? 0 then "-" else "")
  +:+ pretty q
  +:+ (if r =? 0 then ""
       else "." +:+ (if r mod 10 =? 0 then pretty (r / 10)
                     else (if r <? 10 then "0" else "") +:+ pretty r)).

Definition key (name : string) : string := quote +:+ name +:+ quote +:+ ":".

(** A property whose value is [undefined] is left out. *)
Definition optionalProperty (name : string) (v : option string) : string :=
  match v with
  | Some s => "," +:+ key name +:+ ofString s
  | None => ""
  end.

End JSON.

(* ===================================================================== *)
(** * Numbers and strings ([+], [>], [toString], [parseFloat], [numeric])  *)
(* ===================================================================== *)

(** The request carries [amount] as a number; the driver returns every
    [decimal(15,2)] column as a string (["150.00"]).  The code applies [+],
    [>] and [toString] to both, so the two are kept apart. *)
Module Js.

Inductive value : Type :=
| Number (cents : Z)
| Text (s : string).

(** [String(n)] of a number with at most two decimals. *)
Definition numberText (cents : Z) : string := JSON.ofNumber cents.

(** The text the driver returns for a [decimal(15,2)] column: two decimals,
    always. *)
Definition pgDecimal (cents : Z) : string :=
  let a := Z.abs cents in
  (if cents <? 0 then "-" else "")
  +:+ pretty (a / 100) +:+ "."
  +:+ (if a mod 100 <? 10 then "0" else "") +:+ pretty (a mod 100).

Definition toString (v : value) : string :=
  match v with
  | Number cents => numberText cents
  | Text s => s
  end.

(** [a + b]: the sum of two numbers; the concatenation of the two texts as
    soon as one operand is a string. *)
Definition add (a b : value) : value :=
  match a, b with
  | Number x, Number y => Number (x + y)
  | _, _ => Text (toString a +:+ toString b)
  end.

Definition digit (c : ascii) : option Z :=
  let n := Z.of_nat (nat_of_ascii c) in
  if (48 <=? n) && (n <=? 57) then Some (n - 48) else None.

(** The digits at the head of [s], appended to [acc]: the value read, the
    number of digits, and what follows them. *)
Fixpoint digits (s : string) (acc : Z) (n : nat) : Z * nat * string :=
  match s with
  | String c s' =>
      match digit c with
      | Some d => digits s' (10 * acc + d) (S n)
      | None => (acc, n, s)
      end
  | EmptyString => (acc, n, s)
  end.

(** A decimal literal: [mantissa * 10^(-scale)], with its sign, and the text
    that follows it. *)
Record literal := {
  negative : bool;
  mantissa : Z;
  scale : nat;
  rest : string
}.

(** The longest literal [[+-]digits[.digits]] at the head of [s]; at least
    one digit is needed.  Exponents, [Infinity] and white space are not
    read: the texts the services produce have none. *)
Definition readLiteral (s : string) : option literal :=
  let '(neg, s1) := match s with
                    | String c s' =>
                        if Ascii.eqb c "-" then (true, s')
                        else if Ascii.eqb c "+" then (false, s')
                        else (false, s)
                    | EmptyString => (false, s)
                    end in
  let '(i, ni, s2) := digits s1 0 0 in
  let '(m, nf, s3) := match s2 with
                      | String "." s' => digits s' i 0
                      | _ => (i, 0%nat, s2)
                      end in
  if (ni + nf =? 0)%nat then None
  else Some {| negative := neg; mantissa := m; scale := nf; rest := s3 |}.

Definition signed (l : literal) : Z :=
  if negative l then - mantissa l else mantissa l.

(** The number a literal denotes, in cents. *)
Definition literalValue (l : literal) : Q :=
  Qred ((signed l * 100) # Z.to_pos (10 ^ Z.of_nat (scale l))).

(** [parseFloat(s)], in cents: the literal at the head of [s]; [None] is
    [NaN]. *)
Definition parseFloat (s : string) : option Q :=
  literalValue <$> readLiteral s.

(** [Number(s)], in cents: the whole of [s] must be a literal; the empty
    string is zero. *)
Definition toNumber (s : string) : option Q :=
  if bool_decide (s = "") then Some (inject_Z 0)
  else match readLiteral s with
       | Some l => if bool_decide (rest l = "") then Some (literalValue l) else None
       | None => None
       end.

Definition numeric (v : value) : option Q :=
  match v with
  | Number cents => Some (inject_Z cents)
  | Text s => toNumber s
  end.

(** [a > b]: two strings are compared code unit by code unit; otherwise both
    operands are converted to numbers, and a [NaN] makes the answer [false]. *)
Definition gt (a b : value) : bool :=
  match a, b with
  | Text x, Text y => String.ltb y x
  | _, _ =>
      match numeric a, numeric b with
      | Some x, Some y => negb (Qle_bool x y)
      | _, _ => false
      end
  end.

(** [a < b] *)
Definition lt (a b : value) : bool := gt b a.

(** What a [decimal(15,2)] column holds after [v] was assigned to it: the
    value rounded to two decimals, half away from zero.  [None] when the
    store rejects the statement: a text that is not a number, or a value the
    column cannot hold. *)
Definition column (v : value) : option Z :=
  let inRange (cents : Z) : option Z :=
    if Z.abs cents <? 10 ^ 15 then Some cents else None in
  match v with
  | Number cents => inRange cents
  | Text s =>
      match readLiteral s with
      | Some l =>
          if bool_decide (rest l = "")
          then
            let p := 10 ^ Z.of_nat (scale l) in
            let cents := (200 * mantissa l + p) / (2 * p) in
            inRange (if negative l then - cents else cents)
          else None
      | None => None
      end
  end.

(** The entity property as the store returns it on the next read. *)
Definition asColumn (v : value) : value :=
  match v with
  | Number cents => Text (pgDecimal cents)
  | Text s => Text s
  end.

End Js.

(* ===================================================================== *)
(** * Exceptions and the state-and-exception monad                        *)
(* ===================================================================== *)

(** The exception classes the services throw.  A plain [Error] is what the
    saga steps throw and what a failing I/O call rejects with. *)
Inductive Exn : Type :=
| BadRequestException (message : string)
| NotFoundException (message : string)
| ConflictException (message : string)
| Error (message : string).

Definition exn_message (e : Exn) : string :=
  match e with
  | BadRequestException m | NotFoundException m | ConflictException m | Error m => m
  end.

(** The HTTP status NestJS answers with. *)
Definition exn_status (e : Exn) : Z :=
  match e with
  | BadRequestException _ => 400
  | NotFoundException _ => 404
  | ConflictException _ => 409
  | Error _ => 500
  end.

Definition is_conflict (e : Exn) : bool :=
  match e with ConflictException _ => true | _ => false end.

Inductive Res (A : Type) : Type :=
| Ok (a : A)
| Throw (e : Exn).

Arguments Ok {A} a.
Arguments Throw {A} e.

Definition ST (S A : Type) : Type := S -> Res A * S.

Definition ret {S A : Type} (a : A) : ST S A := fun s => (Ok a, s).

Definition bind {S A B : Type} (m : ST S A) (k : A -> ST S B) : ST S B :=
  fun s => match m s with
           | (Ok a, s') => k a s'
           | (Throw e, s') => (Throw e, s')
           end.

Definition throw {S A : Type} (e : Exn) : ST S A := fun s => (Throw e, s).

(** [try { m } catch (e) { h e }] *)
Definition tryCatch {S A : Type} (m : ST S A) (h : Exn -> ST S A) : ST S A :=
  fun s => match m s with
           | (Ok a, s') => (Ok a, s')
           | (Throw e, s') => h e s'
           end.

(** [try { m } finally { fin }]: [fin] runs on both exits; when it throws,
    its exception replaces the outcome of [m]. *)
Definition tryFinally {S A : Type} (m : ST S A) (fin : ST S unit) : ST S A :=
  fun s => let (r, s') := m s in
           match fin s' with
           | (Ok _, s'') => (r, s'')
           | (Throw e, s'') => (Throw e, s'')
           end.

Definition gets {S A : Type} (f : S -> A) : ST S A := fun s => (Ok (f s), s).
Definition modify {S : Type} (f : S -> S) : ST S unit := fun s => (Ok tt, f s).

Declare Scope st_scope.
Delimit Scope st_scope with st.
Notation "x <- m ;; k" := (bind m (fun x => k))
  (at level 100, m at next level, k at level 200, right associativity) : st_scope.
Notation "m ;; k" := (bind m (fun _ => k))
  (at level 100, k at level 200, right associativity) : st_scope.
Open Scope st_scope.

(** [Promise.all([m1, m2])] of two reads: both calls are issued, and the
    first rejection (in array order) is the outcome. *)
Definition promiseAll2 {S A B : Type} (m1 : ST S A) (m2 : ST S B) : ST S (A * B) :=
  fun s => let (r1, s1) := m1 s in
           let (r2, s2) := m2 s1 in
           match r1, r2 with
           | Ok a, Ok b => (Ok (a, b), s2)
           | Throw e, _ => (Throw e, s2)
           | _, Throw e => (Throw e, s2)
           end.

(* ===================================================================== *)
(** * Entities ([src/database/entities])                                  *)
(* ===================================================================== *)

Inductive TransactionType : Type := DEPOSIT | WITHDRAWAL | TRANSFER | REFUND | COMPENSATION.

Module TransactionStatus.
Inductive t : Type := PENDING | PROCESSING | COMPLETED | FAILED | CANCELLED | COMPENSATED.
End TransactionStatus.

Module TransferState.
Inductive t : Type :=
| INITIATED | FUNDS_RESERVED | VALIDATION_COMPLETE | DEBIT_COMPLETE | CREDIT_COMPLETE
| COMPLETED | COMPENSATION_PENDING | COMPENSATED | FAILED.
End TransferState.

#[global] Instance TransactionStatus_eq_dec : EqDecision TransactionStatus.t.
Proof. solve_decision. Defined.

#[global] Instance TransferState_eq_dec : EqDecision TransferState.t.
Proof. solve_decision. Defined.

Module Wallet.
Record t := Build {
  id : string;
  balance : Z;
  currency : string;
  isActive : bool;
  name : string;
  userId : string
}.

Definition set_balance (v : Z) (x : t) : t :=
  Build (id x) v (currency x) (isActive x) (name x) (userId x).
End Wallet.

(** A wallet's [balance] as the entity object read from the store holds it. *)
Definition balanceOf (x : Wallet.t) : Js.value := Js.Text (Js.pgDecimal (Wallet.balance x)).

Module User.
Record t := Build {
  id : string;
  email : string;
  firstName : string
}.
End User.

Module TransferLimit.
Record t := Build {
  id : string;
  dailyLimit : Z;
  monthlyLimit : Z;
  dailyUsed : Z;
  monthlyUsed : Z;
  lastDailyReset : Z;
  lastMonthlyReset : Z;
  userId : string
}.

Definition set_dailyUsed (v : Z) (x : t) : t :=
  Build (id x) (dailyLimit x) (monthlyLimit x) v (monthlyUsed x) (lastDailyReset x)
    (lastMonthlyReset x) (userId x).

Definition set_monthlyUsed (v : Z) (x : t) : t :=
  Build (id x) (dailyLimit x) (monthlyLimit x) (dailyUsed x) v (lastDailyReset x)
    (lastMonthlyReset x) (userId x).

Definition set_lastDailyReset (v : Z) (x : t) : t :=
  Build (id x) (dailyLimit x) (monthlyLimit x) (dailyUsed x) (monthlyUsed x) v
    (lastMonthlyReset x) (userId x).

Definition set_lastMonthlyReset (v : Z) (x : t) : t :=
  Build (id x) (dailyLimit x) (monthlyLimit x) (dailyUsed x) (monthlyUsed x)
    (lastDailyReset x) v (userId x).

End TransferLimit.

(** [transaction.errorDetails]: the object [updateSagaState] writes, with
    the [errorCode] property that [canRetryFailedTransaction] reads. *)
Record ErrorDetails := {
  ed_message : string;
  ed_step : nat;
  ed_timestamp : Z;
  ed_errorCode : option string
}.

(** The [SagaState] object of [saga.service.ts].  Its [context] field is the
    request's [SagaContext], which never changes apart from the [metadata]
    the steps write; that object is kept in [World.contextMetadata]. *)
Module SagaState.
Record t := Build {
  currentStep : nat;
  completedSteps : list string;
  compensatedSteps : list string;
  lastError : option Exn;
  retryCount : nat
}.

Definition set_currentStep (v : nat) (x : t) : t :=
  Build v (completedSteps x) (compensatedSteps x) (lastError x) (retryCount x).

Definition set_completedSteps (v : list string) (x : t) : t :=
  Build (currentStep x) v (compensatedSteps x) (lastError x) (retryCount x).

Definition set_compensatedSteps (v : list string) (x : t) : t :=
  Build (currentStep x) (completedSteps x) v (lastError x) (retryCount x).

Definition set_lastError (v : option Exn) (x : t) : t :=
  Build (currentStep x) (completedSteps x) (compensatedSteps x) v (retryCount x).

Definition set_retryCount (v : nat) (x : t) : t :=
  Build (currentStep x) (completedSteps x) (compensatedSteps x) (lastError x) v.

End SagaState.

(** The JSON column [sagaState] holds the value the object had when the row
    was saved. *)
Definition SagaSnapshot : Type := SagaState.t.

Module Transaction.
Record t := Build {
  id : string;
  amount : Js.value;
  type : TransactionType;
  status : TransactionStatus.t;
  transferState : option TransferState.t;
  description : string;
  sourceWalletId : option string;
  destinationWalletId : option string;
  metadata : list (string * string);
  idempotencyKey : option string;
  externalReferenceId : option string;
  retryCount : nat;
  processedAt : option Z;
  completedAt : option Z;
  failedAt : option Z;
  errorDetails : option ErrorDetails;
  sagaState : option SagaSnapshot;
  reservedAmount : option Z;
  reservationExpiry : option Z;
  sourceBalanceBefore : option Z;
  sourceBalanceAfter : option Z;
  destinationBalanceBefore : option Z;
  destinationBalanceAfter : option Z;
  createdAt : Z
}.

Definition set_generated (v0 : string) (v1 : Z) (x : t) : t :=
  Build v0 (amount x) (type x) (status x) (transferState x) (description x)
    (sourceWalletId x) (destinationWalletId x) (metadata x) (idempotencyKey x)
    (externalReferenceId x) (retryCount x) (processedAt x) (completedAt x) (failedAt x)
    (errorDetails x) (sagaState x) (reservedAmount x) (reservationExpiry x)
    (sourceBalanceBefore x) (sourceBalanceAfter x) (destinationBalanceBefore x)
    (destinationBalanceAfter x) v1.

Definition set_status (v : TransactionStatus.t) (x : t) : t :=
  Build (id x) (amount x) (type x) v (transferState x) (description x) (sourceWalletId x)
    (destinationWalletId x) (metadata x) (idempotencyKey x) (externalReferenceId x)
    (retryCount x) (processedAt x) (completedAt x) (failedAt x) (errorDetails x)
    (sagaState x) (reservedAmount x) (reservationExpiry x) (sourceBalanceBefore x)
    (sourceBalanceAfter x) (destinationBalanceBefore x) (destinationBalanceAfter x)
    (createdAt x).

Definition set_transferState (v : option TransferState.t) (x : t) : t :=
  Build (id x) (amount x) (type x) (status x) v (description x) (sourceWalletId x)
    (destinationWalletId x) (metadata x) (idempotencyKey x) (externalReferenceId x)
    (retryCount x) (processedAt x) (completedAt x) (failedAt x) (errorDetails x)
    (sagaState x) (reservedAmount x) (reservationExpiry x) (sourceBalanceBefore x)
    (sourceBalanceAfter x) (destinationBalanceBefore x) (destinationBalanceAfter x)
    (createdAt x).

Definition set_retryCount (v : nat) (x : t) : t :=
  Build (id x) (amount x) (type x) (status x) (transferState x) (description x)
    (sourceWalletId x) (destinationWalletId x) (metadata x) (idempotencyKey x)
    (externalReferenceId x) v (processedAt x) (completedAt x) (failedAt x) (errorDetails x)
    (sagaState x) (reservedAmount x) (reservationExpiry x) (sourceBalanceBefore x)
    (sourceBalanceAfter x) (destinationBalanceBefore x) (destinationBalanceAfter x)
    (createdAt x).

Definition set_processedAt (v : option Z) (x : t) : t :=
  Build (id x) (amount x) (type x) (status x) (transferState x) (description x)
    (sourceWalletId x) (destinationWalletId x) (metadata x) (idempotencyKey x)
    (externalReferenceId x) (retryCount x) v (completedAt x) (failedAt x) (errorDetails x)
    (sagaState x) (reservedAmount x) (reservationExpiry x) (sourceBalanceBefore x)
    (sourceBalanceAfter x) (destinationBalanceBefore x) (destinationBalanceAfter x)
    (createdAt x).

Definition set_completedAt (v : option Z) (x : t) : t :=
  Build (id x) (amount x) (type x) (status x) (transferState x) (description x)
    (sourceWalletId x) (destinationWalletId x) (metadata x) (idempotencyKey x)
    (externalReferenceId x) (retryCount x) (processedAt x) v (failedAt x) (errorDetails x)
    (sagaState x) (reservedAmount x) (reservationExpiry x) (sourceBalanceBefore x)
    (sourceBalanceAfter x) (destinationBalanceBefore x) (destinationBalanceAfter x)
    (createdAt x).

Definition set_failedAt (v : option Z) (x : t) : t :=
  Build (id x) (amount x) (type x) (status x) (transferState x) (description x)
    (sourceWalletId x) (destinationWalletId x) (metadata x) (idempotencyKey x)
    (externalReferenceId x) (retryCount x) (processedAt x) (completedAt x) v
    (errorDetails x) (sagaState x) (reservedAmount x) (reservationExpiry x)
    (sourceBalanceBefore x) (sourceBalanceAfter x) (destinationBalanceBefore x)
    (destinationBalanceAfter x) (createdAt x).

Definition set_errorDetails (v : option ErrorDetails) (x : t) : t :=
  Build (id x) (amount x) (type x) (status x) (transferState x) (description x)
    (sourceWalletId x) (destinationWalletId x) (metadata x) (idempotencyKey x)
    (externalReferenceId x) (retryCount x) (processedAt x) (completedAt x) (failedAt x) v
    (sagaState x) (reservedAmount x) (reservationExpiry x) (sourceBalanceBefore x)
    (sourceBalanceAfter x) (destinationBalanceBefore x) (destinationBalanceAfter x)
    (createdAt x).

Definition set_sagaState (v : option SagaSnapshot) (x : t) : t :=
  Build (id x) (amount x) (type x) (status x) (transferState x) (description x)
    (sourceWalletId x) (destinationWalletId x) (metadata x) (idempotencyKey x)
    (externalReferenceId x) (retryCount x) (processedAt x) (completedAt x) (failedAt x)
    (errorDetails x) v (reservedAmount x) (reservationExpiry x) (sourceBalanceBefore x)
    (sourceBalanceAfter x) (destinationBalanceBefore x) (destinationBalanceAfter x)
    (createdAt x).

Definition set_reservation (v0 : option Z) (v1 : option Z) (x : t) : t :=
  Build (id x) (amount x) (type x) (status x) (transferState x) (description x)
    (sourceWalletId x) (destinationWalletId x) (metadata x) (idempotencyKey x)
    (externalReferenceId x) (retryCount x) (processedAt x) (completedAt x) (failedAt x)
    (errorDetails x) (sagaState x) v0 v1 (sourceBalanceBefore x) (sourceBalanceAfter x)
    (destinationBalanceBefore x) (destinationBalanceAfter x) (createdAt x).

Definition set_snapshots (v0 : option Z) (v1 : option Z) (v2 : option Z) (v3 : option Z) (x : t) : t :=
  Build (id x) (amount x) (type x) (status x) (transferState x) (description x)
    (sourceWalletId x) (destinationWalletId x) (metadata x) (idempotencyKey x)
    (externalReferenceId x) (retryCount x) (processedAt x) (completedAt x) (failedAt x)
    (errorDetails x) (sagaState x) (reservedAmount x) (reservationExpiry x) v0 v1 v2 v3
    (createdAt x).

Definition set_amount (v : Js.value) (x : t) : t :=
  Build (id x) v (type x) (status x) (transferState x) (description x) (sourceWalletId x)
    (destinationWalletId x) (metadata x) (idempotencyKey x) (externalReferenceId x)
    (retryCount x) (processedAt x) (completedAt x) (failedAt x) (errorDetails x)
    (sagaState x) (reservedAmount x) (reservationExpiry x) (sourceBalanceBefore x)
    (sourceBalanceAfter x) (destinationBalanceBefore x) (destinationBalanceAfter x)
    (createdAt x).

(** The row the store holds once the entity object is saved: [amount] is a
    [decimal(15,2)] column. *)
Definition asStored (x : t) : t := set_amount (Js.asColumn (amount x)) x.

(** [isCompleted()] and [isInProgress()] of the entity. *)
Definition isCompleted (x : t) : bool :=
  bool_decide (status x = TransactionStatus.COMPLETED).

Definition isInProgress (x : t) : bool :=
  bool_decide (status x = TransactionStatus.PENDING)
  || bool_decide (status x = TransactionStatus.PROCESSING).
End Transaction.

(* ===================================================================== *)
(** * Requests and responses                                              *)
(* ===================================================================== *)

Module TransferDto.
Record t := Build {
  destinationWalletId : string;
  amount : Z;
  description : option string;
  idempotencyKey : option string;
  externalReferenceId : option string
}.
End TransferDto.

(** The [metadata] property of a response: either the transaction's metadata
    spread and enriched ([mapToTransferResponseDto]) or the raw column
    ([reconstructResultFromTransaction]). *)
Inductive ResponseMetadata : Type :=
| MetaEnriched (base : list (string * string)) (transferState : option TransferState.t)
    (idempotencyKey externalReferenceId : option string) (completedAt : option Z)
| MetaRaw (base : list (string * string)).

(** The response body.  [transferState] and [completedAt] are top-level
    properties only in the reconstructed shape. *)
Module TransferResponseDto.
Record t := Build {
  id : string;
  amount : Js.value;
  sourceWalletId : option string;
  destinationWalletId : option string;
  description : string;
  status : TransactionStatus.t;
  createdAt : Z;
  metadata : ResponseMetadata;
  transferState : option (option TransferState.t);
  completedAt : option (option Z)
}.
End TransferResponseDto.

(* ===================================================================== *)
(** * The world the services run against                                  *)
(* ===================================================================== *)

(** What a Redis key holds (the JSON text, typed). *)
Inductive CacheVal : Type :=
| CResult (r : TransferResponseDto.t)
| CRequestStatus (completedAt : Z)
| CFailure (error : string) (status : Z) (timestamp : Z)
| CRequestHash (idempotencyKey : string) (createdAt : Z) (endpoint method : string)
| CBalance (balance : string) (version lastUpdated : Z)
| CString (s : string).

(** Events the lease discipline speaks about: the lease of a wallet taken and
    given back ([SET NX] and the compare-and-delete script on
    [wallet_lock:{walletId}]), and an [UPDATE] of a wallet's balance column. *)
Inductive Event : Type :=
| LockAcquired (walletId : string)
| LockReleased (walletId : string)
| BalanceWrite (walletId : string).

#[global] Instance Event_eq_dec : EqDecision Event.
Proof. solve_decision. Defined.

(** [context.metadata]: the two snapshots the debit and credit steps store. *)
Record SagaMetadata := {
  md_sourceBalanceBefore : option Z;
  md_destinationBalanceBefore : option Z
}.

Record World := BuildWorld {
  wallets : gmap string Wallet.t;
  transactions : list Transaction.t;
  transferLimits : gmap string TransferLimit.t;
  redis : gmap string CacheVal;
  now : Z;
  today : Z;
  currentMonth : Z;
  entropy : list string;
  faults : list bool;
  trace : list Event;
  contextMetadata : SagaMetadata;
  openTransaction : option (gmap string Wallet.t * list Transaction.t)
}.

Definition set_wallets (v : gmap string Wallet.t) (x : World) : World :=
  BuildWorld v (transactions x) (transferLimits x) (redis x) (now x) (today x)
    (currentMonth x) (entropy x) (faults x) (trace x) (contextMetadata x)
    (openTransaction x).

Definition set_transactions (v : list Transaction.t) (x : World) : World :=
  BuildWorld (wallets x) v (transferLimits x) (redis x) (now x) (today x) (currentMonth x)
    (entropy x) (faults x) (trace x) (contextMetadata x) (openTransaction x).

Definition set_transferLimits (v : gmap string TransferLimit.t) (x : World) : World :=
  BuildWorld (wallets x) (transactions x) v (redis x) (now x) (today x) (currentMonth x)
    (entropy x) (faults x) (trace x) (contextMetadata x) (openTransaction x).

Definition set_redis (v : gmap string CacheVal) (x : World) : World :=
  BuildWorld (wallets x) (transactions x) (transferLimits x) v (now x) (today x)
    (currentMonth x) (entropy x) (faults x) (trace x) (contextMetadata x)
    (openTransaction x).

Definition set_entropy (v : list string) (x : World) : World :=
  BuildWorld (wallets x) (transactions x) (transferLimits x) (redis x) (now x) (today x)
    (currentMonth x) v (faults x) (trace x) (contextMetadata x) (openTransaction x).

Definition set_faults (v : list bool) (x : World) : World :=
  BuildWorld (wallets x) (transactions x) (transferLimits x) (redis x) (now x) (today x)
    (currentMonth x) (entropy x) v (trace x) (contextMetadata x) (openTransaction x).

Definition set_trace (v : list Event) (x : World) : World :=
  BuildWorld (wallets x) (transactions x) (transferLimits x) (redis x) (now x) (today x)
    (currentMonth x) (entropy x) (faults x) v (contextMetadata x) (openTransaction x).

Definition set_contextMetadata (v : SagaMetadata) (x : World) : World :=
  BuildWorld (wallets x) (transactions x) (transferLimits x) (redis x) (now x) (today x)
    (currentMonth x) (entropy x) (faults x) (trace x) v (openTransaction x).

Definition set_openTransaction (v : option (gmap string Wallet.t * list Transaction.t)) (x : World) : World :=
  BuildWorld (wallets x) (transactions x) (transferLimits x) (redis x) (now x) (today x)
    (currentMonth x) (entropy x) (faults x) (trace x) (contextMetadata x) v.


Definition M (A : Type) : Type := ST World A.

(* ===================================================================== *)
(** * I/O primitives: oracles, repositories, the Redis client             *)
(* ===================================================================== *)

Definition infrastructureFault : Exn := Error "infrastructure fault".

(** One awaited call on the store or on Redis: it rejects when the fault
    schedule says so. *)
Definition io : M unit :=
  fun w => match faults w with
           | [] => (Ok tt, w)
           | false :: fs => (Ok tt, set_faults fs w)
           | true :: fs => (Throw infrastructureFault, set_faults fs w)
           end.

(** The next value of the entropy source (UUIDs, [Math.random()]). *)
Definition fresh : M string :=
  fun w => match entropy w with
           | [] => (Ok "", w)
           | x :: xs => (Ok x, set_entropy xs w)
           end.

Definition emit (e : Event) : M unit :=
  modify (fun w => set_trace (trace w ++ [e]) w).

Module walletRepository.

(** [findOne({ where: { id, ...cond } })] *)
Definition findOne (id : string) (cond : Wallet.t -> bool) : M (option Wallet.t) :=
  io ;;
  ws <- gets wallets ;;
  ret (match ws !! id with
       | Some x => if cond x then Some x else None
       | None => None
       end).

(** [update({ id }, { balance: () => `balance + ${delta}` })]: the expression
    is evaluated by the store on the current row. *)
Definition updateBalanceBy (id : string) (delta : Z) : M unit :=
  io ;;
  ws <- gets wallets ;;
  match ws !! id with
  | Some x =>
      modify (set_wallets (<[id := Wallet.set_balance (Wallet.balance x + delta) x]> ws)) ;;
      emit (BalanceWrite id)
  | None => ret tt
  end.

(** [update(Wallet, id, { balance: newBalance })]: the column is set to the
    value the caller computed. *)
Definition updateBalance (id : string) (newBalance : Z) : M unit :=
  io ;;
  ws <- gets wallets ;;
  match ws !! id with
  | Some x =>
      modify (set_wallets (<[id := Wallet.set_balance newBalance x]> ws)) ;;
      emit (BalanceWrite id)
  | None => ret tt
  end.

(** [save] of a new wallet: the store generates the [id]. *)
Definition insert (x : Wallet.t) : M Wallet.t :=
  io ;;
  id <- fresh ;;
  ws <- gets wallets ;;
  match ws !! id with
  | Some _ => throw (Error "duplicate key value violates unique constraint")
  | None =>
      let row := Wallet.Build id (Wallet.balance x) (Wallet.currency x) (Wallet.isActive x)
                   (Wallet.name x) (Wallet.userId x) in
      modify (set_wallets (<[id := row]> ws)) ;;
      ret row
  end.

End walletRepository.

Definition any (_ : Wallet.t) : bool := true.

Definition ownedActive (userId : string) (x : Wallet.t) : bool :=
  bool_decide (Wallet.userId x = userId) && Wallet.isActive x.

Module transactionRepository.

Definition hasId (id : string) (x : Transaction.t) : bool :=
  bool_decide (Transaction.id x = id).

Definition hasKey (key : string) (x : Transaction.t) : bool :=
  bool_decide (Transaction.idempotencyKey x = Some key).

(** [findOne({ where: { id } })] *)
Definition findOneById (id : string) : M (option Transaction.t) :=
  io ;; gets (fun w => find (hasId id) (transactions w)).

(** [findOne({ where: { idempotencyKey }, order: { createdAt: 'DESC' } })]:
    rows are kept in insertion order, the most recent one is the last. *)
Definition findOneByIdempotencyKey (key : string) : M (option Transaction.t) :=
  io ;; gets (fun w => find (hasKey key) (rev (transactions w))).

Definition replaceRow (x : Transaction.t) (rows : list Transaction.t) : list Transaction.t :=
  if existsb (hasId (Transaction.id x)) rows
  then map (fun r => if hasId (Transaction.id x) r then x else r) rows
  else rows ++ [x].

(** [save] of a new entity: the store generates [id] and [createdAt]; the
    unique index on [idempotencyKey] (and the primary key) reject duplicates.
    The object returned is the one that was passed, with the generated
    columns filled in and every nullable column it never had set to [null]. *)
Definition insert (x : Transaction.t) : M Transaction.t :=
  io ;;
  id <- fresh ;;
  t <- gets now ;;
  rows <- gets transactions ;;
  let dupKey := match Transaction.idempotencyKey x with
                | Some k => existsb (hasKey k) rows
                | None => false
                end in
  if dupKey || existsb (hasId id) rows
  then throw (Error "duplicate key value violates unique constraint")
  else
    let row := Transaction.set_generated id t x in
    modify (set_transactions (rows ++ [Transaction.asStored row])) ;;
    ret row.

(** [save] of an entity that was loaded with [findOne] and modified. *)
Definition save (x : Transaction.t) : M unit :=
  io ;; modify (fun w => set_transactions (replaceRow x (transactions w)) w).

(** [save] of the entity object [createTransactionRecord] returned: every
    column of the row is written from the object.  The object never sees what
    the steps wrote to the row in between (the reservation, the balance
    snapshots): its own properties are still the [null] of the insert. *)
Definition storeObject (obj : Transaction.t) (w : World) : World :=
  set_transactions (replaceRow (Transaction.asStored obj) (transactions w)) w.

Definition saveObject (obj : Transaction.t) : M unit :=
  io ;; modify (storeObject obj).

End transactionRepository.

Module transferLimitRepository.

(** [findOne({ where: { userId } })]; the ledger is one row per user. *)
Definition findOne (userId : string) : M (option TransferLimit.t) :=
  io ;; gets (fun w => transferLimits w !! userId).

Definition save (x : TransferLimit.t) : M unit :=
  io ;;
  modify (fun w => set_transferLimits (<[TransferLimit.userId x := x]> (transferLimits w)) w).

(** [save] of a row whose two usage counters were assigned [dailyUsed] and
    [monthlyUsed]: the store rounds what it is sent to two decimals, and
    rejects the statement when one of them is not a number. *)
Definition invalidNumeric (text : string) : Exn :=
  Error ("invalid input syntax for type numeric: " +:+ JSON.quote +:+ text +:+ JSON.quote).

Definition saveUsage (x : TransferLimit.t) (dailyUsed monthlyUsed : Js.value) : M unit :=
  io ;;
  match Js.column dailyUsed, Js.column monthlyUsed with
  | Some d, Some m =>
      let row := TransferLimit.set_monthlyUsed m (TransferLimit.set_dailyUsed d x) in
      modify (fun w =>
        set_transferLimits (<[TransferLimit.userId x := row]> (transferLimits w)) w)
  | None, _ => throw (invalidNumeric (Js.toString dailyUsed))
  | _, None => throw (invalidNumeric (Js.toString monthlyUsed))
  end.

End transferLimitRepository.

(** The Redis client. *)
Module client.

Definition get (key : string) : M (option CacheVal) :=
  io ;; gets (fun w => redis w !! key).

Definition set (key : string) (v : CacheVal) : M unit :=
  io ;; modify (fun w => set_redis (<[key := v]> (redis w)) w).

Definition del (key : string) : M unit :=
  io ;; modify (fun w => set_redis (delete key (redis w)) w).

(** [SET key value NX EX ttl]: [true] for the reply [OK]. *)
Definition setNX (key : string) (v : CacheVal) : M bool :=
  io ;;
  r <- gets redis ;;
  match r !! key with
  | Some _ => ret false
  | None => modify (set_redis (<[key := v]> r)) ;; ret true
  end.

(** The release script: delete the key only if it holds [value]. *)
Definition compareAndDelete (key value : string) : M bool :=
  io ;;
  r <- gets redis ;;
  match r !! key with
  | Some (CString v) =>
      if bool_decide (v = value) then modify (set_redis (delete key r)) ;; ret true
      else ret false
  | _ => ret false
  end.

(** [DEL key1 key2 ...]: one command. *)
Definition delMany (keys : list string) : M unit :=
  io ;; modify (fun w => set_redis (foldr delete (redis w) keys) w).

(** The compare-and-swap script of [updateWalletBalanceIfVersionMatches]:
    [SETEX] when the key is missing or holds [expectedVersion]; the reply is
    [1] or [0].  A value [cjson.decode] rejects makes the script fail, a
    value without a [version] compares unequal. *)
Definition setIfVersionMatches (key : string) (expectedVersion : Z) (data : CacheVal)
    : M bool :=
  io ;;
  r <- gets redis ;;
  match r !! key with
  | None => modify (set_redis (<[key := data]> r)) ;; ret true
  | Some (CBalance _ version _) =>
      if bool_decide (version = expectedVersion)
      then modify (set_redis (<[key := data]> r)) ;; ret true
      else ret false
  | Some (CString _) => throw (Error "ERR Error running script")
  | Some _ => ret false
  end.

End client.

(** A string read from Redis is tested for truthiness ([if (cached)]): the
    empty string counts as a miss. *)
Definition truthy (o : option CacheVal) : option CacheVal :=
  match o with
  | Some (CString "") => None
  | _ => o
  end.

(* ===================================================================== *)
(** * [CacheService] ([src/cache/cache.service.ts])                        *)
(* ===================================================================== *)

Module CacheService.

Definition get (key : string) : M (option CacheVal) := client.get key.

(** [set(key, value, ttl?)]: [setEx] or [set]; the TTL is not simulated. *)
Definition set (key : string) (v : CacheVal) : M unit := client.set key v.

Definition del (key : string) : M unit := client.del key.

Definition lockKey (walletId : string) : string := "wallet_lock:" +:+ walletId.

Definition acquireWalletLock (walletId : string) : M (option string) :=
  t <- gets now ;;
  rnd <- fresh ;;
  let lockValue := pretty t +:+ "_" +:+ rnd in
  tryCatch
    (ok <- client.setNX (lockKey walletId) (CString lockValue) ;;
     if ok : bool then emit (LockAcquired walletId) ;; ret (Some lockValue)
     else ret None)
    (fun _ => ret None).

Definition releaseWalletLock (walletId lockValue : string) : M bool :=
  tryCatch
    (ok <- client.compareAndDelete (lockKey walletId) lockValue ;;
     if ok : bool then emit (LockReleased walletId) ;; ret true
     else ret false)
    (fun _ => ret false).

(** [withWalletLock(walletId, operation, timeoutMs = 30000)]; the time-out is
    the lifetime of the lease and appears in the message. *)
Definition unableToAcquire (walletId : string) (timeoutMs : Z) : Exn :=
  Error ("Unable to acquire lock for wallet " +:+ walletId +:+ " within "
         +:+ pretty timeoutMs +:+ "ms").

Definition withWalletLock {A : Type} (walletId : string) (operation : M A)
    (timeoutMs : Z) : M A :=
  lockValue <- acquireWalletLock walletId ;;
  match lockValue with
  | None => throw (unableToAcquire walletId timeoutMs)
  | Some v => tryFinally operation (releaseWalletLock walletId v ;; ret tt)
  end.

Definition balanceKey (walletId : string) : string := "wallet_balance_v2:" +:+ walletId.

(** Returns [(balance, version)], the balance being [parseFloat] of the text
    the entry holds; a value that does not parse gives [null]. *)
Definition getWalletBalanceWithVersion (walletId : string) : M (option (option Q * Z)) :=
  data <- get (balanceKey walletId) ;;
  match truthy data with
  | Some (CBalance b v _) => ret (Some (Js.parseFloat b, v))
  | _ => ret None
  end.

(** The entry holds [balance.toString()]. *)
Definition setWalletBalanceWithVersion (walletId : string) (balance : Js.value)
    (version : Z) : M unit :=
  t <- gets now ;;
  set (balanceKey walletId) (CBalance (Js.toString balance) version t).

Definition invalidateTransferLimitUsage (userId : string) : M unit :=
  del ("transfer_limit:" +:+ userId +:+ ":daily") ;;
  del ("transfer_limit:" +:+ userId +:+ ":monthly").

(** The object [getWalletBalanceWithVersion] answers with. *)
Record WalletBalanceWithVersion := {
  wb_balance : option Q;
  wb_version : Z;
  wb_lastUpdated : Z
}.

(** [getWalletBalanceWithVersion], the [lastUpdated] field of the answer kept. *)
Definition getWalletBalanceWithVersion' (walletId : string)
    : M (option WalletBalanceWithVersion) :=
  data <- get (balanceKey walletId) ;;
  match truthy data with
  | Some (CBalance b v t) =>
      ret (Some {| wb_balance := Js.parseFloat b; wb_version := v; wb_lastUpdated := t |})
  | _ => ret None
  end.

Definition updateWalletBalanceIfVersionMatches (walletId : string)
    (newBalance expectedVersion newVersion : Z) : M bool :=
  t <- gets now ;;
  tryCatch
    (client.setIfVersionMatches (balanceKey walletId) expectedVersion
       (CBalance (Js.numberText newBalance) newVersion t))
    (fun _ => ret false).

(** The legacy methods. *)
Definition getWalletBalance (walletId : string) : M (option (option Q)) :=
  data <- getWalletBalanceWithVersion walletId ;;
  ret (fst <$> data).

Definition setWalletBalance (walletId : string) (balance : Z) : M unit :=
  setWalletBalanceWithVersion walletId (Js.Number balance) 1.

Definition legacyBalanceKey (walletId : string) : string := "wallet_balance:" +:+ walletId.

Definition invalidateWalletBalance (walletId : string) : M unit :=
  promiseAll2 (del (legacyBalanceKey walletId)) (del (balanceKey walletId)) ;;
  ret tt.

Definition invalidateWalletBalances (walletIds : list string) : M unit :=
  if bool_decide (length walletIds = 0%nat) then ret tt
  else client.delMany
         (flat_map (fun id => [legacyBalanceKey id; balanceKey id]) walletIds).

End CacheService.

(** [cachedData ? cachedData.version + 1 : 1] *)
Definition nextVersion (cachedData : option (option Q * Z)) : Z :=
  match cachedData with
  | Some (_, version) => version + 1
  | None => 1
  end.

(* ===================================================================== *)
(** * [IdempotencyService] ([src/common/services/idempotency.service.ts])  *)
(* ===================================================================== *)

Record IdempotencyRequest := {
  ir_key : string;
  ir_requestHash : string;
  ir_endpoint : string;
  ir_method : string;
  ir_userId : string;
  ir_payload : TransferDto.t
}.

Record IdempotencyResult := {
  isNew : bool;
  existingResult : option TransferResponseDto.t;
  existingTransaction : option Transaction.t
}.

Module IdempotencyService.

(** [auto_] followed by a SHA-256 digest of the request salted with
    [Date.now()] and [Math.random()]: the digest is drawn from the entropy
    source. *)
Definition generateIdempotencyKey : M string :=
  digest <- fresh ;;
  ret ("auto_" +:+ digest).

(** The text [JSON.stringify(requestData)] produces. *)
Definition requestData (method endpoint : string) (payload : TransferDto.t)
    (userId : string) : string :=
  "{" +:+ JSON.key "method" +:+ JSON.ofString method
  +:+ "," +:+ JSON.key "endpoint" +:+ JSON.ofString endpoint
  +:+ "," +:+ JSON.key "payload"
  +:+ "{" +:+ JSON.key "destinationWalletId"
          +:+ JSON.ofString (TransferDto.destinationWalletId payload)
  +:+ "," +:+ JSON.key "amount" +:+ JSON.ofNumber (TransferDto.amount payload)
  +:+ JSON.optionalProperty "description" (TransferDto.description payload)
  +:+ "}"
  +:+ "," +:+ JSON.key "userId" +:+ JSON.ofString userId
  +:+ "}".

Definition createRequestHash (method endpoint : string) (payload : TransferDto.t)
    (userId : string) : string :=
  MD5.hex (requestData method endpoint payload userId).

Definition resultKey (idempotencyKey : string) : string := "idempotency:" +:+ idempotencyKey.

(** [JSON.parse] of a cached result. *)
Definition parseResult (v : CacheVal) : M TransferResponseDto.t :=
  match v with
  | CResult r => ret r
  | _ => throw (Error "unexpected value under an idempotency key")
  end.

Definition storeResult (idempotencyKey : string) (result : TransferResponseDto.t) : M unit :=
  tryCatch
    (CacheService.set (resultKey idempotencyKey) (CResult result) ;;
     t <- gets now ;;
     CacheService.set ("idempotency_request:" +:+ idempotencyKey) (CRequestStatus t))
    (fun _ => ret tt).

Definition storeFailure (idempotencyKey : string) (error : Exn) : M unit :=
  tryCatch
    (t <- gets now ;;
     CacheService.set ("idempotency_error:" +:+ idempotencyKey)
       (CFailure (exn_message error) (exn_status error) t))
    (fun _ => ret tt).

Definition reconstructResultFromTransaction (x : Transaction.t)
    : option TransferResponseDto.t :=
  if negb (Transaction.isCompleted x) then None
  else Some {|
    TransferResponseDto.id := Transaction.id x;
    TransferResponseDto.amount := Transaction.amount x;
    TransferResponseDto.sourceWalletId := Transaction.sourceWalletId x;
    TransferResponseDto.destinationWalletId := Transaction.destinationWalletId x;
    TransferResponseDto.description := Transaction.description x;
    TransferResponseDto.status := Transaction.status x;
    TransferResponseDto.createdAt := Transaction.createdAt x;
    TransferResponseDto.metadata := MetaRaw (Transaction.metadata x);
    TransferResponseDto.transferState := Some (Transaction.transferState x);
    TransferResponseDto.completedAt := Some (Transaction.completedAt x) |}.

Definition nonRetryableErrors : list string :=
  ["insufficient_balance"; "invalid_wallet"; "limit_exceeded"; "currency_mismatch"].

Definition canRetryFailedTransaction (x : Transaction.t) : bool :=
  if (3 <=? Transaction.retryCount x)%nat then false
  else
    match Transaction.errorDetails x with
    | Some {| ed_errorCode := Some code |} =>
        if bool_decide (code <> "") && bool_decide (code ∈ nonRetryableErrors)
        then false else true
    | _ => true
    end.

Definition isTransactionInProgress (x : Transaction.t) : bool :=
  Transaction.isInProgress x.

Definition newRequest : IdempotencyResult :=
  {| isNew := true; existingResult := None; existingTransaction := None |}.

Definition handleExistingTransaction (x : Transaction.t) (cacheKey : string)
    : M IdempotencyResult :=
  match Transaction.status x with
  | TransactionStatus.COMPLETED =>
      cachedResult <- CacheService.get cacheKey ;;
      match truthy cachedResult with
      | Some v =>
          r <- parseResult v ;;
          ret {| isNew := false; existingResult := Some r; existingTransaction := None |}
      | None =>
          match reconstructResultFromTransaction x with
          | Some result =>
              storeResult (default "" (Transaction.idempotencyKey x)) result ;;
              ret {| isNew := false; existingResult := Some result;
                     existingTransaction := None |}
          | None => ret newRequest
          end
      end
  | TransactionStatus.PROCESSING | TransactionStatus.PENDING =>
      ret {| isNew := false; existingResult := None; existingTransaction := Some x |}
  | TransactionStatus.FAILED | TransactionStatus.CANCELLED =>
      if canRetryFailedTransaction x then ret newRequest
      else ret {| isNew := false; existingResult := None; existingTransaction := Some x |}
  | TransactionStatus.COMPENSATED =>
      ret {| isNew := false; existingResult := None; existingTransaction := Some x |}
  end.

Definition validateRequestUniqueness (request : IdempotencyRequest)
    (idempotencyKey : string) : M unit :=
  let requestHashKey := "request_hash:" +:+ ir_requestHash request in
  tryCatch
    (existingData <- CacheService.get requestHashKey ;;
     match truthy existingData with
     | Some (CRequestHash existingKey createdAt _ _) =>
         t <- gets now ;;
         if bool_decide (existingKey <> idempotencyKey) && (t - createdAt <? 5 * 60000)
         then
           originalTransaction <- transactionRepository.findOneByIdempotencyKey existingKey ;;
           match originalTransaction with
           | Some x =>
               if isTransactionInProgress x
               then throw (ConflictException
                             ("A similar transfer is already in progress. Please wait or use "
                              +:+ "the same idempotency key: " +:+ existingKey))
               else ret tt
           | None => ret tt
           end
         else ret tt
     | _ => ret tt
     end ;;
     t <- gets now ;;
     CacheService.set requestHashKey
       (CRequestHash idempotencyKey t (ir_endpoint request) (ir_method request)))
    (fun error => if is_conflict error then throw error else ret tt).

Definition startsWithAuto (s : string) : bool := String.prefix "auto_" s.

Definition checkIdempotency (idempotencyKey : string) (request : IdempotencyRequest)
    : M IdempotencyResult :=
  let cacheKey := resultKey idempotencyKey in
  cachedResult <- CacheService.get cacheKey ;;
  match truthy cachedResult with
  | Some v =>
      r <- parseResult v ;;
      ret {| isNew := false; existingResult := Some r; existingTransaction := None |}
  | None =>
      existing <- transactionRepository.findOneByIdempotencyKey idempotencyKey ;;
      match existing with
      | Some x => handleExistingTransaction x cacheKey
      | None =>
          (if negb (startsWithAuto idempotencyKey)
           then validateRequestUniqueness request idempotencyKey
           else ret tt) ;;
          ret newRequest
      end
  end.

End IdempotencyService.

(* ===================================================================== *)
(** * [SagaService] ([src/common/services/saga.service.ts])                *)
(* ===================================================================== *)

Record SagaStep := {
  name : string;
  execute : M unit;
  compensate : M unit;
  retryable : bool;
  maxRetries : nat
}.

Record SagaContext := {
  transactionId : string;
  sourceWalletId : string;
  destinationWalletId : string;
  amount : Z;
  userId : string;
  idempotencyKey : string;
  externalReferenceId : option string
}.

(** The lines the coordinator logs about the steps it drives. *)
Inductive SagaLog : Type :=
| Executing (index : nat) (step : string)
| Retrying (step : string) (attempt : nat)
| Compensating (step : string)
| CompensationFailed (step : string).

(** One saga execution: the world, the [transaction] entity object the
    coordinator mutates and saves, the [sagaState] object, and the log.  The
    steps are closures over the context: they act on the world only. *)
Record Saga := {
  world : World;
  transaction : Transaction.t;
  sagaState : SagaState.t;
  sagaLog : list SagaLog
}.

Definition MS (A : Type) : Type := ST Saga A.

Definition set_world (v : World) (x : Saga) : Saga :=
  {| world := v; transaction := transaction x; sagaState := sagaState x;
     sagaLog := sagaLog x |}.

Definition set_transaction (v : Transaction.t) (x : Saga) : Saga :=
  {| world := world x; transaction := v; sagaState := sagaState x; sagaLog := sagaLog x |}.

Definition set_sagaState (v : SagaState.t) (x : Saga) : Saga :=
  {| world := world x; transaction := transaction x; sagaState := v; sagaLog := sagaLog x |}.

Definition set_sagaLog (v : list SagaLog) (x : Saga) : Saga :=
  {| world := world x; transaction := transaction x; sagaState := sagaState x; sagaLog := v |}.

(** Run a computation on the world inside a saga execution. *)
Definition liftW {A : Type} (m : M A) : MS A :=
  fun s => let (r, w) := m (world s) in (r, set_world w s).

Definition logSaga (l : SagaLog) : MS unit :=
  modify (fun s => set_sagaLog (sagaLog s ++ [l]) s).

Definition updTransaction (f : Transaction.t -> Transaction.t) : MS unit :=
  modify (fun s => set_transaction (f (transaction s)) s).

Definition updSagaState (f : SagaState.t -> SagaState.t) : MS unit :=
  modify (fun s => set_sagaState (f (sagaState s)) s).

Module SagaService.

(** The entity object as the store sees it when it is saved:
    [transaction.sagaState] is a reference to the [sagaState] object, so once
    assigned it shows that object's current value. *)
Definition entity (s : Saga) : Transaction.t :=
  match Transaction.sagaState (transaction s) with
  | Some _ => Transaction.set_sagaState (Some (sagaState s)) (transaction s)
  | None => transaction s
  end.

(** [this.transactionRepository.save(transaction)] *)
Definition saveTransaction : MS unit :=
  x <- gets entity ;;
  liftW (transactionRepository.saveObject x).

(** The assignments of [updateSagaState], before it saves. *)
Definition assignSagaState (s : Saga) : Saga :=
  let st := sagaState s in
  let x := Transaction.set_retryCount (SagaState.retryCount st)
             (Transaction.set_sagaState (Some st) (transaction s)) in
  set_transaction
    match SagaState.lastError st with
    | Some e =>
        Transaction.set_errorDetails
          (Some {| ed_message := exn_message e; ed_step := SagaState.currentStep st;
                   ed_timestamp := now (world s); ed_errorCode := None |}) x
    | None => x
    end s.

Definition updateSagaState : MS unit :=
  modify assignSagaState ;;
  saveTransaction.

(** The assignments of [updateTransactionStatus], before it saves. *)
Definition assignStatus (status : TransactionStatus.t) (s : Saga) : Saga :=
  let t := now (world s) in
  let x := Transaction.set_processedAt (Some t) (Transaction.set_status status (transaction s)) in
  set_transaction
    (if bool_decide (status = TransactionStatus.FAILED)
     then Transaction.set_failedAt (Some t) x
     else x) s.

Definition updateTransactionStatus (status : TransactionStatus.t) : MS unit :=
  modify (assignStatus status) ;;
  saveTransaction.

Definition assignTransferState (transferState : TransferState.t) (s : Saga) : Saga :=
  set_transaction (Transaction.set_transferState (Some transferState) (transaction s)) s.

Definition updateTransferState (transferState : TransferState.t) : MS unit :=
  modify (assignTransferState transferState) ;;
  saveTransaction.

Definition stateMap : list TransferState.t :=
  [TransferState.INITIATED; TransferState.VALIDATION_COMPLETE; TransferState.FUNDS_RESERVED;
   TransferState.DEBIT_COMPLETE; TransferState.CREDIT_COMPLETE].

(** [stateMap[stepIndex] || TransferState.INITIATED] *)
Definition getTransferStateForStep (stepIndex : nat) : TransferState.t :=
  default TransferState.INITIATED (stateMap !! stepIndex).

Definition completeSaga : MS unit :=
  updateTransactionStatus TransactionStatus.COMPLETED ;;
  updateTransferState TransferState.COMPLETED ;;
  modify (fun s =>
    set_transaction (Transaction.set_completedAt (Some (now (world s))) (transaction s)) s) ;;
  saveTransaction.

(** [steps.find(s => s.name === stepName)] *)
Definition findStep (steps : list SagaStep) (stepName : string) : option SagaStep :=
  find (fun s => bool_decide (name s = stepName)) steps.

(** The body of the compensation loop for one completed step name. *)
Definition compensateStep (steps : list SagaStep) (stepName : string) : MS unit :=
  match findStep steps stepName with
  | None => ret tt
  | Some step =>
      tryCatch
        (logSaga (Compensating stepName) ;;
         liftW (compensate step) ;;
         updSagaState (fun st =>
           SagaState.set_compensatedSteps (SagaState.compensatedSteps st ++ [stepName]) st))
        (fun _ => logSaga (CompensationFailed stepName))
  end.

Fixpoint compensateAll (steps : list SagaStep) (names : list string) : MS unit :=
  match names with
  | [] => ret tt
  | stepName :: rest => compensateStep steps stepName ;; compensateAll steps rest
  end.

(** [sagaState.completedSteps.reverse()] reverses the array in place. *)
Definition compensateSaga (steps : list SagaStep) : MS unit :=
  updateTransactionStatus TransactionStatus.FAILED ;;
  updateTransferState TransferState.COMPENSATION_PENDING ;;
  updSagaState (fun st => SagaState.set_completedSteps (rev (SagaState.completedSteps st)) st) ;;
  completedSteps <- gets (fun s => SagaState.completedSteps (sagaState s)) ;;
  compensateAll steps completedSteps ;;
  updateTransferState TransferState.COMPENSATED ;;
  updateSagaState.

(** One pass of the [for] loop at index [i], together with the passes that
    [i--; continue] brings back to the same index.  Each retry increments
    [sagaState.retryCount], and a retry needs [retryCount < maxRetries]: the
    recursion is on [fuel], which [executeSteps] sets to [maxRetries]. *)
Fixpoint attempt (fuel : nat) (i : nat) (step : SagaStep) : MS unit :=
  updSagaState (SagaState.set_currentStep i) ;;
  logSaga (Executing i (name step)) ;;
  tryCatch
    (liftW (execute step) ;;
     updSagaState (fun st =>
       SagaState.set_completedSteps (SagaState.completedSteps st ++ [name step]) st) ;;
     updateSagaState ;;
     updateTransferState (getTransferStateForStep i))
    (fun stepError =>
       updSagaState (SagaState.set_lastError (Some stepError)) ;;
       retryCount <- gets (fun s => SagaState.retryCount (sagaState s)) ;;
       if retryable step && (retryCount <? maxRetries step)%nat
       then
         updSagaState (SagaState.set_retryCount (S retryCount)) ;;
         updateSagaState ;;
         logSaga (Retrying (name step) (S retryCount)) ;;
         match fuel with
         | S fuel' => attempt fuel' i step
         | O => throw stepError
         end
       else throw stepError).

Fixpoint executeSteps (i : nat) (steps : list SagaStep) : MS unit :=
  match steps with
  | [] => ret tt
  | step :: rest => attempt (maxRetries step) i step ;; executeSteps (S i) rest
  end.

Definition initialSagaState : SagaState.t :=
  {| SagaState.currentStep := 0%nat; SagaState.completedSteps := [];
     SagaState.compensatedSteps := []; SagaState.lastError := None;
     SagaState.retryCount := 0%nat |}.

(** The [try]/[catch] of [executeSaga], on a saga execution. *)
Definition runSaga (steps : list SagaStep) : MS unit :=
  tryCatch
    (updateSagaState ;;
     executeSteps 0 steps ;;
     completeSaga)
    (fun error => compensateSaga steps ;; throw error).

Definition startSaga (x : Transaction.t) (w : World) : Saga :=
  {| world := w; transaction := x; sagaState := initialSagaState; sagaLog := [] |}.

(** [executeSaga(transaction, steps, context)]: returns the entity object. *)
Definition executeSaga (x : Transaction.t) (steps : list SagaStep) : M Transaction.t :=
  fun w => let (r, s) := runSaga steps (startSaga x w) in
           (match r with Ok _ => Ok (entity s) | Throw e => Throw e end, world s).

(** ** The steps of a transfer *)

Definition setSourceBalanceBefore (v : Z) : M unit :=
  modify (fun w => set_contextMetadata
    {| md_sourceBalanceBefore := Some v;
       md_destinationBalanceBefore := md_destinationBalanceBefore (contextMetadata w) |} w).

Definition setDestinationBalanceBefore (v : Z) : M unit :=
  modify (fun w => set_contextMetadata
    {| md_sourceBalanceBefore := md_sourceBalanceBefore (contextMetadata w);
       md_destinationBalanceBefore := Some v |} w).

Definition validateTransfer (context : SagaContext) : M unit :=
  found <-
    promiseAll2 (walletRepository.findOne (sourceWalletId context) Wallet.isActive)
                (walletRepository.findOne (destinationWalletId context) Wallet.isActive) ;;
  match found with
  | (None, _) => throw (Error "Source wallet not found or inactive")
  | (Some _, None) => throw (Error "Destination wallet not found or inactive")
  | (Some s, Some d) =>
      if bool_decide (Wallet.currency s <> Wallet.currency d)
      then throw (Error "Currency mismatch between wallets")
      else ret tt
  end.

Definition reserveFunds (context : SagaContext) : M unit :=
  found <- transactionRepository.findOneById (transactionId context) ;;
  match found with
  | None => throw (Error "Transaction not found")
  | Some x =>
      t <- gets now ;;
      transactionRepository.save
        (Transaction.set_reservation (Some (amount context)) (Some (t + 30 * 60 * 1000)) x)
  end.

(** [if (transaction && transaction.reservedAmount)]: the column is read as
    a string (["150.00"], also ["0.00"]), which is truthy; only [null] is
    not. *)
Definition releaseReservedFunds (context : SagaContext) : M unit :=
  found <- transactionRepository.findOneById (transactionId context) ;;
  match found with
  | Some x =>
      match Transaction.reservedAmount x with
      | Some _ => transactionRepository.save (Transaction.set_reservation None None x)
      | None => ret tt
      end
  | None => ret tt
  end.

Definition refreshCache (walletId : string) (balance : Js.value) : M unit :=
  cachedData <- CacheService.getWalletBalanceWithVersion walletId ;;
  CacheService.setWalletBalanceWithVersion walletId balance (nextVersion cachedData).

(** [sourceWallet.balance < context.amount] compares numbers, and
    [sourceWallet.balance - context.amount] is a number. *)
Definition debitSourceWallet (context : SagaContext) : M unit :=
  sourceWallet <- walletRepository.findOne (sourceWalletId context) any ;;
  match sourceWallet with
  | None => throw (Error "Source wallet not found")
  | Some s =>
      if Wallet.balance s <? amount context then throw (Error "Insufficient balance")
      else
        setSourceBalanceBefore (Wallet.balance s) ;;
        walletRepository.updateBalanceBy (sourceWalletId context) (- amount context) ;;
        refreshCache (sourceWalletId context) (Js.Number (Wallet.balance s - amount context))
  end.

Definition creditSourceWallet (context : SagaContext) : M unit :=
  walletRepository.updateBalanceBy (sourceWalletId context) (amount context) ;;
  sourceWallet <- walletRepository.findOne (sourceWalletId context) any ;;
  match sourceWallet with
  | Some s => refreshCache (sourceWalletId context) (balanceOf s)
  | None => ret tt
  end.

(** [destinationWallet.balance + context.amount] is a string followed by a
    number: the text cached is the balance with the amount appended
    (["0.00150"]). *)
Definition creditDestinationWallet (context : SagaContext) : M unit :=
  destinationWallet <- walletRepository.findOne (destinationWalletId context) any ;;
  match destinationWallet with
  | None => throw (Error "Destination wallet not found")
  | Some d =>
      setDestinationBalanceBefore (Wallet.balance d) ;;
      walletRepository.updateBalanceBy (destinationWalletId context) (amount context) ;;
      refreshCache (destinationWalletId context)
        (Js.add (balanceOf d) (Js.Number (amount context)))
  end.

Definition debitDestinationWallet (context : SagaContext) : M unit :=
  walletRepository.updateBalanceBy (destinationWalletId context) (- amount context) ;;
  destinationWallet <- walletRepository.findOne (destinationWalletId context) any ;;
  match destinationWallet with
  | Some d => refreshCache (destinationWalletId context) (balanceOf d)
  | None => ret tt
  end.

Definition finalizeTransfer (context : SagaContext) : M unit :=
  wallets <-
    promiseAll2 (walletRepository.findOne (sourceWalletId context) any)
                (walletRepository.findOne (destinationWalletId context) any) ;;
  found <- transactionRepository.findOneById (transactionId context) ;;
  match found, wallets with
  | Some x, (Some s, Some d) =>
      md <- gets contextMetadata ;;
      transactionRepository.save
        (Transaction.set_snapshots
           (md_sourceBalanceBefore md) (Some (Wallet.balance s))
           (md_destinationBalanceBefore md) (Some (Wallet.balance d)) x)
  | _, _ => ret tt
  end.

Definition createTransferSagaSteps (context : SagaContext) : list SagaStep :=
  [ {| name := "validate_transfer"; retryable := true; maxRetries := 3;
       execute := validateTransfer context;
       compensate := ret tt |};
    {| name := "reserve_funds"; retryable := true; maxRetries := 2;
       execute := reserveFunds context;
       compensate := releaseReservedFunds context |};
    {| name := "debit_source_wallet"; retryable := true; maxRetries := 2;
       execute := debitSourceWallet context;
       compensate := creditSourceWallet context |};
    {| name := "credit_destination_wallet"; retryable := true; maxRetries := 2;
       execute := creditDestinationWallet context;
       compensate := debitDestinationWallet context |};
    {| name := "finalize_transfer"; retryable := false; maxRetries := 0;
       execute := finalizeTransfer context;
       compensate := ret tt |} ].

End SagaService.

(* ===================================================================== *)
(** * [WalletService.addFunds] ([src/wallet/wallet.service.ts])            *)
(* ===================================================================== *)

Module queryRunner.

Definition startTransaction : M unit :=
  io ;;
  modify (fun w => set_openTransaction (Some (wallets w, transactions w)) w).

Definition commitTransaction : M unit :=
  io ;; modify (set_openTransaction None).

(** Undoes the writes made since [startTransaction]; there is nothing to roll
    back once the transaction is committed. *)
Definition rollbackTransaction : M unit :=
  io ;;
  open <- gets openTransaction ;;
  match open with
  | Some (ws, rows) =>
      modify (fun w => set_openTransaction None (set_transactions rows (set_wallets ws w)))
  | None => throw (Error "TransactionNotStartedError")
  end.

End queryRunner.

Module WalletService.

Definition depositRecord (walletId : string) (amount : Z) (description : option string)
    : Transaction.t :=
  {| Transaction.id := ""; Transaction.amount := Js.Number amount;
     Transaction.type := DEPOSIT;
     Transaction.status := TransactionStatus.COMPLETED; Transaction.transferState := None;
     Transaction.description :=
       match description with
       | Some d => if bool_decide (d = "") then "Funds added to wallet" else d
       | None => "Funds added to wallet"
       end;
     Transaction.sourceWalletId := None; Transaction.destinationWalletId := Some walletId;
     Transaction.metadata := []; Transaction.idempotencyKey := None;
     Transaction.externalReferenceId := None; Transaction.retryCount := 0%nat;
     Transaction.processedAt := None; Transaction.completedAt := None;
     Transaction.failedAt := None; Transaction.errorDetails := None;
     Transaction.sagaState := None; Transaction.reservedAmount := None;
     Transaction.reservationExpiry := None; Transaction.sourceBalanceBefore := None;
     Transaction.sourceBalanceAfter := None; Transaction.destinationBalanceBefore := None;
     Transaction.destinationBalanceAfter := None; Transaction.createdAt := 0 |}.

Definition addFunds (walletId userId : string) (amount : Z) (description : option string)
    : M Wallet.t :=
  if amount <=? 0 then throw (BadRequestException "Amount must be positive")
  else
    CacheService.withWalletLock walletId
      (wallet <- walletRepository.findOne walletId (ownedActive userId) ;;
       match wallet with
       | None => throw (NotFoundException "Wallet not found")
       | Some _ =>
           io ;;
           queryRunner.startTransaction ;;
           tryFinally
             (tryCatch
                (cachedData <- CacheService.getWalletBalanceWithVersion walletId ;;
                 let newVersion := match cachedData with
                                   | Some (_, version) => version
                                   | None => 0
                                   end + 1 in
                 walletRepository.updateBalanceBy walletId amount ;;
                 transactionRepository.insert (depositRecord walletId amount description) ;;
                 updatedWallet <- walletRepository.findOne walletId any ;;
                 match updatedWallet with
                 | None => throw (Error "Failed to retrieve updated wallet")
                 | Some u =>
                     queryRunner.commitTransaction ;;
                     CacheService.setWalletBalanceWithVersion walletId
                       (balanceOf u) newVersion ;;
                     ret u
                 end)
                (fun error => queryRunner.rollbackTransaction ;; throw error))
             io
       end)
      30000.

Record CreateWalletDto := {
  cw_name : option string;
  cw_currency : option string
}.

(** [name || `${user.firstName}'s Wallet`] *)
Definition nameOrDefault (user : User.t) (name : option string) : string :=
  match name with
  | Some n => if bool_decide (n = "") then User.firstName user +:+ "'s Wallet" else n
  | None => User.firstName user +:+ "'s Wallet"
  end.

Definition createWallet (user : User.t) (createWalletDto : CreateWalletDto) : M Wallet.t :=
  let currency := default "USD" (cw_currency createWalletDto) in
  savedWallet <-
    walletRepository.insert
      (Wallet.Build "" 0 currency true (nameOrDefault user (cw_name createWalletDto))
         (User.id user)) ;;
  CacheService.setWalletBalanceWithVersion (Wallet.id savedWallet) (Js.Number 0) 1 ;;
  ret savedWallet.

Definition getWalletById (walletId userId : string) : M Wallet.t :=
  wallet <- walletRepository.findOne walletId (ownedActive userId) ;;
  match wallet with
  | None => throw (NotFoundException "Wallet not found")
  | Some x => ret x
  end.

(** [Date.now() - cachedData.lastUpdated.getTime() < 60000] *)
Definition recent (t : Z) (cachedData : CacheService.WalletBalanceWithVersion) : bool :=
  t - CacheService.wb_lastUpdated cachedData <? 60000.

(** What [getWalletBalance] answers with: the number read from the cache
    entry, or the [balance] property of the wallet read from the store. *)
Inductive BalanceRead : Type :=
| Cached (balance : option Q)
| Stored (balance : Js.value).

(** The body [getWalletBalance] runs under the lease. *)
Definition readThrough (walletId userId : string) : M BalanceRead :=
  reCheckCachedData <- CacheService.getWalletBalanceWithVersion' walletId ;;
  t <- gets now ;;
  let fromStore : M BalanceRead :=
    wallet <- walletRepository.findOne walletId (ownedActive userId) ;;
    match wallet with
    | None => throw (NotFoundException "Wallet not found")
    | Some x =>
        let newVersion := match reCheckCachedData with
                          | Some d => CacheService.wb_version d + 1
                          | None => 1
                          end in
        CacheService.setWalletBalanceWithVersion walletId (balanceOf x) newVersion ;;
        ret (Stored (balanceOf x))
    end in
  match reCheckCachedData with
  | Some d => if recent t d then ret (Cached (CacheService.wb_balance d)) else fromStore
  | None => fromStore
  end.

Definition getWalletBalance (walletId userId : string) : M BalanceRead :=
  cachedData <- CacheService.getWalletBalanceWithVersion' walletId ;;
  t <- gets now ;;
  match cachedData with
  | Some d =>
      if recent t d then ret (Cached (CacheService.wb_balance d))
      else CacheService.withWalletLock walletId (readThrough walletId userId) 5000
  | None => CacheService.withWalletLock walletId (readThrough walletId userId) 5000
  end.

Definition updateWalletBalanceAtomic (walletId : string) (newBalance : Z) : M unit :=
  walletRepository.updateBalance walletId newBalance ;;
  cachedData <- CacheService.getWalletBalanceWithVersion walletId ;;
  CacheService.setWalletBalanceWithVersion walletId (Js.Number newBalance)
    (nextVersion cachedData).

(** The legacy method. *)
Definition updateWalletBalance (walletId : string) (newBalance : Z) : M unit :=
  updateWalletBalanceAtomic walletId newBalance.

Definition invalidateWalletCache (walletId : string) : M unit :=
  CacheService.invalidateWalletBalance walletId.





End WalletService.

(* ===================================================================== *)
(** * [TransferService] ([src/transfer/transfer.service.ts])               *)
(* ===================================================================== *)

Module TransferService.

Definition mapToTransferResponseDto (x : Transaction.t) : TransferResponseDto.t :=
  {| TransferResponseDto.id := Transaction.id x;
     TransferResponseDto.amount := Transaction.amount x;
     TransferResponseDto.sourceWalletId := Transaction.sourceWalletId x;
     TransferResponseDto.destinationWalletId := Transaction.destinationWalletId x;
     TransferResponseDto.description := Transaction.description x;
     TransferResponseDto.status := Transaction.status x;
     TransferResponseDto.createdAt := Transaction.createdAt x;
     TransferResponseDto.metadata :=
       MetaEnriched (Transaction.metadata x) (Transaction.transferState x)
         (Transaction.idempotencyKey x) (Transaction.externalReferenceId x)
         (Transaction.completedAt x);
     TransferResponseDto.transferState := None;
     TransferResponseDto.completedAt := None |}.

(** A usage counter as the entity object holds it when the limits are
    checked: the number [0] the code has just assigned when the window is
    reset, the string read from the store otherwise. *)
Definition usedValue (reset : bool) (used : Z) : Js.value :=
  if reset then Js.Number 0 else Js.Text (Js.pgDecimal used).

(** A limit, read from the store. *)
Definition limitValue (limit : Z) : Js.value := Js.Text (Js.pgDecimal limit).

Definition limitExceeded (period : string) (used limit : Js.value) : Exn :=
  BadRequestException
    (period +:+ " transfer limit exceeded. Used: " +:+ Js.toString used
     +:+ ", Limit: " +:+ Js.toString limit).

(** [transferLimit.dailyUsed + amount > transferLimit.dailyLimit]: the sum
    and the comparison are those of [Js.add] and [Js.gt] on what the
    properties hold. *)
Definition validateTransferLimits (userId : string) (amount : Z) : M unit :=
  found <- transferLimitRepository.findOne userId ;;
  match found with
  | None => throw (NotFoundException "Transfer limits not found")
  | Some loaded =>
      today <- gets today ;;
      currentMonth <- gets currentMonth ;;
      let resetDaily := TransferLimit.lastDailyReset loaded <? today in
      let resetMonthly := TransferLimit.lastMonthlyReset loaded <? currentMonth in
      let transferLimit :=
        if resetDaily
        then TransferLimit.set_lastDailyReset today (TransferLimit.set_dailyUsed 0 loaded)
        else loaded in
      let transferLimit :=
        if resetMonthly
        then TransferLimit.set_lastMonthlyReset currentMonth
               (TransferLimit.set_monthlyUsed 0 transferLimit)
        else transferLimit in
      let dailyUsed := usedValue resetDaily (TransferLimit.dailyUsed loaded) in
      let monthlyUsed := usedValue resetMonthly (TransferLimit.monthlyUsed loaded) in
      let dailyLimit := limitValue (TransferLimit.dailyLimit loaded) in
      let monthlyLimit := limitValue (TransferLimit.monthlyLimit loaded) in
      if Js.gt (Js.add dailyUsed (Js.Number amount)) dailyLimit
      then throw (limitExceeded "Daily" dailyUsed dailyLimit)
      else if Js.gt (Js.add monthlyUsed (Js.Number amount)) monthlyLimit
      then throw (limitExceeded "Monthly" monthlyUsed monthlyLimit)
      else transferLimitRepository.save transferLimit
  end.

(** [transferLimit.dailyUsed += amount] on the object just read: the counter
    is a string, so the amount is appended to it (["80.00" + 150] is
    ["80.00150"]) and the text is what [save] sends to the store. *)
Definition updateTransferLimitsUsage (userId : string) (amount : Z) : M unit :=
  found <- transferLimitRepository.findOne userId ;;
  match found with
  | None => ret tt
  | Some transferLimit =>
      let dailyUsed :=
        Js.add (limitValue (TransferLimit.dailyUsed transferLimit)) (Js.Number amount) in
      let monthlyUsed :=
        Js.add (limitValue (TransferLimit.monthlyUsed transferLimit)) (Js.Number amount) in
      transferLimitRepository.saveUsage transferLimit dailyUsed monthlyUsed ;;
      CacheService.invalidateTransferLimitUsage userId
  end.

(** The object [getTransferLimits] answers with. *)
Record TransferLimitsView := {
  v_dailyLimit : Z;
  v_dailyUsed : Z;
  v_dailyRemaining : Z;
  v_monthlyLimit : Z;
  v_monthlyUsed : Z;
  v_monthlyRemaining : Z;
  v_lastDailyReset : Z;
  v_lastMonthlyReset : Z
}.

Definition getTransferLimits (userId : string) : M TransferLimitsView :=
  found <- transferLimitRepository.findOne userId ;;
  match found with
  | None => throw (NotFoundException "Transfer limits not found")
  | Some transferLimit =>
      today <- gets today ;;
      currentMonth <- gets currentMonth ;;
      let transferLimit :=
        if TransferLimit.lastDailyReset transferLimit <? today
        then TransferLimit.set_dailyUsed 0 transferLimit
        else transferLimit in
      let transferLimit :=
        if TransferLimit.lastMonthlyReset transferLimit <? currentMonth
        then TransferLimit.set_monthlyUsed 0 transferLimit
        else transferLimit in
      ret {| v_dailyLimit := TransferLimit.dailyLimit transferLimit;
             v_dailyUsed := TransferLimit.dailyUsed transferLimit;
             v_dailyRemaining :=
               TransferLimit.dailyLimit transferLimit - TransferLimit.dailyUsed transferLimit;
             v_monthlyLimit := TransferLimit.monthlyLimit transferLimit;
             v_monthlyUsed := TransferLimit.monthlyUsed transferLimit;
             v_monthlyRemaining :=
               TransferLimit.monthlyLimit transferLimit
               - TransferLimit.monthlyUsed transferLimit;
             v_lastDailyReset := TransferLimit.lastDailyReset transferLimit;
             v_lastMonthlyReset := TransferLimit.lastMonthlyReset transferLimit |}
  end.

Definition validateTransferRequest (sourceWalletId destinationWalletId : string)
    (amount : Z) (user : User.t) : M unit :=
  if amount <=? 0 then throw (BadRequestException "Transfer amount must be positive")
  else if bool_decide (sourceWalletId = destinationWalletId)
  then throw (BadRequestException "Cannot transfer to the same wallet")
  else
    sourceWallet <- walletRepository.findOne sourceWalletId (ownedActive (User.id user)) ;;
    match sourceWallet with
    | None => throw (NotFoundException "Source wallet not found or not accessible")
    | Some s =>
        destinationWallet <- walletRepository.findOne destinationWalletId Wallet.isActive ;;
        match destinationWallet with
        | None => throw (NotFoundException "Destination wallet not found or inactive")
        | Some d =>
            if bool_decide (Wallet.currency s <> Wallet.currency d)
            then throw (BadRequestException "Currency mismatch between wallets")
            else if Wallet.balance s <? amount
            then throw (BadRequestException "Insufficient balance")
            else validateTransferLimits (User.id user) amount
        end
    end.

Definition handleExistingTransaction (x : Transaction.t) : M TransferResponseDto.t :=
  match Transaction.status x with
  | TransactionStatus.COMPLETED => ret (mapToTransferResponseDto x)
  | TransactionStatus.PROCESSING | TransactionStatus.PENDING =>
      throw (ConflictException "Transfer is already in progress")
  | TransactionStatus.FAILED | TransactionStatus.CANCELLED =>
      throw (BadRequestException "Transfer has failed")
  | TransactionStatus.COMPENSATED =>
      throw (BadRequestException "Transfer has unknown status")
  end.

(** [description || 'P2P Transfer'] *)
Definition descriptionOrDefault (description : option string) : string :=
  match description with
  | Some d => if bool_decide (d = "") then "P2P Transfer" else d
  | None => "P2P Transfer"
  end.

Definition createTransactionRecord (sourceWalletId destinationWalletId : string)
    (amount : Z) (description : option string) (user : User.t) (idempotencyKey : string)
    (externalReferenceId : option string) : M Transaction.t :=
  t <- gets now ;;
  transactionRepository.insert
    {| Transaction.id := ""; Transaction.amount := Js.Number amount;
       Transaction.type := TRANSFER;
       Transaction.status := TransactionStatus.PENDING;
       Transaction.transferState := Some TransferState.INITIATED;
       Transaction.description := descriptionOrDefault description;
       Transaction.sourceWalletId := Some sourceWalletId;
       Transaction.destinationWalletId := Some destinationWalletId;
       Transaction.metadata :=
         [("sourceUserId", User.id user); ("userEmail", User.email user);
          ("initiatedAt", pretty t)];
       Transaction.idempotencyKey := Some idempotencyKey;
       Transaction.externalReferenceId := externalReferenceId;
       Transaction.retryCount := 0%nat;
       Transaction.processedAt := None; Transaction.completedAt := None;
       Transaction.failedAt := None; Transaction.errorDetails := None;
       Transaction.sagaState := None; Transaction.reservedAmount := None;
       Transaction.reservationExpiry := None; Transaction.sourceBalanceBefore := None;
       Transaction.sourceBalanceAfter := None; Transaction.destinationBalanceBefore := None;
       Transaction.destinationBalanceAfter := None; Transaction.createdAt := 0 |}.

Definition executeTransferSaga (sourceWalletId destinationWalletId : string) (amount : Z)
    (description : option string) (user : User.t) (idempotencyKey : string)
    (externalReferenceId : option string) : M TransferResponseDto.t :=
  x <- createTransactionRecord sourceWalletId destinationWalletId amount description user
         idempotencyKey externalReferenceId ;;
  let sagaContext :=
    {| transactionId := Transaction.id x; sourceWalletId := sourceWalletId;
       destinationWalletId := destinationWalletId; amount := amount;
       userId := User.id user; idempotencyKey := idempotencyKey;
       externalReferenceId := externalReferenceId |} in
  modify (set_contextMetadata
    {| md_sourceBalanceBefore := None; md_destinationBalanceBefore := None |}) ;;
  completedTransaction <-
    SagaService.executeSaga x (SagaService.createTransferSagaSteps sagaContext) ;;
  updateTransferLimitsUsage (User.id user) amount ;;
  ret (mapToTransferResponseDto completedTransaction).

(** [transferDto.idempotencyKey || this.idempotencyService.generateIdempotencyKey(...)] *)
Definition resolveIdempotencyKey (transferDto : TransferDto.t) : M string :=
  match TransferDto.idempotencyKey transferDto with
  | Some k => if bool_decide (k = "") then IdempotencyService.generateIdempotencyKey
              else ret k
  | None => IdempotencyService.generateIdempotencyKey
  end.

Definition endpointOf (sourceWalletId : string) : string :=
  "/wallets/" +:+ sourceWalletId +:+ "/transfer".

Definition idempotencyRequestOf (sourceWalletId : string) (user : User.t)
    (transferDto : TransferDto.t) (idempotencyKey : string) : IdempotencyRequest :=
  {| ir_key := idempotencyKey;
     ir_requestHash :=
       IdempotencyService.createRequestHash "POST" (endpointOf sourceWalletId) transferDto
         (User.id user);
     ir_endpoint := endpointOf sourceWalletId; ir_method := "POST";
     ir_userId := User.id user; ir_payload := transferDto |}.

(** The part of [transferFunds] after the idempotency check let the request
    through: validation, the saga, and the record of the outcome. *)
Definition validateAndExecute (sourceWalletId : string) (user : User.t)
    (transferDto : TransferDto.t) (idempotencyKey : string) : M TransferResponseDto.t :=
  validateTransferRequest sourceWalletId (TransferDto.destinationWalletId transferDto)
    (TransferDto.amount transferDto) user ;;
  tryCatch
    (result <- executeTransferSaga sourceWalletId
                 (TransferDto.destinationWalletId transferDto)
                 (TransferDto.amount transferDto) (TransferDto.description transferDto)
                 user idempotencyKey (TransferDto.externalReferenceId transferDto) ;;
     IdempotencyService.storeResult idempotencyKey result ;;
     ret result)
    (fun error => IdempotencyService.storeFailure idempotencyKey error ;; throw error).

Definition transferFunds (sourceWalletId : string) (user : User.t) (transferDto : TransferDto.t)
    : M TransferResponseDto.t :=
  idempotencyKey <- resolveIdempotencyKey transferDto ;;
  idempotencyResult <-
    IdempotencyService.checkIdempotency idempotencyKey
      (idempotencyRequestOf sourceWalletId user transferDto idempotencyKey) ;;
  if negb (isNew idempotencyResult)
  then
    match existingResult idempotencyResult, existingTransaction idempotencyResult with
    | Some r, _ => ret r
    | None, Some x => handleExistingTransaction x
    | None, None => validateAndExecute sourceWalletId user transferDto idempotencyKey
    end
  else validateAndExecute sourceWalletId user transferDto idempotencyKey.

End TransferService.

(* ===================================================================== *)
(** * Properties                                                          *)
(* ===================================================================== *)

Arguments MD5.hex : simpl never.
Arguments IdempotencyService.createRequestHash : simpl never.
Arguments String.append : simpl never.

(** ** The digest and the JSON text are the real ones *)

Example md5_empty : MD5.hex "" = "d41d8cd98f00b204e9800998ecf8427e".
Proof. vm_compute. reflexivity. Qed.

Example md5_abc : MD5.hex "abc" = "900150983cd24fb0d6963f7d28e17f72".
Proof. vm_compute. reflexivity. Qed.

Example md5_two_blocks :
  MD5.hex "12345678901234567890123456789012345678901234567890123456789012345678901234567890"
  = "57edf4a22be3c955ac49da2e2107b67a".
Proof. vm_compute. reflexivity. Qed.

Example json_numbers :
  map JSON.ofNumber [15000; 15050; 15005; 7; 0; -120] = ["150"; "150.5"; "150.05"; "0.07"; "0"; "-1.2"].
Proof. vm_compute. reflexivity. Qed.

(** The hash Node computes for
    [{method:'POST', endpoint:'/wallets/w1/transfer',
      payload:{destinationWalletId:'w2', amount:150.5, description:'dinner'}, userId:'u1'}]. *)
Example createRequestHash_sample :
  IdempotencyService.createRequestHash "POST" "/wallets/w1/transfer"
    (TransferDto.Build "w2" 15050 (Some "dinner") (Some "abc") None) "u1"
  = "d9a801b7f2d06f64ebd08cad0d0e581f".
Proof. vm_compute. reflexivity. Qed.

(** ** Tactics for running the monad *)

Ltac unfold_monad :=
  unfold bind, ret, throw, gets, modify, tryCatch, tryFinally, promiseAll2 in *.

(** Case analysis on the next entry of the fault schedule. *)
Ltac fault_cases w :=
  let fs := fresh "fs" in
  let b := fresh "b" in
  destruct (faults w) as [| b fs] eqn:?; [| destruct b].

(** ** C9: the request hash ignores the idempotency key and the external reference *)

(** C9.  [createRequestHash] is a function of the method, the endpoint, the
    user id and the three business fields of the payload: two payloads that
    agree on [destinationWalletId], [amount] and [description] hash alike,
    whatever their [idempotencyKey] and [externalReferenceId]. *)
Theorem createRequestHash_ignores_key_and_reference :
  forall (method endpoint userId : string) (p1 p2 : TransferDto.t),
    TransferDto.destinationWalletId p1 = TransferDto.destinationWalletId p2 ->
    TransferDto.amount p1 = TransferDto.amount p2 ->
    TransferDto.description p1 = TransferDto.description p2 ->
    IdempotencyService.createRequestHash method endpoint p1 userId
    = IdempotencyService.createRequestHash method endpoint p2 userId.
Proof.
  intros method endpoint userId p1 p2 Hdest Hamount Hdesc.
  unfold IdempotencyService.createRequestHash, IdempotencyService.requestData.
  rewrite Hdest, Hamount, Hdesc.
  reflexivity.
Qed.

Lemma createRequestHash_ignores_key_and_reference_witness :
  IdempotencyService.createRequestHash "POST" "/wallets/w1/transfer"
    (TransferDto.Build "w2" 15050 (Some "dinner") (Some "abc") None) "u1"
  = IdempotencyService.createRequestHash "POST" "/wallets/w1/transfer"
    (TransferDto.Build "w2" 15050 (Some "dinner") (Some "retry-2") (Some "ext-9")) "u1".
Proof.
  apply createRequestHash_ignores_key_and_reference; reflexivity.
Defined.

(** ** C10: reading the limits never writes the ledger *)

(** What the relational store holds. *)
Definition durable (w : World) : gmap string Wallet.t * list Transaction.t
                                 * gmap string TransferLimit.t :=
  (wallets w, transactions w, transferLimits w).

Lemma getTransferLimits_durable (userId : string) (w : World) :
  durable (snd (TransferService.getTransferLimits userId w)) = durable w
  /\ redis (snd (TransferService.getTransferLimits userId w)) = redis w.
Proof.
  unfold TransferService.getTransferLimits, transferLimitRepository.findOne, io.
  unfold_monad.
  fault_cases w; simpl; try (destruct (transferLimits w !! userId)); simpl; auto.
Qed.

(** The world after [n] successive calls of [getTransferLimits]. *)
Fixpoint afterLimitReads (n : nat) (userId : string) (w : World) : World :=
  match n with
  | O => w
  | S n' => afterLimitReads n' userId (snd (TransferService.getTransferLimits userId w))
  end.

(** C10.  [getTransferLimits] is read-only on durable state: after any number
    of calls, with any fault schedule, the ledger table (hence each row's
    [dailyUsed], [monthlyUsed], [lastDailyReset], [lastMonthlyReset]), the
    wallets and the transactions are what they were.  The zeroing of an
    expired window shows only in the object returned. *)
Theorem getTransferLimits_read_only :
  forall (n : nat) (userId : string) (w : World),
    transferLimits (afterLimitReads n userId w) = transferLimits w
    /\ wallets (afterLimitReads n userId w) = wallets w
    /\ transactions (afterLimitReads n userId w) = transactions w.
Proof.
  induction n as [| n IH]; intros userId w; simpl.
  - auto.
  - destruct (IH userId (snd (TransferService.getTransferLimits userId w))) as (H1 & H2 & H3).
    destruct (getTransferLimits_durable userId w) as [Hd _].
    unfold durable in Hd. injection Hd as Hw Ht Hl.
    rewrite H1, H2, H3. auto.
Qed.

(** The answer does show the reset: with a healthy store and an expired daily
    window the view reports [dailyUsed = 0] while the row keeps its value. *)
Lemma getTransferLimits_view_resets (userId : string) (w : World) (l : TransferLimit.t) :
  faults w = [] ->
  transferLimits w !! userId = Some l ->
  TransferLimit.lastDailyReset l < today w ->
  exists v w',
    TransferService.getTransferLimits userId w = (Ok v, w')
    /\ TransferService.v_dailyUsed v = 0
    /\ transferLimits w' !! userId = Some l.
Proof.
  intros Hf Hl Hlt.
  unfold TransferService.getTransferLimits, transferLimitRepository.findOne, io.
  unfold_monad. rewrite Hf. simpl. rewrite Hl. simpl.
  apply Z.ltb_lt in Hlt. rewrite Hlt.
  destruct (TransferLimit.lastMonthlyReset _ <? currentMonth w);
    eexists _, _; (split; [reflexivity |]); (split; [reflexivity | exact Hl]).
Qed.

Open Scope list_scope.
Import SagaService.


(** ** The scenarios of the specification, as worlds *)

Module Scenario.

Definition alice : User.t := User.Build "u1" "alice@example.com" "Alice".

Definition sourceWallet (balance : Z) : Wallet.t :=
  Wallet.Build "w1" balance "USD" true "main" "u1".

Definition destinationWallet (balance : Z) : Wallet.t :=
  Wallet.Build "w2" balance "USD" true "savings" "u2".

Definition ledger (dailyLimit dailyUsed lastDailyReset : Z) : TransferLimit.t :=
  TransferLimit.Build "l1" dailyLimit 10000000 dailyUsed dailyUsed lastDailyReset 1000 "u1".

(** Two wallets with the given balances (in cents), a ledger of 10000.00 a
    day for the source's owner, an empty transaction table and an empty
    Redis; [fs] is the fault schedule. *)
Definition world (source destination : Z) (fs : list bool) : World :=
  {| wallets := <["w1" := sourceWallet source]> (<["w2" := destinationWallet destination]> ∅);
     transactions := [];
     transferLimits := {["u1" := ledger 1000000 0 1000]};
     redis := ∅;
     now := 5000; today := 1000; currentMonth := 1000;
     entropy := ["tx-1"; "tx-2"; "tx-3"; "tx-4"];
     faults := fs;
     trace := [];
     contextMetadata :=
       {| md_sourceBalanceBefore := None; md_destinationBalanceBefore := None |};
     openTransaction := None |}.

(** A transfer of [amount] cents to the destination wallet. *)
Definition request (amount : Z) (key : option string) : TransferDto.t :=
  TransferDto.Build "w2" amount (Some "dinner") key None.

(** The same world with another ledger row for the user. *)
Definition withLedger (l : TransferLimit.t) (w : World) : World :=
  set_transferLimits {["u1" := l]} w.

(** The entity object [createTransactionRecord] returns for [request]. *)
Definition pendingTransfer (amount : Z) : Transaction.t :=
  {| Transaction.id := "tx-0"; Transaction.amount := Js.Number amount;
     Transaction.type := TRANSFER;
     Transaction.status := TransactionStatus.PENDING;
     Transaction.transferState := Some TransferState.INITIATED;
     Transaction.description := "dinner";
     Transaction.sourceWalletId := Some "w1"; Transaction.destinationWalletId := Some "w2";
     Transaction.metadata := []; Transaction.idempotencyKey := Some "abc";
     Transaction.externalReferenceId := None; Transaction.retryCount := 0%nat;
     Transaction.processedAt := None; Transaction.completedAt := None;
     Transaction.failedAt := None; Transaction.errorDetails := None;
     Transaction.sagaState := None; Transaction.reservedAmount := None;
     Transaction.reservationExpiry := None; Transaction.sourceBalanceBefore := None;
     Transaction.sourceBalanceAfter := None; Transaction.destinationBalanceBefore := None;
     Transaction.destinationBalanceAfter := None; Transaction.createdAt := 5000 |}.

Definition contextFrom (source : string) (amount : Z) : SagaContext :=
  {| transactionId := "tx-0"; sourceWalletId := source; destinationWalletId := "w2";
     amount := amount; userId := "u1"; idempotencyKey := "abc";
     externalReferenceId := None |}.

Definition context (amount : Z) : SagaContext := contextFrom "w1" amount.

(** A world in which [pendingTransfer] is already stored. *)
Definition worldWithTransfer (source destination amount : Z) (fs : list bool) : World :=
  set_transactions [Transaction.asStored (pendingTransfer amount)]
    (world source destination fs).


Definition completedRow : Transaction.t :=
  {| Transaction.id := "tx-1"; Transaction.amount := Js.Text "150.00";
     Transaction.type := TRANSFER;
     Transaction.status := TransactionStatus.COMPLETED;
     Transaction.transferState := Some TransferState.COMPLETED;
     Transaction.description := "dinner";
     Transaction.sourceWalletId := Some "w1"; Transaction.destinationWalletId := Some "w2";
     Transaction.metadata :=
       [("sourceUserId", "u1"); ("userEmail", "alice@example.com"); ("initiatedAt", "5000")];
     Transaction.idempotencyKey := Some "abc";
     Transaction.externalReferenceId := None; Transaction.retryCount := 0%nat;
     Transaction.processedAt := Some 5000; Transaction.completedAt := Some 5000;
     Transaction.failedAt := None; Transaction.errorDetails := None;
     Transaction.sagaState :=
       Some {| SagaState.currentStep := 4%nat;
               SagaState.completedSteps :=
                 ["validate_transfer"; "reserve_funds"; "debit_source_wallet";
                  "credit_destination_wallet"; "finalize_transfer"];
               SagaState.compensatedSteps := []; SagaState.lastError := None;
               SagaState.retryCount := 0%nat |};
     Transaction.reservedAmount := None;
     Transaction.reservationExpiry := None;
     Transaction.sourceBalanceBefore := None;
     Transaction.sourceBalanceAfter := None;
     Transaction.destinationBalanceBefore := None;
     Transaction.destinationBalanceAfter := None; Transaction.createdAt := 5000 |}.

(** The response of that first submission. *)
Definition firstResponse : TransferResponseDto.t :=
  {| TransferResponseDto.id := "tx-1";
     TransferResponseDto.amount := Js.Number 15000;
     TransferResponseDto.sourceWalletId := Some "w1";
     TransferResponseDto.destinationWalletId := Some "w2";
     TransferResponseDto.description := "dinner";
     TransferResponseDto.status := TransactionStatus.COMPLETED;
     TransferResponseDto.createdAt := 5000;
     TransferResponseDto.metadata :=
       MetaEnriched
         [("sourceUserId", "u1"); ("userEmail", "alice@example.com"); ("initiatedAt", "5000")]
         (Some TransferState.COMPLETED) (Some "abc") None (Some 5000);
     TransferResponseDto.transferState := None;
     TransferResponseDto.completedAt := None |}.



End Scenario.


(** ** Computations that leave the relational store alone *)

(** [w'] differs from [w] at most in Redis, the entropy source and the
    request's context metadata; the fault schedule stays empty if it was. *)
Definition frame (w w' : World) : Prop :=
  wallets w' = wallets w /\ transactions w' = transactions w
  /\ transferLimits w' = transferLimits w /\ trace w' = trace w
  /\ now w' = now w /\ today w' = today w /\ currentMonth w' = currentMonth w
  /\ (faults w = [] -> faults w' = []).

Lemma frame_refl (w : World) : frame w w.
Proof. unfold frame; auto 10. Qed.

Lemma frame_trans (w1 w2 w3 : World) : frame w1 w2 -> frame w2 w3 -> frame w1 w3.
Proof. unfold frame; intuition congruence. Qed.

Lemma frame_healthy (w w' : World) : frame w w' -> faults w = [] -> faults w' = [].
Proof. unfold frame; tauto. Qed.

Lemma frame_wallets (w w' : World) : frame w w' -> wallets w' = wallets w.
Proof. unfold frame; tauto. Qed.

Lemma frame_transactions (w w' : World) : frame w w' -> transactions w' = transactions w.
Proof. unfold frame; tauto. Qed.

Lemma frame_transferLimits (w w' : World) : frame w w' -> transferLimits w' = transferLimits w.
Proof. unfold frame; tauto. Qed.

Lemma frame_trace (w w' : World) : frame w w' -> trace w' = trace w.
Proof. unfold frame; tauto. Qed.

Definition keepsStore {A : Type} (m : M A) : Prop := forall w, frame w (snd (m w)).

Lemma keepsStore_ret {A : Type} (a : A) : keepsStore (ret a).
Proof. intros w. apply frame_refl. Qed.

Lemma keepsStore_throw {A : Type} (e : Exn) : keepsStore (@throw World A e).
Proof. intros w. apply frame_refl. Qed.

Lemma keepsStore_gets {A : Type} (f : World -> A) : keepsStore (gets f).
Proof. intros w. apply frame_refl. Qed.

Lemma keepsStore_bind {A B : Type} (m : M A) (k : A -> M B) :
  keepsStore m -> (forall a, keepsStore (k a)) -> keepsStore (bind m k).
Proof.
  intros Hm Hk w. unfold bind. specialize (Hm w).
  destruct (m w) as [[a | e] w1]; simpl in *; [| exact Hm].
  eapply frame_trans; [exact Hm | apply Hk].
Qed.

Lemma keepsStore_tryCatch {A : Type} (m : M A) (h : Exn -> M A) :
  keepsStore m -> (forall e, keepsStore (h e)) -> keepsStore (tryCatch m h).
Proof.
  intros Hm Hh w. unfold tryCatch. specialize (Hm w).
  destruct (m w) as [[a | e] w1]; simpl in *; [exact Hm |].
  eapply frame_trans; [exact Hm | apply Hh].
Qed.

Lemma keepsStore_io : keepsStore io.
Proof.
  intros w. unfold io, frame. fault_cases w; simpl; intuition congruence.
Qed.

Lemma keepsStore_fresh : keepsStore fresh.
Proof. intros w. unfold fresh, frame. destruct (entropy w); simpl; auto 10. Qed.

Lemma keepsStore_set_redis (r : gmap string CacheVal) : keepsStore (modify (set_redis r)).
Proof. intros w. unfold frame; simpl; auto 10. Qed.

Lemma keepsStore_modify_redis (f : World -> gmap string CacheVal) :
  keepsStore (modify (fun w => set_redis (f w) w)).
Proof. intros w. unfold frame; simpl; auto 10. Qed.

Create HintDb keeps.
#[local] Hint Resolve keepsStore_ret keepsStore_throw keepsStore_gets keepsStore_io
  keepsStore_fresh keepsStore_set_redis keepsStore_modify_redis : keeps.

Ltac keeps :=
  repeat first
    [ solve [eauto with keeps]
    | apply keepsStore_bind; [| intros ?]
    | apply keepsStore_tryCatch; [| intros ?]
    | match goal with
      | |- keepsStore (match ?x with _ => _ end) => destruct x
      end ].

Lemma keepsStore_get (key : string) : keepsStore (CacheService.get key).
Proof. unfold CacheService.get, client.get. keeps. Qed.

Lemma keepsStore_set (key : string) (v : CacheVal) : keepsStore (CacheService.set key v).
Proof. unfold CacheService.set, client.set. keeps. Qed.

Lemma keepsStore_findOneByIdempotencyKey (key : string) :
  keepsStore (transactionRepository.findOneByIdempotencyKey key).
Proof. unfold transactionRepository.findOneByIdempotencyKey. keeps. Qed.

#[local] Hint Resolve keepsStore_get keepsStore_set keepsStore_findOneByIdempotencyKey : keeps.

Lemma keepsStore_storeResult (key : string) (r : TransferResponseDto.t) :
  keepsStore (IdempotencyService.storeResult key r).
Proof. unfold IdempotencyService.storeResult. keeps. Qed.

Lemma keepsStore_storeFailure (key : string) (e : Exn) :
  keepsStore (IdempotencyService.storeFailure key e).
Proof. unfold IdempotencyService.storeFailure. keeps. Qed.

Lemma keepsStore_parseResult (v : CacheVal) : keepsStore (IdempotencyService.parseResult v).
Proof. unfold IdempotencyService.parseResult. keeps. Qed.

#[local] Hint Resolve keepsStore_storeResult keepsStore_storeFailure keepsStore_parseResult : keeps.

Lemma keepsStore_handleExistingTransaction (x : Transaction.t) (cacheKey : string) :
  keepsStore (IdempotencyService.handleExistingTransaction x cacheKey).
Proof. unfold IdempotencyService.handleExistingTransaction. keeps. Qed.

Lemma keepsStore_validateRequestUniqueness (request : IdempotencyRequest) (key : string) :
  keepsStore (IdempotencyService.validateRequestUniqueness request key).
Proof. unfold IdempotencyService.validateRequestUniqueness. keeps. Qed.

#[local] Hint Resolve keepsStore_handleExistingTransaction
  keepsStore_validateRequestUniqueness : keeps.

Lemma keepsStore_checkIdempotency (key : string) (request : IdempotencyRequest) :
  keepsStore (IdempotencyService.checkIdempotency key request).
Proof. unfold IdempotencyService.checkIdempotency. keeps. Qed.

Lemma keepsStore_resolveIdempotencyKey (dto : TransferDto.t) :
  keepsStore (TransferService.resolveIdempotencyKey dto).
Proof.
  unfold TransferService.resolveIdempotencyKey, IdempotencyService.generateIdempotencyKey.
  keeps.
Qed.


Lemma io_healthy (w : World) : faults w = [] -> io w = (Ok tt, w).
Proof. intros H. unfold io. rewrite H. reflexivity. Qed.

Lemma findOne_healthy (id : string) (cond : Wallet.t -> bool) (w : World) :
  faults w = [] ->
  walletRepository.findOne id cond w
  = (Ok (match wallets w !! id with
         | Some x => if cond x then Some x else None
         | None => None
         end), w).
Proof.
  intros H. unfold walletRepository.findOne. unfold_monad.
  rewrite (io_healthy w H). reflexivity.
Qed.

(** The idempotency gate let the request through as new: [key] is the key
    it ran under and [w1] the world it left. *)
Definition admittedAsNew (sourceWalletId : string) (user : User.t) (dto : TransferDto.t)
    (w : World) (key : string) (w1 : World) : Prop :=
  exists w0 res,
    TransferService.resolveIdempotencyKey dto w = (Ok key, w0)
    /\ IdempotencyService.checkIdempotency key
         (TransferService.idempotencyRequestOf sourceWalletId user dto key) w0 = (Ok res, w1)
    /\ isNew res = true.

Lemma admittedAsNew_frame src user dto w key w1 :
  admittedAsNew src user dto w key w1 -> frame w w1.
Proof.
  intros (w0 & res & Hk & Hc & _).
  pose proof (keepsStore_resolveIdempotencyKey dto w) as H1.
  pose proof (keepsStore_checkIdempotency key
                (TransferService.idempotencyRequestOf src user dto key) w0) as H2.
  rewrite Hk in H1. rewrite Hc in H2. simpl in *.
  eapply frame_trans; eauto.
Qed.

Lemma transferFunds_admitted src user dto w key w1 :
  admittedAsNew src user dto w key w1 ->
  TransferService.transferFunds src user dto w
  = TransferService.validateAndExecute src user dto key w1.
Proof.
  intros (w0 & res & Hk & Hc & Hnew).
  unfold TransferService.transferFunds, bind.
  rewrite Hk, Hc, Hnew. reflexivity.
Qed.

(** C4, amended.  A request the idempotency gate admits as new, with a
    positive amount, distinct wallets, an active source owned by the caller
    and an active destination of the same currency, whose source balance is
    below the amount: [transferFunds] throws
    [BadRequestException "Insufficient balance"] (HTTP 400) from
    [validateTransferRequest], before [createTransactionRecord] runs.  The
    wallets and the limit ledger are unchanged, and so is the transaction
    table: no row, [FAILED] or other, is written for the request, and no
    failure entry is stored in Redis. *)
Theorem insufficient_balance_rejected_in_validation :
  forall (sourceWalletId : string) (user : User.t) (dto : TransferDto.t)
         (w : World) (key : string) (w1 : World) (s d : Wallet.t),
    faults w = [] ->
    admittedAsNew sourceWalletId user dto w key w1 ->
    0 < TransferDto.amount dto ->
    sourceWalletId <> TransferDto.destinationWalletId dto ->
    wallets w !! sourceWalletId = Some s ->
    Wallet.userId s = User.id user -> Wallet.isActive s = true ->
    wallets w !! TransferDto.destinationWalletId dto = Some d ->
    Wallet.isActive d = true ->
    Wallet.currency s = Wallet.currency d ->
    Wallet.balance s < TransferDto.amount dto ->
    fst (TransferService.transferFunds sourceWalletId user dto w)
      = Throw (BadRequestException "Insufficient balance")
    /\ exn_status (BadRequestException "Insufficient balance") = 400
    /\ wallets (snd (TransferService.transferFunds sourceWalletId user dto w)) = wallets w
    /\ transferLimits (snd (TransferService.transferFunds sourceWalletId user dto w))
       = transferLimits w
    /\ transactions (snd (TransferService.transferFunds sourceWalletId user dto w))
       = transactions w
    /\ redis (snd (TransferService.transferFunds sourceWalletId user dto w)) = redis w1.
Proof.
  intros src user dto w key w1 s d Hf Hadm Hpos Hne Hs Hown Hact Hd Hdact Hcur Hlt.
  rewrite (transferFunds_admitted _ _ _ _ _ _ Hadm).
  destruct (admittedAsNew_frame _ _ _ _ _ _ Hadm)
    as (Hw & Ht & Hl & _ & _ & _ & _ & Hf1).
  specialize (Hf1 Hf).
  assert (Hrun : TransferService.validateAndExecute src user dto key w1
                 = (Throw (BadRequestException "Insufficient balance"), w1)).
  { unfold TransferService.validateAndExecute, TransferService.validateTransferRequest.
    unfold bind at 1.
    destruct (TransferDto.amount dto <=? 0) eqn:E; [apply Z.leb_le in E; lia |].
    rewrite bool_decide_eq_false_2 by exact Hne.
    unfold bind at 1. rewrite (findOne_healthy _ _ _ Hf1), Hw, Hs.
    unfold ownedActive. rewrite bool_decide_eq_true_2 by exact Hown. rewrite Hact. simpl.
    unfold bind at 1. rewrite (findOne_healthy _ _ _ Hf1), Hw, Hd, Hdact.
    rewrite bool_decide_eq_false_2 by (intros Hc; apply Hc; exact Hcur).
    apply Z.ltb_lt in Hlt. rewrite Hlt. reflexivity. }
  rewrite Hrun. simpl. auto 10.
Qed.


Lemma get_spec (key : string) (w : World) :
  redis (snd (CacheService.get key w)) = redis w
  /\ (fst (CacheService.get key w) = Ok (redis w !! key)
      \/ (faults w <> [] /\ exists e, fst (CacheService.get key w) = Throw e)).
Proof.
  unfold CacheService.get, client.get, io. unfold_monad.
  fault_cases w; simpl; split; auto; right; split; eauto; congruence.
Qed.

Lemma get_healthy (key : string) (w : World) :
  faults w = [] -> CacheService.get key w = (Ok (redis w !! key), w).
Proof.
  intros H. unfold CacheService.get, client.get. unfold_monad.
  rewrite (io_healthy w H). reflexivity.
Qed.




(** ** The coordinator on a healthy store *)

Definition healthy (s : Saga) : Prop := faults (world s) = [].

(** A step action that cannot break a healthy store: the fault schedule
    stays empty.  Every computation built from [io] is of this kind. *)
Definition keepsHealthy {A : Type} (m : M A) : Prop :=
  forall w, faults w = [] -> faults (snd (m w)) = [].

Definition stepsKeepHealthy (steps : list SagaStep) : Prop :=
  Forall (fun step => keepsHealthy (execute step) /\ keepsHealthy (compensate step)) steps.

(** [saveTransaction] on a healthy store. *)
Definition persist (s : Saga) : Saga :=
  set_world (transactionRepository.storeObject (entity s) (world s)) s.

Lemma saveTransaction_healthy (s : Saga) :
  healthy s -> saveTransaction s = (Ok tt, persist s).
Proof.
  intros H. unfold saveTransaction, liftW, transactionRepository.saveObject.
  unfold_monad. rewrite (io_healthy _ H). reflexivity.
Qed.

Lemma updateSagaState_healthy (s : Saga) :
  healthy s -> updateSagaState s = (Ok tt, persist (assignSagaState s)).
Proof.
  intros H. unfold updateSagaState. unfold bind, modify.
  apply saveTransaction_healthy. exact H.
Qed.

Lemma updateTransactionStatus_healthy (status : TransactionStatus.t) (s : Saga) :
  healthy s -> updateTransactionStatus status s = (Ok tt, persist (assignStatus status s)).
Proof.
  intros H. unfold updateTransactionStatus. unfold bind, modify.
  apply saveTransaction_healthy. exact H.
Qed.

Lemma updateTransferState_healthy (st : TransferState.t) (s : Saga) :
  healthy s -> updateTransferState st s = (Ok tt, persist (assignTransferState st s)).
Proof.
  intros H. unfold updateTransferState. unfold bind, modify.
  apply saveTransaction_healthy. exact H.
Qed.

(** The row a save leaves in the table is the entity object. *)
Lemma find_replaceRow (row : Transaction.t) (rows : list Transaction.t) :
  find (transactionRepository.hasId (Transaction.id row))
       (transactionRepository.replaceRow row rows) = Some row.
Proof.
  unfold transactionRepository.replaceRow.
  destruct (existsb _ rows) eqn:E.
  - induction rows as [| r rows IH]; simpl in *; [discriminate |].
    destruct (transactionRepository.hasId (Transaction.id row) r) eqn:Er; simpl.
    + unfold transactionRepository.hasId. rewrite bool_decide_eq_true_2; reflexivity.
    + rewrite Er. apply IH. exact E.
  - induction rows as [| r rows IH]; simpl in *.
    + unfold transactionRepository.hasId. rewrite bool_decide_eq_true_2; reflexivity.
    + apply orb_false_iff in E as [E1 E2]. rewrite E1. apply IH. exact E2.
Qed.

Definition storedRow (s : Saga) : option Transaction.t :=
  find (transactionRepository.hasId (Transaction.id (transaction s)))
       (transactions (world s)).

Lemma entity_id (s : Saga) : Transaction.id (entity s) = Transaction.id (transaction s).
Proof. unfold entity. destruct (Transaction.sagaState _); reflexivity. Qed.

Lemma entity_status (s : Saga) :
  Transaction.status (entity s) = Transaction.status (transaction s).
Proof. unfold entity. destruct (Transaction.sagaState _); reflexivity. Qed.

Lemma entity_transferState (s : Saga) :
  Transaction.transferState (entity s) = Transaction.transferState (transaction s).
Proof. unfold entity. destruct (Transaction.sagaState _); reflexivity. Qed.

Lemma storedRow_persist (s : Saga) :
  exists row,
    storedRow (persist s) = Some row
    /\ Transaction.status row = Transaction.status (transaction s)
    /\ Transaction.transferState row = Transaction.transferState (transaction s).
Proof.
  unfold storedRow, persist, transactionRepository.storeObject. simpl.
  rewrite <- (entity_id s).
  exists (Transaction.asStored (entity s)).
  split; [apply (find_replaceRow (Transaction.asStored (entity s))) |].
  simpl. rewrite entity_status, entity_transferState. auto.
Qed.

Definition keepsHealthyS {A : Type} (m : MS A) : Prop :=
  forall s, healthy s -> healthy (snd (m s)).

Lemma khS_ret {A : Type} (a : A) : keepsHealthyS (ret a).
Proof. intros s H. exact H. Qed.

Lemma khS_throw {A : Type} (e : Exn) : keepsHealthyS (@throw Saga A e).
Proof. intros s H. exact H. Qed.

Lemma khS_gets {A : Type} (f : Saga -> A) : keepsHealthyS (gets f).
Proof. intros s H. exact H. Qed.

Lemma khS_bind {A B : Type} (m : MS A) (k : A -> MS B) :
  keepsHealthyS m -> (forall a, keepsHealthyS (k a)) -> keepsHealthyS (bind m k).
Proof.
  intros Hm Hk s H. unfold bind. specialize (Hm s H).
  destruct (m s) as [[a | e] s1]; simpl in *; [apply Hk; exact Hm | exact Hm].
Qed.

Lemma khS_tryCatch {A : Type} (m : MS A) (h : Exn -> MS A) :
  keepsHealthyS m -> (forall e, keepsHealthyS (h e)) -> keepsHealthyS (tryCatch m h).
Proof.
  intros Hm Hh s H. unfold tryCatch. specialize (Hm s H).
  destruct (m s) as [[a | e] s1]; simpl in *; [exact Hm | apply Hh; exact Hm].
Qed.

Lemma khS_modify (f : Saga -> Saga) :
  (forall s, world (f s) = world s) -> keepsHealthyS (modify f).
Proof. intros Hf s H. unfold modify, healthy in *. simpl. rewrite Hf. exact H. Qed.

Lemma khS_liftW {A : Type} (m : M A) : keepsHealthy m -> keepsHealthyS (liftW m).
Proof.
  intros Hm s H. unfold liftW, healthy in *. specialize (Hm (world s) H).
  destruct (m (world s)) as [r w']. exact Hm.
Qed.

Lemma khS_saveTransaction : keepsHealthyS saveTransaction.
Proof. intros s H. rewrite (saveTransaction_healthy s H). exact H. Qed.

Lemma khS_logSaga (l : SagaLog) : keepsHealthyS (logSaga l).
Proof. apply khS_modify. reflexivity. Qed.

Lemma khS_updSagaState (f : SagaState.t -> SagaState.t) : keepsHealthyS (updSagaState f).
Proof. apply khS_modify. reflexivity. Qed.

Lemma khS_updateSagaState : keepsHealthyS updateSagaState.
Proof. intros s H. rewrite (updateSagaState_healthy s H). exact H. Qed.

Lemma khS_updateTransactionStatus (st : TransactionStatus.t) :
  keepsHealthyS (updateTransactionStatus st).
Proof. intros s H. rewrite (updateTransactionStatus_healthy st s H). exact H. Qed.

Lemma khS_updateTransferState (st : TransferState.t) : keepsHealthyS (updateTransferState st).
Proof. intros s H. rewrite (updateTransferState_healthy st s H). exact H. Qed.

Create HintDb khS.
#[local] Hint Resolve khS_ret khS_throw khS_gets khS_saveTransaction khS_logSaga
  khS_updSagaState khS_updateSagaState khS_updateTransactionStatus khS_updateTransferState
  khS_liftW : khS.

Ltac khS :=
  repeat first
    [ solve [eauto with khS]
    | apply khS_bind; [| intros ?]
    | apply khS_tryCatch; [| intros ?]
    | match goal with
      | |- keepsHealthyS (match ?x with _ => _ end) => destruct x
      end ].

Lemma khS_attempt (fuel i : nat) (step : SagaStep) :
  keepsHealthy (execute step) -> keepsHealthyS (attempt fuel i step).
Proof.
  intros Hstep. induction fuel as [| fuel IH]; simpl; khS.
Qed.

Lemma khS_executeSteps (steps : list SagaStep) (i : nat) :
  stepsKeepHealthy steps -> keepsHealthyS (executeSteps i steps).
Proof.
  intros Hsteps. revert i.
  induction Hsteps as [| step steps [Hstep _] _ IH]; intros i; simpl.
  - khS.
  - apply khS_bind; [apply khS_attempt; exact Hstep | intros _; apply IH].
Qed.

Lemma findStep_keepsHealthy (steps : list SagaStep) (stepName : string) (step : SagaStep) :
  stepsKeepHealthy steps -> findStep steps stepName = Some step ->
  keepsHealthy (compensate step).
Proof.
  intros Hsteps Hfind. unfold findStep in Hfind.
  apply find_some in Hfind as [Hin _].
  unfold stepsKeepHealthy in Hsteps. rewrite Forall_forall in Hsteps.
  apply list_elem_of_In in Hin. apply (Hsteps step Hin).
Qed.

Lemma khS_compensateStep (steps : list SagaStep) (stepName : string) :
  stepsKeepHealthy steps -> keepsHealthyS (compensateStep steps stepName).
Proof.
  intros Hsteps. unfold compensateStep.
  destruct (findStep steps stepName) as [step |] eqn:E; khS.
  apply khS_liftW. eapply findStep_keepsHealthy; eauto.
Qed.

Lemma khS_compensateAll (steps : list SagaStep) (names : list string) :
  stepsKeepHealthy steps -> keepsHealthyS (compensateAll steps names).
Proof.
  intros Hsteps. induction names as [| n names IH]; simpl; khS.
  apply khS_compensateStep. exact Hsteps.
Qed.

Lemma khS_completeSaga : keepsHealthyS completeSaga.
Proof. unfold completeSaga. khS. apply khS_modify. reflexivity. Qed.

Lemma bind_ok {S A B : Type} (m : ST S A) (k : A -> ST S B) (s s' : S) (a : A) :
  m s = (Ok a, s') -> bind m k s = k a s'.
Proof. intros H. unfold bind. rewrite H. reflexivity. Qed.

Lemma bind_throw {S A B : Type} (m : ST S A) (k : A -> ST S B) (s s' : S) (e : Exn) :
  m s = (Throw e, s') -> bind m k s = (Throw e, s').
Proof. intros H. unfold bind. rewrite H. reflexivity. Qed.


Lemma tryCatch_throw {S A : Type} (m : ST S A) (h : Exn -> ST S A) (s s' : S) (e : Exn) :
  m s = (Throw e, s') -> tryCatch m h s = h e s'.
Proof. intros H. unfold tryCatch. rewrite H. reflexivity. Qed.

(** The step names the coordinator logged a compensation attempt for. *)
Definition compensationsLogged (log : list SagaLog) : list string :=
  omap (fun l => match l with Compensating n => Some n | _ => None end) log.

Lemma compensationsLogged_app (l1 l2 : list SagaLog) :
  compensationsLogged (l1 ++ l2) = compensationsLogged l1 ++ compensationsLogged l2.
Proof. unfold compensationsLogged. apply omap_app. Qed.

Definition known (steps : list SagaStep) (stepName : string) : bool :=
  bool_decide (is_Some (findStep steps stepName)).

(** One compensation never throws, whatever its action does; it leaves the
    entity object, the completed steps and the retry count alone, and logs
    its attempt. *)
Lemma compensateStep_spec (steps : list SagaStep) (stepName : string) (s : Saga) :
  exists s',
    compensateStep steps stepName s = (Ok tt, s')
    /\ transaction s' = transaction s
    /\ SagaState.completedSteps (sagaState s') = SagaState.completedSteps (sagaState s)
    /\ SagaState.retryCount (sagaState s') = SagaState.retryCount (sagaState s)
    /\ compensationsLogged (sagaLog s')
       = compensationsLogged (sagaLog s) ++ (if known steps stepName then [stepName] else []).
Proof.
  unfold compensateStep, known.
  destruct (findStep steps stepName) as [step |].
  - rewrite bool_decide_eq_true_2 by eauto.
    unfold tryCatch, bind, logSaga, updSagaState, modify, liftW. simpl.
    destruct (compensate step (world s)) as [[[] | e] w']; simpl;
      eexists; (split; [reflexivity |]); simpl;
      rewrite ?compensationsLogged_app; simpl; rewrite ?app_nil_r; auto.
  - rewrite bool_decide_eq_false_2 by (intros [? ?]; discriminate).
    exists s. rewrite app_nil_r. auto.
Qed.

Lemma compensateAll_spec (steps : list SagaStep) (names : list string) (s : Saga) :
  exists s',
    compensateAll steps names s = (Ok tt, s')
    /\ transaction s' = transaction s
    /\ SagaState.completedSteps (sagaState s') = SagaState.completedSteps (sagaState s)
    /\ SagaState.retryCount (sagaState s') = SagaState.retryCount (sagaState s)
    /\ compensationsLogged (sagaLog s')
       = compensationsLogged (sagaLog s) ++ filter (fun n => known steps n = true) names.
Proof.
  revert s. induction names as [| n names IH]; intros s; simpl.
  - exists s. rewrite app_nil_r. auto.
  - destruct (compensateStep_spec steps n s) as (s1 & Hrun & Ht & Hc & Hr & Hl).
    destruct (IH s1) as (s2 & Hrun2 & Ht2 & Hc2 & Hr2 & Hl2).
    exists s2. rewrite (bind_ok _ _ _ _ _ Hrun), Hrun2.
    split; [reflexivity |]. rewrite Ht2, Hc2, Hr2, Hl2, Ht, Hc, Hr, Hl.
    repeat split; auto.
    rewrite <- app_assoc. f_equal.
    rewrite filter_cons. destruct (known steps n); reflexivity.
Qed.

Lemma assignSagaState_status (s : Saga) :
  Transaction.status (transaction (assignSagaState s)) = Transaction.status (transaction s)
  /\ Transaction.transferState (transaction (assignSagaState s))
     = Transaction.transferState (transaction s).
Proof.
  unfold assignSagaState. destruct (SagaState.lastError (sagaState s)); simpl; auto.
Qed.

(** On a healthy store the compensation routine runs to its end: the entity
    and its stored row end [FAILED] and [COMPENSATED], and a compensation was
    attempted for every completed step the step list knows, last completed
    first. *)
Lemma compensateSaga_healthy (steps : list SagaStep) (s : Saga) :
  healthy s -> stepsKeepHealthy steps ->
  exists s',
    compensateSaga steps s = (Ok tt, s')
    /\ healthy s'
    /\ Transaction.status (transaction s') = TransactionStatus.FAILED
    /\ Transaction.transferState (transaction s') = Some TransferState.COMPENSATED
    /\ (exists row, storedRow s' = Some row
                    /\ Transaction.status row = TransactionStatus.FAILED
                    /\ Transaction.transferState row = Some TransferState.COMPENSATED)
    /\ compensationsLogged (sagaLog s')
       = compensationsLogged (sagaLog s)
         ++ filter (fun n => known steps n = true) (rev (SagaState.completedSteps (sagaState s))).
Proof.
  intros H Hsteps. unfold compensateSaga.
  rewrite (bind_ok _ _ _ _ _ (updateTransactionStatus_healthy _ s H)).
  set (s1 := persist (assignStatus TransactionStatus.FAILED s)).
  assert (H1 : healthy s1) by exact H.
  rewrite (bind_ok _ _ _ _ _ (updateTransferState_healthy _ s1 H1)).
  set (s2 := persist (assignTransferState TransferState.COMPENSATION_PENDING s1)).
  unfold bind at 1, updSagaState, modify. unfold bind at 1, gets.
  set (s3 := set_sagaState _ s2).
  assert (H3 : healthy s3) by exact H.
  destruct (compensateAll_spec steps (SagaState.completedSteps (sagaState s3)) s3)
    as (s4 & Hrun & Ht & Hc & Hr & Hl).
  pose proof (khS_compensateAll steps (SagaState.completedSteps (sagaState s3)) Hsteps s3 H3)
    as H4.
  rewrite Hrun in H4. simpl in H4.
  rewrite (bind_ok _ _ _ _ _ Hrun).
  rewrite (bind_ok _ _ _ _ _ (updateTransferState_healthy _ s4 H4)).
  set (s5 := persist (assignTransferState TransferState.COMPENSATED s4)).
  assert (H5 : healthy s5) by exact H4.
  rewrite (updateSagaState_healthy s5 H5).
  eexists. split; [reflexivity |].
  split; [exact H5 |].
  assert (Hst : Transaction.status (transaction (assignSagaState s5)) = TransactionStatus.FAILED
                /\ Transaction.transferState (transaction (assignSagaState s5))
                   = Some TransferState.COMPENSATED).
  { destruct (assignSagaState_status s5) as [-> ->]. subst s5. simpl. rewrite Ht.
    subst s3 s2 s1. simpl. split; reflexivity. }
  destruct Hst as [Hst1 Hst2].
  split; [exact Hst1 |]. split; [exact Hst2 |]. split.
  - destruct (storedRow_persist (assignSagaState s5)) as (row & Hrow & Hs & Hts).
    exists row. rewrite Hs, Hts. auto.
  - change (sagaLog (persist (assignSagaState s5))) with (sagaLog s4).
    rewrite Hl. reflexivity.
Qed.

(** ** C6: how a failed saga ends *)

(** C6, amended.  For any list of steps (whose actions leave an available
    store available), on an available store: when the saga fails, the
    transaction entity and its stored row end with status [FAILED] and
    sub-state [COMPENSATED], whether or not any step had completed or any
    compensation ran; there is no [FAILED]-without-[COMPENSATED] outcome. *)
Theorem failed_saga_ends_failed_and_compensated :
  forall (steps : list SagaStep) (x : Transaction.t) (w : World) (e : Exn),
    faults w = [] ->
    stepsKeepHealthy steps ->
    fst (runSaga steps (startSaga x w)) = Throw e ->
    Transaction.status (transaction (snd (runSaga steps (startSaga x w))))
      = TransactionStatus.FAILED
    /\ Transaction.transferState (transaction (snd (runSaga steps (startSaga x w))))
       = Some TransferState.COMPENSATED
    /\ exists row,
         storedRow (snd (runSaga steps (startSaga x w))) = Some row
         /\ Transaction.status row = TransactionStatus.FAILED
         /\ Transaction.transferState row = Some TransferState.COMPENSATED.
Proof.
  intros steps x w e Hw Hsteps.
  unfold runSaga, tryCatch.
  set (body := bind updateSagaState _).
  assert (Hbody : keepsHealthyS body).
  { subst body. apply khS_bind; [apply khS_updateSagaState | intros _].
    apply khS_bind; [apply khS_executeSteps; exact Hsteps | intros _].
    apply khS_completeSaga. }
  specialize (Hbody (startSaga x w) Hw).
  destruct (body (startSaga x w)) as [[[] | e1] s1]; simpl in *; [discriminate |].
  destruct (compensateSaga_healthy steps s1 Hbody Hsteps)
    as (s2 & Hrun & _ & Hst & Hts & Hrow & _).
  rewrite (bind_ok _ _ _ _ _ Hrun). simpl. intros _. auto.
Qed.

(** ** One pass of the loop whose step succeeds *)

Definition afterStep (i : nat) (step : SagaStep) (w' : World) (s : Saga) : Saga :=
  let s0 := set_sagaLog (sagaLog s ++ [Executing i (name step)])
              (set_sagaState (SagaState.set_currentStep i (sagaState s)) s) in
  let s1 := set_world w' s0 in
  let s2 := set_sagaState
              (SagaState.set_completedSteps
                 (SagaState.completedSteps (sagaState s1) ++ [name step]) (sagaState s1)) s1 in
  persist (assignTransferState (getTransferStateForStep i) (persist (assignSagaState s2))).

Lemma attempt_success (fuel i : nat) (step : SagaStep) (s : Saga) (w' : World) :
  execute step (world s) = (Ok tt, w') ->
  faults w' = [] ->
  attempt fuel i step s = (Ok tt, afterStep i step w' s).
Proof.
  intros Hexec Hw'.
  assert (Hbody : forall s0, world s0 = world s ->
            bind (liftW (execute step))
              (fun _ => bind (updSagaState (fun st =>
                 SagaState.set_completedSteps (SagaState.completedSteps st ++ [name step]) st))
                 (fun _ => bind updateSagaState
                    (fun _ => updateTransferState (getTransferStateForStep i)))) s0
            = (Ok tt,
               let s1 := set_world w' s0 in
               let s2 := set_sagaState
                 (SagaState.set_completedSteps
                    (SagaState.completedSteps (sagaState s1) ++ [name step]) (sagaState s1)) s1 in
               persist (assignTransferState (getTransferStateForStep i)
                          (persist (assignSagaState s2))))).
  { intros s0 Hs0. unfold bind at 1, liftW. rewrite Hs0, Hexec.
    unfold bind at 1, updSagaState, modify.
    match goal with
    | |- bind updateSagaState _ ?s1 = _ =>
        rewrite (bind_ok _ _ _ _ _ (updateSagaState_healthy s1 Hw'))
    end.
    apply updateTransferState_healthy. exact Hw'. }
  destruct fuel; simpl;
    unfold bind at 1, updSagaState at 1, modify; unfold bind at 1, logSaga, modify;
    unfold tryCatch; rewrite Hbody by reflexivity; reflexivity.
Qed.


(** ** Numbers and the text of a decimal column *)

Example pgDecimal_samples :
  map Js.pgDecimal [8000; 5; 0; 100000; -120] = ["80.00"; "0.05"; "0.00"; "1000.00"; "-1.20"].
Proof. vm_compute. reflexivity. Qed.

(** ["80.00" + 25] is ["80.0025"], which is above ["100000.00"] as a string:
    the first characters are compared. *)
Example add_concatenates :
  Js.add (Js.Text "80.00") (Js.Number 2500) = Js.Text "80.0025"
  /\ Js.gt (Js.Text "80.0025") (Js.Text "100000.00") = true
  /\ Js.gt (Js.Number 10500) (Js.Text "100000.00") = false.
Proof. vm_compute. auto. Qed.

(** What a [decimal(15,2)] column makes of such texts. *)
Example column_samples :
  map Js.column [Js.Text "80.00150"; Js.Text "80.00500"; Js.Text "80.00150.5"; Js.Number 2500]
  = [Some 8000; Some 8001; None; Some 2500].
Proof. vm_compute. reflexivity. Qed.

Lemma digit_char (d : N) : (d < 10)%N -> Js.digit (pretty_N_char d) = Some (Z.of_N d).
Proof.
  intros H.
  assert (d = 0 \/ d = 1 \/ d = 2 \/ d = 3 \/ d = 4 \/ d = 5 \/ d = 6 \/ d = 7 \/ d = 8
          \/ d = 9)%N as Hc by lia.
  repeat (destruct Hc as [-> | Hc]; [vm_compute; reflexivity |]).
  subst d. vm_compute. reflexivity.
Qed.

(** Reading back the digits [pretty] printed. *)
Lemma digits_pretty_N_go (x : N) :
  forall (s : string) (acc : Z) (n : nat),
  exists k : nat,
    Js.digits (pretty_N_go x s) acc n = Js.digits s (acc * 10 ^ Z.of_nat k + Z.of_N x) (n + k)
    /\ ((0 < x)%N -> (0 < k)%nat).
Proof.
  induction (N.lt_wf_0 x) as [x _ IH]. intros s acc n.
  destruct (N.eq_dec x 0%N) as [-> | Hx].
  - exists 0%nat. rewrite pretty_N_go_0. simpl. rewrite Z.mul_1_r, Z.add_0_r, Nat.add_0_r.
    split; [reflexivity | lia].
  - rewrite pretty_N_go_step by lia.
    destruct (IH (x `div` 10)%N ltac:(apply N.div_lt; lia)
                (String (pretty_N_char (x `mod` 10)) s) acc n) as (k & Hk & _).
    exists (S k). rewrite Hk. simpl Js.digits.
    rewrite digit_char by (apply N.mod_lt; lia).
    split; [| lia].
    replace (10 * (acc * 10 ^ Z.of_nat k + Z.of_N (x `div` 10)) + Z.of_N (x `mod` 10))
      with (acc * 10 ^ Z.of_nat (S k) + Z.of_N x).
    { f_equal. lia. }
    rewrite Nat2Z.inj_succ, Z.pow_succ_r by lia.
    rewrite N2Z.inj_div, N2Z.inj_mod. change (Z.of_N 10) with 10.
    pose proof (Z.div_mod (Z.of_N x) 10 ltac:(lia)). lia.
Qed.

Lemma pretty_N_go_app (x : N) :
  forall s1 s2 : string, pretty_N_go x s1 +:+ s2 = pretty_N_go x (s1 +:+ s2).
Proof.
  induction (N.lt_wf_0 x) as [x _ IH]. intros s1 s2.
  destruct (N.eq_dec x 0%N) as [-> | Hx].
  - rewrite !pretty_N_go_0. reflexivity.
  - rewrite (pretty_N_go_step x s1), (pretty_N_go_step x (s1 +:+ s2)) by lia.
    rewrite IH by (apply N.div_lt; lia). reflexivity.
Qed.

Lemma pretty_N_go_head (x : N) :
  forall s : string,
    (0 < x)%N ->
    exists c t, pretty_N_go x s = String c t /\ Js.digit c <> None.
Proof.
  induction (N.lt_wf_0 x) as [x _ IH]. intros s Hx.
  rewrite pretty_N_go_step by lia.
  destruct (N.eq_dec (x `div` 10)%N 0%N) as [E | E].
  - rewrite E, pretty_N_go_0. eexists _, _. split; [reflexivity |].
    rewrite digit_char by (apply N.mod_lt; lia). discriminate.
  - apply IH; [apply N.div_lt; lia | apply N.neq_0_lt_0; exact E].
Qed.

Lemma pretty_nonneg (q : Z) (s : string) :
  0 <= q ->
  (exists k : nat, Js.digits (pretty q +:+ s) 0 0 = Js.digits s q k /\ (0 < k)%nat)
  /\ exists c t, pretty q +:+ s = String c t /\ Js.digit c <> None.
Proof.
  intros Hq. destruct q as [| p | p]; [| | lia].
  - split; [exists 1%nat; split; [reflexivity | lia] |].
    eexists _, _. split; [reflexivity | discriminate].
  - unfold pretty, pretty_Z, pretty, pretty_positive, pretty, pretty_N.
    rewrite decide_False by discriminate.
    rewrite pretty_N_go_app. change ("" +:+ s) with s. split.
    + destruct (digits_pretty_N_go (N.pos p) s 0 0) as (k & Hk & Hpos).
      exists k. rewrite Hk. simpl. split; [reflexivity | apply Hpos; lia].
    + apply pretty_N_go_head. lia.
Qed.

Lemma digit_not_sign (c : ascii) :
  Js.digit c <> None -> Ascii.eqb c "-" = false /\ Ascii.eqb c "+" = false.
Proof.
  destruct c as [[] [] [] [] [] [] [] []]; vm_compute; intros H; auto; contradiction.
Qed.

(** The two decimals of a column text. *)
Definition fraction (r : Z) : string := (if r <? 10 then "0" else "") +:+ pretty r.

Lemma fraction_chars (r : Z) :
  0 <= r < 100 ->
  fraction r = String (pretty_N_char (Z.to_N (r / 10)))
                 (String (pretty_N_char (Z.to_N (r mod 10))) "").
Proof.
  intros Hr.
  assert (Hall : Forall (fun r => fraction r
                   = String (pretty_N_char (Z.to_N (r / 10)))
                       (String (pretty_N_char (Z.to_N (r mod 10))) "")) (seqZ 0 100)).
  { let l := eval vm_compute in (seqZ 0 100) in change (seqZ 0 100) with l.
    repeat (constructor; [vm_compute; reflexivity |]). constructor. }
  rewrite Forall_forall in Hall. apply Hall. apply elem_of_seqZ. lia.
Qed.

Lemma fraction_digits (r : Z) (acc : Z) :
  0 <= r < 100 -> Js.digits (fraction r) acc 0 = (100 * acc + r, 2%nat, "").
Proof.
  intros Hr. rewrite (fraction_chars r Hr). simpl Js.digits.
  assert (H1 : 0 <= r / 10 < 10) by (split; [apply Z.div_pos | apply Z.div_lt_upper_bound]; lia).
  assert (H2 : 0 <= r mod 10 < 10) by (apply Z.mod_pos_bound; lia).
  rewrite !digit_char by lia. rewrite !Z2N.id by lia.
  pose proof (Z.div_mod r 10 ltac:(lia)). f_equal. f_equal. lia.
Qed.

(** A column text reads back as the number of cents it was printed from. *)
Lemma readLiteral_pgDecimal (z : Z) :
  0 <= z ->
  Js.readLiteral (Js.pgDecimal z)
  = Some {| Js.negative := false; Js.mantissa := z; Js.scale := 2; Js.rest := "" |}.
Proof.
  intros Hz. unfold Js.pgDecimal.
  rewrite Z.abs_eq by lia.
  destruct (z <? 0) eqn:E; [apply Z.ltb_lt in E; lia |].
  change ("" +:+ ?x) with x.
  assert (Hq : 0 <= z / 100) by (apply Z.div_pos; lia).
  assert (Hr : 0 <= z mod 100 < 100) by (apply Z.mod_pos_bound; lia).
  fold (fraction (z mod 100)).
  destruct (pretty_nonneg (z / 100) ("." +:+ fraction (z mod 100)) Hq)
    as [(k & Hk & Hpos) (c & t & Hc & Hd)].
  unfold Js.readLiteral. rewrite Hc.
  destruct (digit_not_sign c Hd) as [-> ->].
  rewrite <- Hc, Hk.
  change ("." +:+ ?x) with (String "." x).
  simpl Js.digits at 1. cbv beta iota zeta.
  rewrite (fraction_digits _ _ Hr).
  destruct (k + 2 =? 0)%nat eqn:Ek; [apply Nat.eqb_eq in Ek; lia |].
  f_equal. f_equal. pose proof (Z.div_mod z 100 ltac:(lia)). lia.
Qed.

Lemma toNumber_pgDecimal (z : Z) :
  0 <= z -> exists q, Js.toNumber (Js.pgDecimal z) = Some q /\ Qeq q (inject_Z z).
Proof.
  intros Hz. unfold Js.toNumber.
  pose proof (readLiteral_pgDecimal z Hz) as Hl.
  destruct (bool_decide (Js.pgDecimal z = "")) eqn:E.
  - apply bool_decide_eq_true_1 in E. rewrite E in Hl. discriminate.
  - rewrite Hl. simpl. eexists. split; [reflexivity |].
    unfold Js.literalValue. rewrite Qred_correct. unfold Js.signed. simpl.
    unfold Qeq; simpl. lia.
Qed.

(** A number is above a column text when it is above the number the text
    denotes. *)
Lemma gt_number_column (a limit : Z) :
  0 <= limit -> Js.gt (Js.Number a) (Js.Text (Js.pgDecimal limit)) = (limit <? a).
Proof.
  intros Hl. destruct (toNumber_pgDecimal limit Hl) as (q & Hq & Heq).
  unfold Js.gt, Js.numeric. rewrite Hq.
  destruct (limit <? a) eqn:E.
  - apply Z.ltb_lt in E. apply negb_true_iff.
    destruct (Qle_bool (inject_Z a) q) eqn:Eq; [| reflexivity].
    apply Qle_bool_iff in Eq. rewrite Heq in Eq. rewrite <- Zle_Qle in Eq. lia.
  - apply Z.ltb_ge in E. apply negb_false_iff. apply Qle_bool_iff.
    rewrite Heq. rewrite <- Zle_Qle. exact E.
Qed.



Lemma Qred_inject_Z (z : Z) : Qred (inject_Z z) = inject_Z z.
Proof.
  unfold Qred, inject_Z.
  pose proof (Z.ggcd_gcd z 1) as Hg. pose proof (Z.ggcd_correct_divisors z 1) as Hd.
  destruct (Z.ggcd z 1) as [g [n d]]. simpl in Hg, Hd.
  rewrite Z.gcd_1_r in Hg. subst g. destruct Hd as [Hn Hd].
  replace n with z by lia. replace d with 1 by lia. reflexivity.
Qed.

(** [parseFloat] of a column text is the number of cents it was printed
    from. *)
Lemma parseFloat_pgDecimal (z : Z) :
  0 <= z -> Js.parseFloat (Js.pgDecimal z) = Some (inject_Z z).
Proof.
  intros Hz. unfold Js.parseFloat. rewrite (readLiteral_pgDecimal z Hz). simpl.
  f_equal. unfold Js.literalValue, Js.signed. simpl.
  rewrite <- (Qred_inject_Z z). apply Qred_complete.
  unfold Qeq, inject_Z. simpl. lia.
Qed.


(** ** C5: the limit check saves the window reset only when it passes *)

(** The ledger row after the window resets of [validateTransferLimits]. *)
Definition resetWindows (today currentMonth : Z) (l : TransferLimit.t) : TransferLimit.t :=
  let l1 := if TransferLimit.lastDailyReset l <? today
            then TransferLimit.set_lastDailyReset today (TransferLimit.set_dailyUsed 0 l)
            else l in
  if TransferLimit.lastMonthlyReset l1 <? currentMonth
  then TransferLimit.set_lastMonthlyReset currentMonth (TransferLimit.set_monthlyUsed 0 l1)
  else l1.

(** C5 as the specification states it: with an expired daily window, the row
    stored after the check has the counter zeroed and the reset date set,
    whatever the outcome of the check. *)
Definition C5_as_stated : Prop :=
  forall (userId : string) (amount : Z) (w : World) (l : TransferLimit.t),
    faults w = [] ->
    transferLimits w !! userId = Some l ->
    TransferLimit.userId l = userId ->
    TransferLimit.lastDailyReset l < today w ->
    exists l',
      transferLimits (snd (TransferService.validateTransferLimits userId amount w)) !! userId
        = Some l'
      /\ TransferLimit.dailyUsed l' = 0
      /\ TransferLimit.lastDailyReset l' = today w.

(** A ledger of 100.00 a day with 80.00 used, last reset before today; the
    check of a 150.00 transfer fails after the in-memory reset, and the row
    still says 80.00 used. *)
Lemma C5_counterexample : ~ C5_as_stated.
Proof.
  intros H.
  destruct (H "u1" 15000
              (Scenario.withLedger (Scenario.ledger 10000 8000 0) (Scenario.world 100000 0 []))
              (Scenario.ledger 10000 8000 0) eq_refl eq_refl eq_refl ltac:(simpl; lia))
    as (l' & Hl' & Hused & _).
  vm_compute in Hl'. injection Hl' as <-. vm_compute in Hused. discriminate.
Qed.

Lemma resetWindows_daily (today currentMonth : Z) (l : TransferLimit.t) :
  TransferLimit.lastDailyReset l < today ->
  TransferLimit.dailyUsed (resetWindows today currentMonth l) = 0
  /\ TransferLimit.lastDailyReset (resetWindows today currentMonth l) = today.
Proof.
  intros H. apply Z.ltb_lt in H. unfold resetWindows. rewrite H. simpl.
  destruct (_ <? currentMonth); simpl; auto.
Qed.

Lemma resetWindows_monthly (today currentMonth : Z) (l : TransferLimit.t) :
  TransferLimit.lastMonthlyReset l < currentMonth ->
  TransferLimit.monthlyUsed (resetWindows today currentMonth l) = 0
  /\ TransferLimit.lastMonthlyReset (resetWindows today currentMonth l) = currentMonth.
Proof.
  intros H. apply Z.ltb_lt in H. unfold resetWindows.
  destruct (TransferLimit.lastDailyReset l <? today); simpl; rewrite H; simpl; auto.
Qed.

(** The two outcomes of the check on a healthy store. *)
Definition resetSaved (userId : string) (l' : TransferLimit.t) (w : World)
    (out : Res unit * World) : Prop :=
  fst out = Ok tt /\ transferLimits (snd out) = <[userId := l']> (transferLimits w).

Definition rejectedUnsaved (w : World) (out : Res unit * World) : Prop :=
  (exists msg, fst out = Throw (BadRequestException msg))
  /\ transferLimits (snd out) = transferLimits w.

(** The check on a healthy store, with the two comparisons of the code. *)
Lemma validateTransferLimits_healthy (userId : string) (amount : Z) (w : World)
    (l : TransferLimit.t) :
  faults w = [] ->
  transferLimits w !! userId = Some l ->
  TransferLimit.userId l = userId ->
  let resetDaily := TransferLimit.lastDailyReset l <? today w in
  let resetMonthly := TransferLimit.lastMonthlyReset l <? currentMonth w in
  let dailyUsed := TransferService.usedValue resetDaily (TransferLimit.dailyUsed l) in
  let monthlyUsed := TransferService.usedValue resetMonthly (TransferLimit.monthlyUsed l) in
  let dailyLimit := TransferService.limitValue (TransferLimit.dailyLimit l) in
  let monthlyLimit := TransferService.limitValue (TransferLimit.monthlyLimit l) in
  TransferService.validateTransferLimits userId amount w
  = if Js.gt (Js.add dailyUsed (Js.Number amount)) dailyLimit
    then (Throw (TransferService.limitExceeded "Daily" dailyUsed dailyLimit), w)
    else if Js.gt (Js.add monthlyUsed (Js.Number amount)) monthlyLimit
    then (Throw (TransferService.limitExceeded "Monthly" monthlyUsed monthlyLimit), w)
    else (Ok tt,
          set_transferLimits
            (<[userId := resetWindows (today w) (currentMonth w) l]> (transferLimits w)) w).
Proof.
  intros Hf Hl Hu. cbv zeta.
  unfold TransferService.validateTransferLimits, transferLimitRepository.findOne,
    transferLimitRepository.save, resetWindows.
  unfold_monad. rewrite (io_healthy w Hf). simpl. rewrite Hl. simpl.
  destruct (Js.gt _ _); [reflexivity |].
  destruct (Js.gt _ _); [reflexivity |].
  rewrite (io_healthy w Hf). simpl.
  destruct (TransferLimit.lastDailyReset l <? today w);
    destruct (_ <? currentMonth w) eqn:E; simpl in *; rewrite ?E; simpl; rewrite ?Hu;
    reflexivity.
Qed.


(** ** The steps of a transfer never break a healthy store *)

Lemma kh_ret {A : Type} (a : A) : keepsHealthy (ret a).
Proof. intros w H. exact H. Qed.

Lemma kh_throw {A : Type} (e : Exn) : keepsHealthy (@throw World A e).
Proof. intros w H. exact H. Qed.

Lemma kh_gets {A : Type} (f : World -> A) : keepsHealthy (gets f).
Proof. intros w H. exact H. Qed.

Lemma kh_bind {A B : Type} (m : M A) (k : A -> M B) :
  keepsHealthy m -> (forall a, keepsHealthy (k a)) -> keepsHealthy (bind m k).
Proof.
  intros Hm Hk w H. unfold bind. specialize (Hm w H).
  destruct (m w) as [[a | e] w1]; simpl in *; [apply Hk; exact Hm | exact Hm].
Qed.

Lemma kh_tryCatch {A : Type} (m : M A) (h : Exn -> M A) :
  keepsHealthy m -> (forall e, keepsHealthy (h e)) -> keepsHealthy (tryCatch m h).
Proof.
  intros Hm Hh w H. unfold tryCatch. specialize (Hm w H).
  destruct (m w) as [[a | e] w1]; simpl in *; [exact Hm | apply Hh; exact Hm].
Qed.

Lemma kh_tryFinally {A : Type} (m : M A) (fin : M unit) :
  keepsHealthy m -> keepsHealthy fin -> keepsHealthy (tryFinally m fin).
Proof.
  intros Hm Hfin w H. unfold tryFinally. specialize (Hm w H).
  destruct (m w) as [r w1]; simpl in *. specialize (Hfin w1 Hm).
  destruct (fin w1) as [[u | e] w2]; exact Hfin.
Qed.

Lemma kh_promiseAll2 {A B : Type} (m1 : M A) (m2 : M B) :
  keepsHealthy m1 -> keepsHealthy m2 -> keepsHealthy (promiseAll2 m1 m2).
Proof.
  intros H1 H2 w H. unfold promiseAll2. specialize (H1 w H).
  destruct (m1 w) as [r1 w1]; simpl in *. specialize (H2 w1 H1).
  destruct (m2 w1) as [r2 w2]; simpl in *. destruct r1, r2; exact H2.
Qed.

Lemma kh_modify (f : World -> World) :
  (forall w, faults (f w) = faults w) -> keepsHealthy (modify f).
Proof. intros Hf w H. unfold modify. simpl. rewrite Hf. exact H. Qed.

Lemma kh_io : keepsHealthy io.
Proof. intros w H. rewrite (io_healthy w H). exact H. Qed.

Lemma kh_fresh : keepsHealthy fresh.
Proof. intros w H. unfold fresh. destruct (entropy w); exact H. Qed.

Lemma kh_emit (e : Event) : keepsHealthy (emit e).
Proof. apply kh_modify. reflexivity. Qed.

Create HintDb kh.
#[local] Hint Resolve kh_ret kh_throw kh_gets kh_io kh_fresh kh_emit : kh.

Ltac kh :=
  repeat first
    [ solve [eauto with kh]
    | apply kh_bind; [| intros ?]
    | apply kh_tryCatch; [| intros ?]
    | apply kh_tryFinally
    | apply kh_promiseAll2
    | apply kh_modify; reflexivity
    | match goal with
      | |- keepsHealthy (match ?x with _ => _ end) => destruct x
      end ].

Lemma kh_findOne (id : string) (cond : Wallet.t -> bool) :
  keepsHealthy (walletRepository.findOne id cond).
Proof. unfold walletRepository.findOne. kh. Qed.

Lemma kh_updateBalanceBy (id : string) (delta : Z) :
  keepsHealthy (walletRepository.updateBalanceBy id delta).
Proof. unfold walletRepository.updateBalanceBy. kh. Qed.

Lemma kh_findOneById (id : string) : keepsHealthy (transactionRepository.findOneById id).
Proof. unfold transactionRepository.findOneById. kh. Qed.

Lemma kh_save (x : Transaction.t) : keepsHealthy (transactionRepository.save x).
Proof. unfold transactionRepository.save. kh. Qed.

Lemma kh_cache_get (key : string) : keepsHealthy (CacheService.get key).
Proof. unfold CacheService.get, client.get. kh. Qed.

Lemma kh_cache_set (key : string) (v : CacheVal) : keepsHealthy (CacheService.set key v).
Proof. unfold CacheService.set, client.set. kh. Qed.

#[local] Hint Resolve kh_findOne kh_updateBalanceBy kh_findOneById kh_save kh_cache_get
  kh_cache_set : kh.

Lemma kh_refreshCache (walletId : string) (balance : Js.value) :
  keepsHealthy (refreshCache walletId balance).
Proof.
  unfold refreshCache, CacheService.getWalletBalanceWithVersion,
    CacheService.setWalletBalanceWithVersion. kh.
Qed.

#[local] Hint Resolve kh_refreshCache : kh.

Lemma kh_validateTransfer (context : SagaContext) : keepsHealthy (validateTransfer context).
Proof. unfold validateTransfer. kh. Qed.

Lemma kh_reserveFunds (context : SagaContext) : keepsHealthy (reserveFunds context).
Proof. unfold reserveFunds. kh. Qed.

Lemma kh_releaseReservedFunds (context : SagaContext) :
  keepsHealthy (releaseReservedFunds context).
Proof. unfold releaseReservedFunds. kh. Qed.

Lemma kh_debitSourceWallet (context : SagaContext) :
  keepsHealthy (debitSourceWallet context).
Proof. unfold debitSourceWallet, setSourceBalanceBefore. kh. Qed.

Lemma kh_creditSourceWallet (context : SagaContext) :
  keepsHealthy (creditSourceWallet context).
Proof. unfold creditSourceWallet. kh. Qed.

Lemma kh_creditDestinationWallet (context : SagaContext) :
  keepsHealthy (creditDestinationWallet context).
Proof. unfold creditDestinationWallet, setDestinationBalanceBefore. kh. Qed.

Lemma kh_debitDestinationWallet (context : SagaContext) :
  keepsHealthy (debitDestinationWallet context).
Proof. unfold debitDestinationWallet. kh. Qed.

Lemma kh_finalizeTransfer (context : SagaContext) : keepsHealthy (finalizeTransfer context).
Proof. unfold finalizeTransfer. kh. Qed.

Lemma transferSteps_keepHealthy (context : SagaContext) :
  stepsKeepHealthy (createTransferSagaSteps context).
Proof.
  unfold stepsKeepHealthy, createTransferSagaSteps.
  repeat (apply Forall_cons; split; [split; simpl |]); try apply Forall_nil;
    auto using kh_ret, kh_validateTransfer, kh_reserveFunds, kh_releaseReservedFunds,
      kh_debitSourceWallet, kh_creditSourceWallet, kh_creditDestinationWallet,
      kh_debitDestinationWallet, kh_finalizeTransfer.
Qed.


(** ** C4: an insufficient balance is rejected before any row is written *)

(** C4 as the specification states it: the rejected request leaves a
    [FAILED] row with [retryCount = 0] and error code [insufficient_balance]. *)
Definition C4_as_stated : Prop :=
  forall (sourceWalletId : string) (user : User.t) (dto : TransferDto.t)
         (w : World) (key : string) (w1 : World) (s d : Wallet.t),
    faults w = [] ->
    admittedAsNew sourceWalletId user dto w key w1 ->
    0 < TransferDto.amount dto ->
    sourceWalletId <> TransferDto.destinationWalletId dto ->
    wallets w !! sourceWalletId = Some s ->
    Wallet.userId s = User.id user -> Wallet.isActive s = true ->
    wallets w !! TransferDto.destinationWalletId dto = Some d ->
    Wallet.isActive d = true ->
    Wallet.currency s = Wallet.currency d ->
    Wallet.balance s < TransferDto.amount dto ->
    let out := TransferService.transferFunds sourceWalletId user dto w in
    fst out = Throw (BadRequestException "Insufficient balance")
    /\ wallets (snd out) = wallets w
    /\ transferLimits (snd out) = transferLimits w
    /\ exists row,
         row ∈ transactions (snd out)
         /\ Transaction.idempotencyKey row = Some key
         /\ Transaction.status row = TransactionStatus.FAILED
         /\ Transaction.retryCount row = 0%nat
         /\ (Transaction.errorDetails row ≫= ed_errorCode) = Some "insufficient_balance".

Lemma S2_admitted :
  admittedAsNew "w1" Scenario.alice (Scenario.request 15000 None) (Scenario.world 5000 0 [])
    "auto_tx-1" (set_entropy ["tx-2"; "tx-3"; "tx-4"] (Scenario.world 5000 0 [])).
Proof.
  exists (set_entropy ["tx-2"; "tx-3"; "tx-4"] (Scenario.world 5000 0 [])),
         IdempotencyService.newRequest.
  split; [reflexivity |]. split; [vm_compute; reflexivity | reflexivity].
Qed.

(** S2: source 50.00, transfer of 150.00.  The call is rejected and the
    transaction table stays empty. *)
Lemma C4_counterexample : ~ C4_as_stated.
Proof.
  intros H.
  destruct (H "w1" Scenario.alice (Scenario.request 15000 None) (Scenario.world 5000 0 [])
              "auto_tx-1" _ (Scenario.sourceWallet 5000) (Scenario.destinationWallet 0)
              eq_refl S2_admitted ltac:(simpl; lia) ltac:(discriminate)
              eq_refl eq_refl eq_refl eq_refl eq_refl eq_refl ltac:(simpl; lia))
    as (_ & _ & _ & row & Hin & _).
  vm_compute in Hin. inversion Hin.
Qed.

Lemma insufficient_balance_rejected_in_validation_witness :
  let w := Scenario.world 5000 0 [] in
  let out := TransferService.transferFunds "w1" Scenario.alice (Scenario.request 15000 None) w in
  fst out = Throw (BadRequestException "Insufficient balance")
  /\ exn_status (BadRequestException "Insufficient balance") = 400
  /\ wallets (snd out) = wallets w
  /\ transferLimits (snd out) = transferLimits w
  /\ transactions (snd out) = transactions w
  /\ redis (snd out) = redis (set_entropy ["tx-2"; "tx-3"; "tx-4"] w).
Proof.
  intros w out.
  apply (insufficient_balance_rejected_in_validation
           "w1" Scenario.alice (Scenario.request 15000 None) w "auto_tx-1"
           (set_entropy ["tx-2"; "tx-3"; "tx-4"] w)
           (Scenario.sourceWallet 5000) (Scenario.destinationWallet 0)).
  - reflexivity.
  - exact S2_admitted.
  - simpl; lia.
  - discriminate.
  - reflexivity.
  - reflexivity.
  - reflexivity.
  - reflexivity.
  - reflexivity.
  - reflexivity.
  - simpl; lia.
Defined.

(** ** C6: a failed saga always ends [COMPENSATED] *)

(** C6 as the specification states it, for the steps of a transfer on a
    healthy store. *)
Definition C6_as_stated : Prop :=
  forall (context : SagaContext) (x : Transaction.t) (w : World) (e : Exn),
    faults w = [] ->
    let out := runSaga (createTransferSagaSteps context) (startSaga x w) in
    fst out = Throw e ->
    Transaction.status (transaction (snd out)) = TransactionStatus.FAILED
    /\ (SagaState.compensatedSteps (sagaState (snd out)) <> [] ->
        Transaction.transferState (transaction (snd out)) = Some TransferState.COMPENSATED)
    /\ (SagaState.completedSteps (sagaState (snd out)) = [] ->
        Transaction.transferState (transaction (snd out)) <> Some TransferState.COMPENSATED).

(** The source wallet [w0] does not exist: [validate_transfer] fails on each
    of its four attempts, no step completes, no compensation runs, and the
    sub-state still ends [COMPENSATED]. *)
Lemma S_validation_fails :
  let out := runSaga (createTransferSagaSteps (Scenario.contextFrom "w0" 15000))
               (startSaga (Scenario.pendingTransfer 15000)
                  (Scenario.worldWithTransfer 100000 0 15000 [])) in
  fst out = Throw (Error "Source wallet not found or inactive")
  /\ SagaState.completedSteps (sagaState (snd out)) = []
  /\ SagaState.compensatedSteps (sagaState (snd out)) = []
  /\ Transaction.status (transaction (snd out)) = TransactionStatus.FAILED
  /\ Transaction.transferState (transaction (snd out)) = Some TransferState.COMPENSATED.
Proof. vm_compute. auto 10. Qed.

Lemma C6_counterexample : ~ C6_as_stated.
Proof.
  intros H.
  destruct S_validation_fails as (Hthrow & Hcompleted & _ & _ & Hstate).
  destruct (H (Scenario.contextFrom "w0" 15000) (Scenario.pendingTransfer 15000)
              (Scenario.worldWithTransfer 100000 0 15000 []) _ eq_refl Hthrow)
    as (_ & _ & Hno).
  exact (Hno Hcompleted Hstate).
Qed.

Lemma failed_saga_ends_failed_and_compensated_witness :
  let out := runSaga (createTransferSagaSteps (Scenario.contextFrom "w0" 15000))
               (startSaga (Scenario.pendingTransfer 15000)
                  (Scenario.worldWithTransfer 100000 0 15000 [])) in
  Transaction.status (transaction (snd out)) = TransactionStatus.FAILED
  /\ Transaction.transferState (transaction (snd out)) = Some TransferState.COMPENSATED
  /\ exists row,
       storedRow (snd out) = Some row
       /\ Transaction.status row = TransactionStatus.FAILED
       /\ Transaction.transferState row = Some TransferState.COMPENSATED.
Proof.
  intros out.
  apply (failed_saga_ends_failed_and_compensated
           (createTransferSagaSteps (Scenario.contextFrom "w0" 15000))
           (Scenario.pendingTransfer 15000)
           (Scenario.worldWithTransfer 100000 0 15000 [])
           (Error "Source wallet not found or inactive")).
  - reflexivity.
  - apply transferSteps_keepHealthy.
  - vm_compute. reflexivity.
Defined.


(** ** C8: the sub-state recorded after step [i] is the one of step [i - 1] *)

(** After a pass whose step succeeded on a healthy store, the entity and its
    stored row carry [stateMap[i]]. *)
Lemma attempt_success_transferState (fuel i : nat) (step : SagaStep) (s : Saga) (w' : World) :
  execute step (world s) = (Ok tt, w') ->
  faults w' = [] ->
  fst (attempt fuel i step s) = Ok tt
  /\ Transaction.transferState (transaction (snd (attempt fuel i step s)))
     = Some (getTransferStateForStep i)
  /\ exists row,
       storedRow (snd (attempt fuel i step s)) = Some row
       /\ Transaction.transferState row = Some (getTransferStateForStep i).
Proof.
  intros Hexec Hw'. rewrite (attempt_success fuel i step s w' Hexec Hw'). simpl.
  split; [reflexivity |]. split; [reflexivity |].
  unfold afterStep.
  match goal with
  | |- context [storedRow (persist ?s0)] =>
      destruct (storedRow_persist s0) as (row & Hrow & _ & Hts)
  end.
  exists row. split; [exact Hrow |]. rewrite Hts. reflexivity.
Qed.

(** The sub-state of the entity once the first [n] steps of the transfer saga
    have completed, on scenario S1 (source 1000.00, transfer of 150.00). *)
Definition subStateAfter (n : nat) : option TransferState.t :=
  Transaction.transferState
    (transaction
       (snd (executeSteps 0 (take n (createTransferSagaSteps (Scenario.context 15000)))
               (startSaga (Scenario.pendingTransfer 15000)
                  (Scenario.worldWithTransfer 100000 0 15000 []))))).

(** C8 (code bug).  [getTransferStateForStep] is indexed by the step that has
    just completed, but [stateMap] starts with [INITIATED]: after
    [validate_transfer] (step 0) the sub-state is still [INITIATED], after
    [reserve_funds] it is [VALIDATION_COMPLETE], after [debit_source_wallet]
    [FUNDS_RESERVED], after [credit_destination_wallet] [DEBIT_COMPLETE], and
    [CREDIT_COMPLETE] only after [finalize_transfer]. *)
Theorem sub_state_lags_one_step_behind :
  map getTransferStateForStep [0; 1; 2; 3; 4]%nat
  = [TransferState.INITIATED; TransferState.VALIDATION_COMPLETE; TransferState.FUNDS_RESERVED;
     TransferState.DEBIT_COMPLETE; TransferState.CREDIT_COMPLETE]
  /\ map name (createTransferSagaSteps (Scenario.context 15000))
     = ["validate_transfer"; "reserve_funds"; "debit_source_wallet";
        "credit_destination_wallet"; "finalize_transfer"]
  /\ map subStateAfter [1; 2; 3; 4; 5]%nat
     = [Some TransferState.INITIATED; Some TransferState.VALIDATION_COMPLETE;
        Some TransferState.FUNDS_RESERVED; Some TransferState.DEBIT_COMPLETE;
        Some TransferState.CREDIT_COMPLETE].
Proof. vm_compute. auto. Qed.

(** ** C7: one retry counter for the whole saga *)

(** The state a failing pass leaves when no retry is granted. *)
Definition afterFailure (i : nat) (step : SagaStep) (e : Exn) (w' : World) (s : Saga) : Saga :=
  let s0 := set_sagaLog (sagaLog s ++ [Executing i (name step)])
              (set_sagaState (SagaState.set_currentStep i (sagaState s)) s) in
  let s1 := set_world w' s0 in
  set_sagaState (SagaState.set_lastError (Some e) (sagaState s1)) s1.

Lemma attempt_failure (fuel i : nat) (step : SagaStep) (s : Saga) (e : Exn) (w' : World) :
  execute step (world s) = (Throw e, w') ->
  (retryable step && (SagaState.retryCount (sagaState s) <? maxRetries step)%nat) = false ->
  attempt fuel i step s = (Throw e, afterFailure i step e w' s).
Proof.
  intros Hexec Hcond.
  assert (Hbody : forall s0, world s0 = world s ->
            bind (liftW (execute step))
              (fun _ => bind (updSagaState (fun st =>
                 SagaState.set_completedSteps (SagaState.completedSteps st ++ [name step]) st))
                 (fun _ => bind updateSagaState
                    (fun _ => updateTransferState (getTransferStateForStep i)))) s0
            = (Throw e, set_world w' s0)).
  { intros s0 Hs0. unfold bind at 1, liftW. rewrite Hs0, Hexec. reflexivity. }
  destruct fuel; simpl;
    unfold bind at 1, updSagaState at 1, modify; unfold bind at 1, logSaga, modify;
    unfold tryCatch; rewrite Hbody by reflexivity;
    unfold bind at 1, updSagaState, modify; unfold bind at 1, gets; simpl;
    rewrite Hcond; reflexivity.
Qed.

(** A step that fails when the saga-wide counter has reached its
    [maxRetries] is not re-executed, whatever consumed the counter. *)
Lemma attempt_budget_spent (fuel i : nat) (step : SagaStep) (s : Saga) (e : Exn) (w' : World) :
  execute step (world s) = (Throw e, w') ->
  (maxRetries step <= SagaState.retryCount (sagaState s))%nat ->
  fst (attempt fuel i step s) = Throw e
  /\ sagaLog (snd (attempt fuel i step s)) = sagaLog s ++ [Executing i (name step)]
  /\ SagaState.retryCount (sagaState (snd (attempt fuel i step s)))
     = SagaState.retryCount (sagaState s).
Proof.
  intros Hexec Hle.
  rewrite (attempt_failure fuel i step s e w' Hexec).
  - simpl. auto.
  - apply andb_false_iff. right. apply Nat.ltb_ge. exact Hle.
Qed.

(** The log and the retry counter of a transfer saga run on scenario S1 under
    the fault schedule [fs]. *)
Definition sagaRun (fs : list bool) : Res unit * Saga :=
  runSaga (createTransferSagaSteps (Scenario.context 15000))
    (startSaga (Scenario.pendingTransfer 15000)
       (Scenario.worldWithTransfer 100000 0 15000 fs)).

(** [validate_transfer] loses its first two attempts to a store fault and
    succeeds on the third; then [reserve_funds] meets one fault. *)
Definition twoRetriesThenFault : list bool :=
  [false; true; false; false; true; false; false; false; false; false; false; true].

(** [reserve_funds] meets the same single fault, nothing failed before. *)
Definition oneFault : list bool :=
  [false; false; false; false; false; true].

(** C7 (code bug).  The retry counter is [sagaState.retryCount], shared by
    all steps and never reset.  After [validate_transfer] used two retries,
    a first failure of [reserve_funds] (whose own [maxRetries] is 2) is not
    retried and the saga goes to compensation; the same failure is retried,
    and the saga completes, when no earlier step had failed. *)
Theorem retries_of_one_step_consume_the_budget_of_the_next :
  map maxRetries (createTransferSagaSteps (Scenario.context 15000)) = [3; 2; 2; 2; 0]%nat
  /\ fst (sagaRun twoRetriesThenFault) = Throw infrastructureFault
  /\ sagaLog (snd (sagaRun twoRetriesThenFault))
     = [Executing 0 "validate_transfer"; Retrying "validate_transfer" 1;
        Executing 0 "validate_transfer"; Retrying "validate_transfer" 2;
        Executing 0 "validate_transfer";
        Executing 1 "reserve_funds";
        Compensating "validate_transfer"]
  /\ fst (sagaRun oneFault) = Ok tt
  /\ sagaLog (snd (sagaRun oneFault))
     = [Executing 0 "validate_transfer";
        Executing 1 "reserve_funds"; Retrying "reserve_funds" 1;
        Executing 1 "reserve_funds";
        Executing 2 "debit_source_wallet"; Executing 3 "credit_destination_wallet";
        Executing 4 "finalize_transfer"].
Proof. vm_compute. auto 10. Qed.


(** ** The primitives on a healthy store *)

Lemma updateBalanceBy_healthy (id : string) (delta : Z) (w : World) (x : Wallet.t) :
  faults w = [] -> wallets w !! id = Some x ->
  walletRepository.updateBalanceBy id delta w
  = (Ok tt,
     set_trace (trace w ++ [BalanceWrite id])
       (set_wallets (<[id := Wallet.set_balance (Wallet.balance x + delta) x]> (wallets w)) w)).
Proof.
  intros Hf Hx. unfold walletRepository.updateBalanceBy, emit. unfold_monad.
  rewrite (io_healthy w Hf), Hx. reflexivity.
Qed.

Lemma findOneById_healthy (id : string) (w : World) :
  faults w = [] ->
  transactionRepository.findOneById id w
  = (Ok (find (transactionRepository.hasId id) (transactions w)), w).
Proof.
  intros Hf. unfold transactionRepository.findOneById. unfold_monad.
  rewrite (io_healthy w Hf). reflexivity.
Qed.

Lemma save_healthy (x : Transaction.t) (w : World) :
  faults w = [] ->
  transactionRepository.save x w
  = (Ok tt, set_transactions (transactionRepository.replaceRow x (transactions w)) w).
Proof.
  intros Hf. unfold transactionRepository.save. unfold_monad.
  rewrite (io_healthy w Hf). reflexivity.
Qed.

Lemma set_healthy (key : string) (v : CacheVal) (w : World) :
  faults w = [] ->
  CacheService.set key v w = (Ok tt, set_redis (<[key := v]> (redis w)) w).
Proof.
  intros Hf. unfold CacheService.set, client.set. unfold_monad.
  rewrite (io_healthy w Hf). reflexivity.
Qed.

(** [refreshCache] writes the versioned balance entry and nothing else. *)
Lemma refreshCache_healthy (walletId : string) (balance : Js.value) (w : World) :
  faults w = [] ->
  exists v,
    refreshCache walletId balance w
    = (Ok tt, set_redis (<[CacheService.balanceKey walletId := v]> (redis w)) w).
Proof.
  intros Hf.
  unfold refreshCache, CacheService.getWalletBalanceWithVersion,
    CacheService.setWalletBalanceWithVersion.
  unfold bind at 1. unfold bind at 1. rewrite (get_healthy _ w Hf).
  destruct (truthy (redis w !! CacheService.balanceKey walletId)) as [[] |];
    unfold ret; unfold bind, gets; rewrite (set_healthy _ _ w Hf); eauto.
Qed.

Lemma lockKey_not_balanceKey (a b : string) :
  CacheService.lockKey a <> CacheService.balanceKey b.
Proof.
  unfold CacheService.lockKey, CacheService.balanceKey.
  cbv [String.append]. intros H. discriminate H.
Qed.

(** ** The steps of a transfer on a healthy store *)

Section Steps.

Variable context : SagaContext.

Lemma validateTransfer_ok (w : World) (s d : Wallet.t) :
  faults w = [] ->
  wallets w !! sourceWalletId context = Some s -> Wallet.isActive s = true ->
  wallets w !! destinationWalletId context = Some d -> Wallet.isActive d = true ->
  Wallet.currency s = Wallet.currency d ->
  validateTransfer context w = (Ok tt, w).
Proof.
  intros Hf Hs Hsa Hd Hda Hc.
  unfold validateTransfer, bind, promiseAll2.
  rewrite !(findOne_healthy _ _ w Hf), Hs, Hd, Hsa, Hda.
  rewrite bool_decide_eq_false_2 by (intros Hn; apply Hn; exact Hc). reflexivity.
Qed.

Lemma reserveFunds_ok (w : World) (row : Transaction.t) :
  faults w = [] ->
  find (transactionRepository.hasId (transactionId context)) (transactions w) = Some row ->
  exists rows,
    reserveFunds context w = (Ok tt, set_transactions rows w)
    /\ is_Some (find (transactionRepository.hasId (transactionId context)) rows).
Proof.
  intros Hf Hrow.
  unfold reserveFunds. unfold bind at 1. rewrite (findOneById_healthy _ w Hf), Hrow.
  unfold bind, gets. rewrite (save_healthy _ w Hf).
  eexists. split; [reflexivity |].
  assert (Hid : Transaction.id row = transactionId context).
  { apply find_some in Hrow as [_ Hrow]. unfold transactionRepository.hasId in Hrow.
    apply bool_decide_eq_true in Hrow. exact Hrow. }
  rewrite <- Hid.
  match goal with
  | |- is_Some (find _ (transactionRepository.replaceRow ?r _)) =>
      rewrite (find_replaceRow r)
  end.
  eauto.
Qed.

Lemma releaseReservedFunds_ok (w : World) :
  faults w = [] ->
  exists rows, releaseReservedFunds context w = (Ok tt, set_transactions rows w).
Proof.
  intros Hf.
  unfold releaseReservedFunds. unfold bind. rewrite (findOneById_healthy _ w Hf).
  assert (Hsame : set_transactions (transactions w) w = w) by (destruct w; reflexivity).
  destruct (find _ (transactions w)) as [x |].
  - destruct (Transaction.reservedAmount x) as [r |].
    + rewrite (save_healthy _ w Hf). eauto.
    + exists (transactions w). rewrite Hsame. reflexivity.
  - exists (transactions w). rewrite Hsame. reflexivity.
Qed.

Lemma debitSourceWallet_ok (w : World) (s : Wallet.t) :
  faults w = [] ->
  wallets w !! sourceWalletId context = Some s -> amount context <= Wallet.balance s ->
  exists w',
    debitSourceWallet context w = (Ok tt, w')
    /\ faults w' = []
    /\ wallets w'
       = <[sourceWalletId context := Wallet.set_balance (Wallet.balance s - amount context) s]>
           (wallets w)
    /\ transactions w' = transactions w
    /\ trace w' = trace w ++ [BalanceWrite (sourceWalletId context)]
    /\ redis w' !! CacheService.lockKey (sourceWalletId context)
       = redis w !! CacheService.lockKey (sourceWalletId context).
Proof.
  intros Hf Hs Hle.
  unfold debitSourceWallet. unfold bind at 1. rewrite (findOne_healthy _ _ w Hf), Hs.
  simpl. destruct (Wallet.balance s <? amount context) eqn:E; [apply Z.ltb_lt in E; lia |].
  unfold bind at 1, setSourceBalanceBefore, modify.
  unfold bind at 1.
  match goal with
  | |- context [walletRepository.updateBalanceBy ?i ?d ?w0] =>
      rewrite (updateBalanceBy_healthy i d w0 s Hf Hs)
  end.
  match goal with
  | |- context [refreshCache ?i ?b ?w0] =>
      destruct (refreshCache_healthy i b w0 Hf) as (v & ->)
  end.
  eexists. split; [reflexivity |]. simpl.
  replace (Wallet.balance s + - amount context) with (Wallet.balance s - amount context) by lia.
  repeat split; auto.
  apply lookup_insert_ne. intros Heq. symmetry in Heq. exact (lockKey_not_balanceKey _ _ Heq).
Qed.

(** The compensation of the debit. *)
Lemma creditSourceWallet_ok (w : World) (s : Wallet.t) :
  faults w = [] ->
  wallets w !! sourceWalletId context = Some s ->
  exists w',
    creditSourceWallet context w = (Ok tt, w')
    /\ faults w' = []
    /\ wallets w'
       = <[sourceWalletId context := Wallet.set_balance (Wallet.balance s + amount context) s]>
           (wallets w)
    /\ transactions w' = transactions w.
Proof.
  intros Hf Hs.
  unfold creditSourceWallet. unfold bind at 1.
  rewrite (updateBalanceBy_healthy _ _ w s Hf Hs).
  unfold bind at 1.
  match goal with
  | |- context [walletRepository.findOne ?i ?c ?w0] =>
      rewrite (findOne_healthy i c w0 Hf)
  end.
  simpl. rewrite lookup_insert_eq. simpl.
  match goal with
  | |- context [refreshCache ?i ?b ?w0] =>
      destruct (refreshCache_healthy i b w0 Hf) as (v & ->)
  end.
  eexists. split; [reflexivity |]. simpl. auto.
Qed.

Lemma creditDestinationWallet_ok (w : World) (d : Wallet.t) :
  faults w = [] ->
  wallets w !! destinationWalletId context = Some d ->
  exists w',
    creditDestinationWallet context w = (Ok tt, w')
    /\ faults w' = []
    /\ wallets w'
       = <[destinationWalletId context
           := Wallet.set_balance (Wallet.balance d + amount context) d]> (wallets w)
    /\ transactions w' = transactions w.
Proof.
  intros Hf Hd.
  unfold creditDestinationWallet. unfold bind at 1. rewrite (findOne_healthy _ _ w Hf), Hd.
  simpl.
  unfold bind at 1, setDestinationBalanceBefore, modify.
  unfold bind at 1.
  match goal with
  | |- context [walletRepository.updateBalanceBy ?i ?d0 ?w0] =>
      rewrite (updateBalanceBy_healthy i d0 w0 d Hf Hd)
  end.
  match goal with
  | |- context [refreshCache ?i ?b ?w0] =>
      destruct (refreshCache_healthy i b w0 Hf) as (v & ->)
  end.
  eexists. split; [reflexivity |]. simpl. auto.
Qed.

(** The compensation of the credit. *)
Lemma debitDestinationWallet_ok (w : World) (d : Wallet.t) :
  faults w = [] ->
  wallets w !! destinationWalletId context = Some d ->
  exists w',
    debitDestinationWallet context w = (Ok tt, w')
    /\ faults w' = []
    /\ wallets w'
       = <[destinationWalletId context
           := Wallet.set_balance (Wallet.balance d - amount context) d]> (wallets w)
    /\ transactions w' = transactions w.
Proof.
  intros Hf Hd.
  unfold debitDestinationWallet. unfold bind at 1.
  rewrite (updateBalanceBy_healthy _ _ w d Hf Hd).
  unfold bind at 1.
  match goal with
  | |- context [walletRepository.findOne ?i ?c ?w0] =>
      rewrite (findOne_healthy i c w0 Hf)
  end.
  simpl. rewrite lookup_insert_eq. simpl.
  match goal with
  | |- context [refreshCache ?i ?b ?w0] =>
      destruct (refreshCache_healthy i b w0 Hf) as (v & ->)
  end.
  eexists. split; [reflexivity |]. simpl.
  replace (Wallet.balance d + - amount context) with (Wallet.balance d - amount context) by lia.
  auto.
Qed.

Lemma finalizeTransfer_ok (w : World) :
  faults w = [] ->
  exists rows, finalizeTransfer context w = (Ok tt, set_transactions rows w).
Proof.
  intros Hf.
  assert (Hsame : set_transactions (transactions w) w = w) by (destruct w; reflexivity).
  unfold finalizeTransfer. unfold bind at 1. unfold promiseAll2.
  rewrite !(findOne_healthy _ _ w Hf).
  unfold bind at 1. rewrite (findOneById_healthy _ w Hf).
  destruct (find _ (transactions w)) as [row |];
    destruct (wallets w !! sourceWalletId context) as [s |];
    destruct (wallets w !! destinationWalletId context) as [d |]; simpl;
    try (exists (transactions w); rewrite Hsame; reflexivity).
  unfold bind, gets. rewrite (save_healthy _ w Hf). eauto.
Qed.

End Steps.




(** ** C2: compensation after a failure injected at a step *)

(** The step list with the [execute] action of step [i] replaced by one that
    throws [e]: a failure injected at that step. *)
Definition failAt (i : nat) (e : Exn) (steps : list SagaStep) : list SagaStep :=
  alter (fun step => {| name := name step; execute := throw e;
                        compensate := compensate step; retryable := retryable step;
                        maxRetries := maxRetries step |}) i steps.

(** What the proof follows along a run: the store is healthy, the wallets
    are [W], the steps in [done] completed, [rc] retries were used, and the
    row of the transaction is stored. *)
Record tracking (txid : string) (W : gmap string Wallet.t) (done : list string) (rc : nat)
    (s : Saga) : Prop := {
  tk_healthy : faults (world s) = [];
  tk_wallets : wallets (world s) = W;
  tk_completed : SagaState.completedSteps (sagaState s) = done;
  tk_compensated : SagaState.compensatedSteps (sagaState s) = [];
  tk_retry : SagaState.retryCount (sagaState s) = rc;
  tk_id : Transaction.id (transaction s) = txid;
  tk_row : is_Some (find (transactionRepository.hasId txid) (transactions (world s)));
  tk_log : compensationsLogged (sagaLog s) = []
}.

Lemma persist_row (s : Saga) :
  is_Some (find (transactionRepository.hasId (Transaction.id (transaction s)))
             (transactions (world (persist s)))).
Proof. destruct (storedRow_persist s) as (row & Hrow & _). exists row. exact Hrow. Qed.

Lemma assignSagaState_id (s : Saga) :
  Transaction.id (transaction (assignSagaState s)) = Transaction.id (transaction s).
Proof. unfold assignSagaState. destruct (SagaState.lastError _); reflexivity. Qed.

Lemma tracking_start (x : Transaction.t) (w : World) :
  faults w = [] ->
  tracking (Transaction.id x) (wallets w) [] 0 (persist (assignSagaState (startSaga x w))).
Proof.
  intros Hf. split; try reflexivity; try exact Hf.
  apply (persist_row (assignSagaState (startSaga x w))).
Qed.

Lemma afterStep_id (i : nat) (step : SagaStep) (w' : World) (s : Saga) :
  Transaction.id (transaction (afterStep i step w' s)) = Transaction.id (transaction s).
Proof.
  unfold afterStep, assignSagaState. simpl.
  destruct (SagaState.lastError (sagaState s)); reflexivity.
Qed.

Lemma tracking_afterStep (txid : string) (W W' : gmap string Wallet.t) (done : list string)
    (rc i : nat) (step : SagaStep) (w' : World) (s : Saga) :
  tracking txid W done rc s ->
  faults w' = [] -> wallets w' = W' ->
  tracking txid W' (done ++ [name step]) rc (afterStep i step w' s).
Proof.
  intros [Hh Hw Hc Hcomp Hr Hid Hrow Hlog] Hf HW.
  split.
  - exact Hf.
  - exact HW.
  - simpl. rewrite Hc. reflexivity.
  - exact Hcomp.
  - exact Hr.
  - rewrite afterStep_id. exact Hid.
  - rewrite <- Hid, <- (afterStep_id i step w' s).
    unfold afterStep.
    match goal with
    | |- is_Some (find _ (transactions (world (persist ?s0)))) => exact (persist_row s0)
    end.
  - simpl. rewrite compensationsLogged_app, Hlog. reflexivity.
Qed.

(** A failing pass that is granted a retry, on a healthy store. *)
Definition afterRetry (i : nat) (step : SagaStep) (e : Exn) (w' : World) (s : Saga) : Saga :=
  let s1 := afterFailure i step e w' s in
  let s2 := set_sagaState
              (SagaState.set_retryCount (S (SagaState.retryCount (sagaState s1)))
                 (sagaState s1)) s1 in
  let s3 := persist (assignSagaState s2) in
  set_sagaLog (sagaLog s3 ++ [Retrying (name step) (S (SagaState.retryCount (sagaState s1)))])
    s3.

Lemma attempt_retry (fuel i : nat) (step : SagaStep) (s : Saga) (e : Exn) (w' : World) :
  execute step (world s) = (Throw e, w') ->
  faults w' = [] ->
  (retryable step && (SagaState.retryCount (sagaState s) <? maxRetries step)%nat) = true ->
  attempt (S fuel) i step s = attempt fuel i step (afterRetry i step e w' s).
Proof.
  intros Hexec Hf Hcond.
  assert (Hbody : forall s0, world s0 = world s ->
            bind (liftW (execute step))
              (fun _ => bind (updSagaState (fun st =>
                 SagaState.set_completedSteps (SagaState.completedSteps st ++ [name step]) st))
                 (fun _ => bind updateSagaState
                    (fun _ => updateTransferState (getTransferStateForStep i)))) s0
            = (Throw e, set_world w' s0)).
  { intros s0 Hs0. unfold bind at 1, liftW. rewrite Hs0, Hexec. reflexivity. }
  simpl attempt.
  unfold bind at 1, updSagaState at 1, modify; unfold bind at 1, logSaga at 1, modify.
  unfold tryCatch. rewrite Hbody by reflexivity.
  unfold bind at 1, updSagaState at 1, modify. unfold bind at 1, gets. simpl.
  rewrite Hcond.
  unfold bind at 1, updSagaState at 1, modify.
  match goal with
  | |- bind updateSagaState _ ?s1 = _ =>
      rewrite (bind_ok _ _ _ _ _ (updateSagaState_healthy s1 Hf))
  end.
  unfold bind at 1, logSaga at 1, modify.
  reflexivity.
Qed.

Lemma tracking_afterRetry (txid : string) (W : gmap string Wallet.t) (done : list string)
    (rc i : nat) (step : SagaStep) (e : Exn) (s : Saga) :
  tracking txid W done rc s ->
  tracking txid W done (S rc) (afterRetry i step e (world s) s).
Proof.
  intros [Hh Hw Hc Hcomp Hr Hid Hrow Hlog].
  unfold afterRetry, afterFailure.
  split.
  - exact Hh.
  - exact Hw.
  - exact Hc.
  - exact Hcomp.
  - simpl. rewrite Hr. reflexivity.
  - simpl. exact Hid.
  - rewrite <- Hid.
    match goal with
    | |- is_Some (find _ (transactions (world (set_sagaLog _ (persist ?s0))))) =>
        pose proof (persist_row s0) as Hp
    end.
    rewrite assignSagaState_id in Hp. exact Hp.
  - simpl. rewrite !compensationsLogged_app, Hlog. reflexivity.
Qed.

Lemma tracking_afterFailure (txid : string) (W : gmap string Wallet.t) (done : list string)
    (rc i : nat) (step : SagaStep) (e : Exn) (s : Saga) :
  tracking txid W done rc s ->
  tracking txid W done rc (afterFailure i step e (world s) s).
Proof.
  intros [Hh Hw Hc Hcomp Hr Hid Hrow Hlog].
  unfold afterFailure.
  split; simpl; auto.
  rewrite compensationsLogged_app, Hlog. reflexivity.
Qed.

(** One compensation whose action succeeds. *)
Definition afterCompensation (stepName : string) (w' : World) (s : Saga) : Saga :=
  let s1 := set_world w' (set_sagaLog (sagaLog s ++ [Compensating stepName]) s) in
  set_sagaState
    (SagaState.set_compensatedSteps
       (SagaState.compensatedSteps (sagaState s1) ++ [stepName]) (sagaState s1)) s1.

Lemma compensateStep_success (steps : list SagaStep) (stepName : string) (step : SagaStep)
    (s : Saga) (w' : World) :
  findStep steps stepName = Some step ->
  compensate step (world s) = (Ok tt, w') ->
  compensateStep steps stepName s = (Ok tt, afterCompensation stepName w' s).
Proof.
  intros Hfind Hrun. unfold compensateStep. rewrite Hfind.
  unfold tryCatch. unfold bind at 1, logSaga, modify. unfold bind at 1, liftW. simpl.
  rewrite Hrun. reflexivity.
Qed.

(** [compensateSaga] on a healthy store, given the outcome of its loop. *)
Lemma compensateSaga_run (steps : list SagaStep) (s s4 : Saga) :
  healthy s ->
  let s3 := set_sagaState
              (SagaState.set_completedSteps (rev (SagaState.completedSteps (sagaState s)))
                 (sagaState s))
              (persist (assignTransferState TransferState.COMPENSATION_PENDING
                          (persist (assignStatus TransactionStatus.FAILED s)))) in
  compensateAll steps (rev (SagaState.completedSteps (sagaState s))) s3 = (Ok tt, s4) ->
  healthy s4 ->
  compensateSaga steps s
  = (Ok tt, persist (assignSagaState (persist (assignTransferState TransferState.COMPENSATED s4)))).
Proof.
  intros H s3 Hloop H4. unfold compensateSaga.
  rewrite (bind_ok _ _ _ _ _ (updateTransactionStatus_healthy _ s H)).
  match goal with
  | |- bind (updateTransferState _) _ ?s1 = _ =>
      rewrite (bind_ok _ _ _ _ _ (updateTransferState_healthy _ s1 H))
  end.
  unfold bind at 1, updSagaState, modify. unfold bind at 1, gets.
  change (SagaState.completedSteps (sagaState _))
    with (rev (SagaState.completedSteps (sagaState s))) at 1.
  fold s3. rewrite (bind_ok _ _ _ _ _ Hloop).
  rewrite (bind_ok _ _ _ _ _ (updateTransferState_healthy _ s4 H4)).
  apply updateSagaState_healthy. exact H4.
Qed.

Lemma restore_wallet (W : gmap string Wallet.t) (id : string) (s : Wallet.t) (a : Z) :
  W !! id = Some s ->
  <[id := Wallet.set_balance (Wallet.balance (Wallet.set_balance (Wallet.balance s - a) s) + a)
            (Wallet.set_balance (Wallet.balance s - a) s)]>
    (<[id := Wallet.set_balance (Wallet.balance s - a) s]> W) = W.
Proof.
  intros Hs. rewrite insert_insert_eq.
  replace (Wallet.set_balance _ (Wallet.set_balance (Wallet.balance s - a) s)) with s.
  - apply insert_id. exact Hs.
  - destruct s as [i b c act n u]. unfold Wallet.set_balance. simpl. f_equal. lia.
Qed.

(** A pass whose step keeps failing and runs out of passes. *)
Lemma attempt_out_of_fuel (i : nat) (step : SagaStep) (s : Saga) (e : Exn) (w' : World) :
  execute step (world s) = (Throw e, w') ->
  faults w' = [] ->
  (retryable step && (SagaState.retryCount (sagaState s) <? maxRetries step)%nat) = true ->
  attempt 0 i step s = (Throw e, afterRetry i step e w' s).
Proof.
  intros Hexec Hf Hcond.
  assert (Hbody : forall s0, world s0 = world s ->
            bind (liftW (execute step))
              (fun _ => bind (updSagaState (fun st =>
                 SagaState.set_completedSteps (SagaState.completedSteps st ++ [name step]) st))
                 (fun _ => bind updateSagaState
                    (fun _ => updateTransferState (getTransferStateForStep i)))) s0
            = (Throw e, set_world w' s0)).
  { intros s0 Hs0. unfold bind at 1, liftW. rewrite Hs0, Hexec. reflexivity. }
  simpl attempt.
  unfold bind at 1, updSagaState at 1, modify; unfold bind at 1, logSaga at 1, modify.
  unfold tryCatch. rewrite Hbody by reflexivity.
  unfold bind at 1, updSagaState at 1, modify. unfold bind at 1, gets. simpl.
  rewrite Hcond.
  unfold bind at 1, updSagaState at 1, modify.
  match goal with
  | |- bind updateSagaState _ ?s1 = _ =>
      rewrite (bind_ok _ _ _ _ _ (updateSagaState_healthy s1 Hf))
  end.
  unfold bind at 1, logSaga at 1, modify.
  reflexivity.
Qed.

(** A step whose action always throws [e] fails with [e], retried or not,
    and changes nothing the proof follows but the retry counter. *)
Lemma attempt_injected (txid : string) (W : gmap string Wallet.t) (done : list string)
    (i : nat) (step : SagaStep) (e : Exn) :
  execute step = throw e ->
  forall (fuel rc : nat) (s : Saga),
    tracking txid W done rc s ->
    exists s' rc', attempt fuel i step s = (Throw e, s') /\ tracking txid W done rc' s'.
Proof.
  intros Hexec.
  assert (Efail : forall s0, execute step (world s0) = (Throw e, world s0))
    by (intros s0; rewrite Hexec; reflexivity).
  induction fuel as [| fuel IH]; intros rc s T;
    destruct (retryable step && (SagaState.retryCount (sagaState s) <? maxRetries step)%nat)
      eqn:Hcond.
  - eexists _, _. split.
    + apply (attempt_out_of_fuel i step s e (world s) (Efail s) (tk_healthy _ _ _ _ _ T) Hcond).
    + apply tracking_afterRetry. exact T.
  - eexists _, _. split.
    + apply (attempt_failure 0 i step s e (world s) (Efail s) Hcond).
    + apply tracking_afterFailure. exact T.
  - rewrite (attempt_retry fuel i step s e (world s) (Efail s) (tk_healthy _ _ _ _ _ T) Hcond).
    apply (IH (S rc)). apply tracking_afterRetry. exact T.
  - eexists _, _. split.
    + apply (attempt_failure (S fuel) i step s e (world s) (Efail s) Hcond).
    + apply tracking_afterFailure. exact T.
Qed.

(** One step that succeeds, on a tracked execution. *)
Lemma attempt_tracked (txid : string) (W W' : gmap string Wallet.t) (done : list string)
    (fuel i : nat) (step : SagaStep) (w' : World) (s : Saga) :
  tracking txid W done 0 s ->
  execute step (world s) = (Ok tt, w') ->
  faults w' = [] -> wallets w' = W' ->
  exists s',
    attempt fuel i step s = (Ok tt, s')
    /\ tracking txid W' (done ++ [name step]) 0 s'
    /\ redis (world s') = redis w' /\ transferLimits (world s') = transferLimits w'
    /\ trace (world s') = trace w' /\ now (world s') = now w'
    /\ contextMetadata (world s') = contextMetadata w'.
Proof.
  intros T E Hf HW.
  exists (afterStep i step w' s). split; [| split].
  - apply attempt_success; assumption.
  - apply (tracking_afterStep txid W W' done 0 i step w' s T Hf HW).
  - repeat split.
Qed.

(** ** The compensation loop as a function of the world *)

(** What the loop makes of the world: the compensate actions of the named
    steps run one after the other, in the order of the names, each on the
    world the previous one left, whether it returned or threw; a name the
    step list does not know is skipped.  [un_compensated] are the names whose
    action returned, [un_log] the lines logged. *)
Record Undone := {
  un_world : World;
  un_compensated : list string;
  un_log : list SagaLog
}.

Fixpoint runCompensations (steps : list SagaStep) (names : list string) (w : World) : Undone :=
  match names with
  | [] => {| un_world := w; un_compensated := []; un_log := [] |}
  | stepName :: rest =>
      match findStep steps stepName with
      | None => runCompensations steps rest w
      | Some step =>
          let (r, w') := compensate step w in
          let u := runCompensations steps rest w' in
          match r with
          | Ok _ =>
              {| un_world := un_world u;
                 un_compensated := stepName :: un_compensated u;
                 un_log := Compensating stepName :: un_log u |}
          | Throw _ =>
              {| un_world := un_world u;
                 un_compensated := un_compensated u;
                 un_log := Compensating stepName :: CompensationFailed stepName :: un_log u |}
          end
      end
  end.

Definition undone (u : Undone) (s : Saga) : Saga :=
  {| world := un_world u;
     transaction := transaction s;
     sagaState :=
       SagaState.set_compensatedSteps
         (SagaState.compensatedSteps (sagaState s) ++ un_compensated u) (sagaState s);
     sagaLog := sagaLog s ++ un_log u |}.

(** The loop never throws, and does exactly that. *)
Lemma compensateAll_runs (steps : list SagaStep) (names : list string) (s : Saga) :
  compensateAll steps names s = (Ok tt, undone (runCompensations steps names (world s)) s).
Proof.
  revert s. induction names as [| n names IH]; intros s.
  - simpl. unfold ret, undone. simpl. rewrite !app_nil_r.
    destruct s as [w0 x0 [] l0]; reflexivity.
  - cbn [compensateAll runCompensations]. unfold compensateStep.
    destruct (findStep steps n) as [step |].
    + unfold bind at 1, tryCatch. unfold bind at 1, logSaga, modify.
      unfold bind at 1, liftW. cbn [world set_sagaLog].
      destruct (compensate step (world s)) as [[[] | e0] w'].
      * unfold updSagaState, modify. rewrite IH. f_equal.
        unfold undone. cbn. rewrite <- !app_assoc. reflexivity.
      * rewrite IH. f_equal.
        unfold undone. cbn. rewrite <- !app_assoc. reflexivity.
    + unfold bind, ret. apply IH.
Qed.

(** The state the compensations start from: the two saves that mark the
    transaction [FAILED] and [COMPENSATION_PENDING] are done, and the list
    of completed steps is reversed. *)
Definition beforeCompensation (s : Saga) : Saga :=
  set_sagaState
    (SagaState.set_completedSteps (rev (SagaState.completedSteps (sagaState s))) (sagaState s))
    (persist (assignTransferState TransferState.COMPENSATION_PENDING
                (persist (assignStatus TransactionStatus.FAILED s)))).

Lemma compensateSaga_runs (steps : list SagaStep) (s : Saga) :
  healthy s -> stepsKeepHealthy steps ->
  let u := runCompensations steps (rev (SagaState.completedSteps (sagaState s)))
             (world (beforeCompensation s)) in
  exists s',
    compensateSaga steps s = (Ok tt, s')
    /\ wallets (world s') = wallets (un_world u)
    /\ redis (world s') = redis (un_world u)
    /\ SagaState.compensatedSteps (sagaState s')
       = SagaState.compensatedSteps (sagaState s) ++ un_compensated u
    /\ sagaLog s' = sagaLog s ++ un_log u.
Proof.
  intros Hh Hsteps u.
  pose proof (compensateAll_runs steps (rev (SagaState.completedSteps (sagaState s)))
                (beforeCompensation s)) as Hloop.
  fold u in Hloop.
  assert (H4 : healthy (undone u (beforeCompensation s))).
  { pose proof (khS_compensateAll steps (rev (SagaState.completedSteps (sagaState s))) Hsteps
                  (beforeCompensation s) Hh) as H4.
    rewrite Hloop in H4. exact H4. }
  eexists. split.
  - apply (compensateSaga_run steps s _ Hh Hloop H4).
  - repeat split.
Qed.

(** ** A failure injected at a step of a transfer *)

(** Altering one step's action leaves the names and the compensations. *)
Lemma findStep_failAt (i : nat) (e : Exn) (steps : list SagaStep) (stepName : string) :
  compensate <$> findStep (failAt i e steps) stepName = compensate <$> findStep steps stepName.
Proof.
  unfold failAt, findStep. revert i.
  induction steps as [| step steps IH]; intros i; [reflexivity |].
  destruct i as [| i]; simpl.
  - destruct (bool_decide (name step = stepName)); reflexivity.
  - destruct (bool_decide (name step = stepName)); [reflexivity | apply IH].
Qed.

(** The step names of a transfer, in order. *)
Definition transferStepNames : list string :=
  ["validate_transfer"; "reserve_funds"; "debit_source_wallet";
   "credit_destination_wallet"; "finalize_transfer"].

(** What the proof follows along the compensations. *)
Record undoing (W : gmap string Wallet.t) (compensated : list string) (s : Saga) : Prop := {
  ud_healthy : faults (world s) = [];
  ud_wallets : wallets (world s) = W;
  ud_compensated : SagaState.compensatedSteps (sagaState s) = compensated
}.

Lemma undo_one (steps : list SagaStep) (stepName : string) (action : M unit)
    (W W' : gmap string Wallet.t) (compensated : list string) (s : Saga) (w' : World) :
  compensate <$> findStep steps stepName = Some action ->
  undoing W compensated s ->
  action (world s) = (Ok tt, w') -> faults w' = [] -> wallets w' = W' ->
  exists s',
    compensateStep steps stepName s = (Ok tt, s')
    /\ undoing W' (compensated ++ [stepName]) s'.
Proof.
  intros Hfind [Hh Hw Hc] Hrun Hf HW.
  destruct (findStep steps stepName) as [step |] eqn:E; [| discriminate].
  injection Hfind as <-.
  exists (afterCompensation stepName w' s). split.
  - apply (compensateStep_success steps stepName step s w' E Hrun).
  - split; [exact Hf | exact HW |]. simpl. rewrite Hc. reflexivity.
Qed.

Section Restoration.

Variables (context : SagaContext) (x : Transaction.t) (w : World) (s d : Wallet.t) (e : Exn).

Hypothesis Hf : faults w = [].
Hypothesis Hid : transactionId context = Transaction.id x.
Hypothesis Hne : sourceWalletId context <> destinationWalletId context.
Hypothesis Hs : wallets w !! sourceWalletId context = Some s.
Hypothesis Hsa : Wallet.isActive s = true.
Hypothesis Hd : wallets w !! destinationWalletId context = Some d.
Hypothesis Hda : Wallet.isActive d = true.
Hypothesis Hcur : Wallet.currency s = Wallet.currency d.
Hypothesis Hbal : amount context <= Wallet.balance s.

Let txid : string := Transaction.id x.
Let src : string := sourceWalletId context.
Let dst : string := destinationWalletId context.

(** The wallet table once the debit, then the credit, have run. *)
Let debited : gmap string Wallet.t :=
  <[src := Wallet.set_balance (Wallet.balance s - amount context) s]> (wallets w).
Let credited : gmap string Wallet.t :=
  <[dst := Wallet.set_balance (Wallet.balance d + amount context) d]> debited.

(** The wallet table after the first [n] steps of the transfer. *)
Definition walletsAfter (n : nat) : gmap string Wallet.t :=
  match n with
  | 0 | 1 | 2 => wallets w
  | 3 => debited
  | _ => credited
  end%nat.

Lemma forward_validate (fuel i : nat) (done : list string) (s1 : Saga) :
  tracking txid (wallets w) done 0 s1 ->
  exists s2,
    attempt fuel i (Build_SagaStep "validate_transfer" (validateTransfer context) (ret tt)
                      true 3) s1 = (Ok tt, s2)
    /\ tracking txid (wallets w) (done ++ ["validate_transfer"]) 0 s2.
Proof.
  intros T.
  destruct (attempt_tracked txid _ (wallets w) done fuel i
              (Build_SagaStep "validate_transfer" (validateTransfer context) (ret tt) true 3)
              (world s1) s1 T) as (s2 & A & T2 & _);
    try solve [apply T]; eauto.
  apply (validateTransfer_ok context (world s1) s d); auto; try apply T;
    rewrite (tk_wallets _ _ _ _ _ T); assumption.
Qed.

Lemma forward_reserve (fuel i : nat) (done : list string) (s1 : Saga) :
  tracking txid (wallets w) done 0 s1 ->
  exists s2,
    attempt fuel i (Build_SagaStep "reserve_funds" (reserveFunds context)
                      (releaseReservedFunds context) true 2) s1 = (Ok tt, s2)
    /\ tracking txid (wallets w) (done ++ ["reserve_funds"]) 0 s2.
Proof.
  intros T.
  destruct (tk_row _ _ _ _ _ T) as [row Hrow].
  unfold txid in Hrow. rewrite <- Hid in Hrow.
  destruct (reserveFunds_ok context (world s1) row (tk_healthy _ _ _ _ _ T) Hrow)
    as (rows & E1 & _).
  destruct (attempt_tracked txid _ (wallets w) done fuel i
              (Build_SagaStep "reserve_funds" (reserveFunds context)
                 (releaseReservedFunds context) true 2)
              (set_transactions rows (world s1)) s1 T E1) as (s2 & A & T2 & _);
    try solve [apply T]; eauto.
Qed.

Lemma forward_debit (fuel i : nat) (done : list string) (s1 : Saga) :
  tracking txid (wallets w) done 0 s1 ->
  exists s2,
    attempt fuel i (Build_SagaStep "debit_source_wallet" (debitSourceWallet context)
                      (creditSourceWallet context) true 2) s1 = (Ok tt, s2)
    /\ tracking txid debited (done ++ ["debit_source_wallet"]) 0 s2.
Proof.
  intros T.
  assert (Hs1 : wallets (world s1) !! sourceWalletId context = Some s)
    by (rewrite (tk_wallets _ _ _ _ _ T); exact Hs).
  destruct (debitSourceWallet_ok context (world s1) s (tk_healthy _ _ _ _ _ T) Hs1 Hbal)
    as (w' & E2 & Hf' & Hw' & _).
  rewrite (tk_wallets _ _ _ _ _ T) in Hw'.
  destruct (attempt_tracked txid _ debited done fuel i
              (Build_SagaStep "debit_source_wallet" (debitSourceWallet context)
                 (creditSourceWallet context) true 2)
              w' s1 T E2 Hf' Hw') as (s2 & A & T2 & _).
  eauto.
Qed.

Lemma forward_credit (fuel i : nat) (done : list string) (s1 : Saga) :
  tracking txid debited done 0 s1 ->
  exists s2,
    attempt fuel i (Build_SagaStep "credit_destination_wallet"
                      (creditDestinationWallet context) (debitDestinationWallet context)
                      true 2) s1 = (Ok tt, s2)
    /\ tracking txid credited (done ++ ["credit_destination_wallet"]) 0 s2.
Proof.
  intros T.
  assert (Hd1 : wallets (world s1) !! destinationWalletId context = Some d).
  { rewrite (tk_wallets _ _ _ _ _ T). unfold debited, src.
    rewrite lookup_insert_ne by exact Hne. exact Hd. }
  destruct (creditDestinationWallet_ok context (world s1) d (tk_healthy _ _ _ _ _ T) Hd1)
    as (w' & E3 & Hf' & Hw' & _).
  rewrite (tk_wallets _ _ _ _ _ T) in Hw'.
  destruct (attempt_tracked txid _ credited done fuel i
              (Build_SagaStep "credit_destination_wallet"
                 (creditDestinationWallet context) (debitDestinationWallet context) true 2)
              w' s1 T E3 Hf' Hw') as (s2 & A & T2 & _).
  eauto.
Qed.

(** The forward part: the steps before the injected failure complete, the
    failing one fails for good. *)
Ltac injected i s0 T :=
  match goal with
  | |- context [attempt ?f i ?st] =>
      destruct (attempt_injected txid _ _ i st e eq_refl f 0%nat s0 T)
        as (s7 & rc & A & T7)
  end.

Lemma forward_until_injected_failure (i : nat) (s1 : Saga) :
  (i < 5)%nat ->
  tracking txid (wallets w) [] 0 s1 ->
  exists s7 rc,
    executeSteps 0 (failAt i e (createTransferSagaSteps context)) s1 = (Throw e, s7)
    /\ tracking txid (walletsAfter i) (take i transferStepNames) rc s7.
Proof.
  intros Hi T1.
  destruct i as [| [| [| [| [| i]]]]]; [| | | | | lia]; clear Hi;
    unfold failAt, createTransferSagaSteps; cbn [alter list_alter executeSteps maxRetries].
  - (* the validation fails *)
    injected 0%nat s1 T1.
    exists s7, rc. split; [apply bind_throw; exact A | exact T7].
  - (* the reservation fails *)
    destruct (forward_validate 3 0 [] s1 T1) as (s2 & A0 & T2).
    injected 1%nat s2 T2.
    exists s7, rc. split; [| exact T7].
    rewrite (bind_ok _ _ _ _ _ A0). apply bind_throw; exact A.
  - (* the debit fails *)
    destruct (forward_validate 3 0 [] s1 T1) as (s2 & A0 & T2).
    destruct (forward_reserve 2 1 _ s2 T2) as (s3 & A1 & T3).
    injected 2%nat s3 T3.
    exists s7, rc. split; [| exact T7].
    rewrite (bind_ok _ _ _ _ _ A0), (bind_ok _ _ _ _ _ A1). apply bind_throw; exact A.
  - (* the credit fails *)
    destruct (forward_validate 3 0 [] s1 T1) as (s2 & A0 & T2).
    destruct (forward_reserve 2 1 _ s2 T2) as (s3 & A1 & T3).
    destruct (forward_debit 2 2 _ s3 T3) as (s4 & A2 & T4).
    injected 3%nat s4 T4.
    exists s7, rc. split; [| exact T7].
    rewrite (bind_ok _ _ _ _ _ A0), (bind_ok _ _ _ _ _ A1), (bind_ok _ _ _ _ _ A2).
    apply bind_throw; exact A.
  - (* the last step fails *)
    destruct (forward_validate 3 0 [] s1 T1) as (s2 & A0 & T2).
    destruct (forward_reserve 2 1 _ s2 T2) as (s3 & A1 & T3).
    destruct (forward_debit 2 2 _ s3 T3) as (s4 & A2 & T4).
    destruct (forward_credit 2 3 _ s4 T4) as (s5 & A3 & T5).
    injected 4%nat s5 T5.
    exists s7, rc. split; [| exact T7].
    rewrite (bind_ok _ _ _ _ _ A0), (bind_ok _ _ _ _ _ A1), (bind_ok _ _ _ _ _ A2),
      (bind_ok _ _ _ _ _ A3).
    apply bind_throw; exact A.
Qed.

(** The compensations, one by one. *)
Variable steps : list SagaStep.
Hypothesis Hsteps :
  forall stepName,
    compensate <$> findStep steps stepName
    = compensate <$> findStep (createTransferSagaSteps context) stepName.

Lemma undo_validate (W : gmap string Wallet.t) (compensated : list string) (s1 : Saga) :
  undoing W compensated s1 ->
  exists s2,
    compensateStep steps "validate_transfer" s1 = (Ok tt, s2)
    /\ undoing W (compensated ++ ["validate_transfer"]) s2.
Proof.
  intros U.
  apply (undo_one steps "validate_transfer" (ret tt) W W compensated s1 (world s1));
    [rewrite Hsteps; reflexivity | exact U | reflexivity | apply U | apply U].
Qed.

Lemma undo_reserve (W : gmap string Wallet.t) (compensated : list string) (s1 : Saga) :
  undoing W compensated s1 ->
  exists s2,
    compensateStep steps "reserve_funds" s1 = (Ok tt, s2)
    /\ undoing W (compensated ++ ["reserve_funds"]) s2.
Proof.
  intros U.
  destruct (releaseReservedFunds_ok context (world s1) (ud_healthy _ _ _ U)) as (rows & Er).
  apply (undo_one steps "reserve_funds" (releaseReservedFunds context) W W compensated s1
           (set_transactions rows (world s1)));
    [rewrite Hsteps; reflexivity | exact U | exact Er | apply U | apply U].
Qed.

Lemma undo_debit (compensated : list string) (s1 : Saga) :
  undoing debited compensated s1 ->
  exists s2,
    compensateStep steps "debit_source_wallet" s1 = (Ok tt, s2)
    /\ undoing (wallets w) (compensated ++ ["debit_source_wallet"]) s2.
Proof.
  intros U.
  assert (Hsrc : wallets (world s1) !! sourceWalletId context
                 = Some (Wallet.set_balance (Wallet.balance s - amount context) s)).
  { rewrite (ud_wallets _ _ _ U). unfold debited. apply lookup_insert_eq. }
  destruct (creditSourceWallet_ok context (world s1) _ (ud_healthy _ _ _ U) Hsrc)
    as (w' & Ed & Hf' & Hw' & _).
  rewrite (ud_wallets _ _ _ U) in Hw'. unfold debited, src in Hw'.
  rewrite (restore_wallet _ _ _ _ Hs) in Hw'.
  apply (undo_one steps "debit_source_wallet" (creditSourceWallet context) debited (wallets w)
           compensated s1 w');
    [rewrite Hsteps; reflexivity | exact U | exact Ed | exact Hf' | exact Hw'].
Qed.

Lemma undo_credit (compensated : list string) (s1 : Saga) :
  undoing credited compensated s1 ->
  exists s2,
    compensateStep steps "credit_destination_wallet" s1 = (Ok tt, s2)
    /\ undoing debited (compensated ++ ["credit_destination_wallet"]) s2.
Proof.
  intros U.
  assert (Hdst : wallets (world s1) !! destinationWalletId context
                 = Some (Wallet.set_balance (Wallet.balance d + amount context) d)).
  { rewrite (ud_wallets _ _ _ U). unfold credited. apply lookup_insert_eq. }
  destruct (debitDestinationWallet_ok context (world s1) _ (ud_healthy _ _ _ U) Hdst)
    as (w' & Ed & Hf' & Hw' & _).
  rewrite (ud_wallets _ _ _ U) in Hw'. unfold credited, dst in Hw'.
  assert (Hback : wallets w' = debited).
  { rewrite Hw'. rewrite insert_insert_eq.
    replace (Wallet.set_balance _ (Wallet.set_balance (Wallet.balance d + amount context) d))
      with d.
    - apply insert_id. unfold debited, src. rewrite lookup_insert_ne by exact Hne. exact Hd.
    - destruct d as [i0 b c act n u]. unfold Wallet.set_balance. simpl. f_equal. lia. }
  apply (undo_one steps "credit_destination_wallet" (debitDestinationWallet context)
           credited debited compensated s1 w');
    [rewrite Hsteps; reflexivity | exact U | exact Ed | exact Hf' | exact Hback].
Qed.

(** The compensations of the first [n] steps, last completed first, bring
    the wallet table back. *)
Lemma undo_all (n : nat) (s1 : Saga) :
  (n < 5)%nat ->
  undoing (walletsAfter n) [] s1 ->
  exists s2,
    compensateAll steps (rev (take n transferStepNames)) s1 = (Ok tt, s2)
    /\ undoing (wallets w) (rev (take n transferStepNames)) s2.
Proof.
  intros Hn U.
  destruct n as [| [| [| [| [| n]]]]]; [| | | | | lia]; clear Hn;
    cbn [take transferStepNames rev app compensateAll walletsAfter] in *.
  - exists s1. split; [reflexivity | exact U].
  - destruct (undo_validate _ _ s1 U) as (s2 & A & U2).
    exists s2. rewrite (bind_ok _ _ _ _ _ A). split; [reflexivity | exact U2].
  - destruct (undo_reserve _ _ s1 U) as (s2 & A & U2).
    destruct (undo_validate _ _ s2 U2) as (s3 & B & U3).
    exists s3. rewrite (bind_ok _ _ _ _ _ A), (bind_ok _ _ _ _ _ B).
    split; [reflexivity | exact U3].
  - destruct (undo_debit _ s1 U) as (s2 & A & U2).
    destruct (undo_reserve _ _ s2 U2) as (s3 & B & U3).
    destruct (undo_validate _ _ s3 U3) as (s4 & C & U4).
    exists s4. rewrite (bind_ok _ _ _ _ _ A), (bind_ok _ _ _ _ _ B), (bind_ok _ _ _ _ _ C).
    split; [reflexivity | exact U4].
  - destruct (undo_credit _ s1 U) as (s2 & A & U2).
    destruct (undo_debit _ s2 U2) as (s3 & B & U3).
    destruct (undo_reserve _ _ s3 U3) as (s4 & C & U4).
    destruct (undo_validate _ _ s4 U4) as (s5 & D & U5).
    exists s5.
    rewrite (bind_ok _ _ _ _ _ A), (bind_ok _ _ _ _ _ B), (bind_ok _ _ _ _ _ C),
      (bind_ok _ _ _ _ _ D).
    split; [reflexivity | exact U5].
Qed.

(** The compensation part. *)
Lemma compensation_after_injected_failure (n rc : nat) (s7 : Saga) :
  (n < 5)%nat ->
  tracking txid (walletsAfter n) (take n transferStepNames) rc s7 ->
  exists s8,
    compensateSaga steps s7 = (Ok tt, s8)
    /\ wallets (world s8) = wallets w
    /\ SagaState.compensatedSteps (sagaState s8) = rev (take n transferStepNames)
    /\ Transaction.status (transaction s8) = TransactionStatus.FAILED
    /\ Transaction.transferState (transaction s8) = Some TransferState.COMPENSATED.
Proof.
  intros Hn T7.
  assert (U : undoing (walletsAfter n) [] (beforeCompensation s7)).
  { split; [exact (tk_healthy _ _ _ _ _ T7) | exact (tk_wallets _ _ _ _ _ T7)
            | exact (tk_compensated _ _ _ _ _ T7)]. }
  destruct (undo_all n _ Hn U) as (s4 & Hloop & U4).
  rewrite <- (tk_completed _ _ _ _ _ T7) in Hloop.
  pose proof (compensateAll_runs steps (rev (SagaState.completedSteps (sagaState s7)))
                (beforeCompensation s7)) as Hruns.
  rewrite Hloop in Hruns. injection Hruns as Hs4.
  eexists. split.
  - apply (compensateSaga_run steps s7 s4 (tk_healthy _ _ _ _ _ T7) Hloop).
    exact (ud_healthy _ _ _ U4).
  - split; [exact (ud_wallets _ _ _ U4) |].
    split; [exact (ud_compensated _ _ _ U4) |].
    destruct (assignSagaState_status
                (persist (assignTransferState TransferState.COMPENSATED s4))) as [Hst Hts].
    split.
    + change (Transaction.status (transaction (assignSagaState
                (persist (assignTransferState TransferState.COMPENSATED s4))))
              = TransactionStatus.FAILED).
      rewrite Hst, Hs4. reflexivity.
    + change (Transaction.transferState (transaction (assignSagaState
                (persist (assignTransferState TransferState.COMPENSATED s4))))
              = Some TransferState.COMPENSATED).
      rewrite Hts. reflexivity.
Qed.

End Restoration.

(** The whole run. *)
Lemma injected_failure_is_compensated (context : SagaContext) (x : Transaction.t) (w : World)
    (s d : Wallet.t) (e : Exn) (i : nat) :
  faults w = [] ->
  transactionId context = Transaction.id x ->
  sourceWalletId context <> destinationWalletId context ->
  wallets w !! sourceWalletId context = Some s -> Wallet.isActive s = true ->
  wallets w !! destinationWalletId context = Some d -> Wallet.isActive d = true ->
  Wallet.currency s = Wallet.currency d ->
  amount context <= Wallet.balance s ->
  (i < 5)%nat ->
  exists s8,
    runSaga (failAt i e (createTransferSagaSteps context)) (startSaga x w) = (Throw e, s8)
    /\ wallets (world s8) = wallets w
    /\ SagaState.compensatedSteps (sagaState s8) = rev (take i transferStepNames)
    /\ Transaction.status (transaction s8) = TransactionStatus.FAILED
    /\ Transaction.transferState (transaction s8) = Some TransferState.COMPENSATED.
Proof.
  intros Hf Hid Hne Hs Hsa Hd Hda Hcur Hbal Hi.
  pose proof (tracking_start x w Hf) as T1.
  destruct (forward_until_injected_failure context x w s d e Hid Hne Hs Hsa Hd Hda Hcur Hbal
              i _ Hi T1) as (s7 & rc & Hfwd & T7).
  destruct (compensation_after_injected_failure context x w s d Hne Hs Hd Hda Hcur
              (failAt i e (createTransferSagaSteps context))
              (findStep_failAt i e (createTransferSagaSteps context)) i rc s7 Hi T7)
    as (s8 & Hcomp & Hrest).
  exists s8. split; [| exact Hrest].
  unfold runSaga, tryCatch.
  rewrite (bind_ok _ _ _ _ _ (updateSagaState_healthy (startSaga x w) Hf)).
  rewrite (bind_throw _ _ _ _ _ Hfwd).
  rewrite (bind_ok _ _ _ _ _ Hcomp). reflexivity.
Qed.

(** C2 as the specification states it, on the steps of a transfer and for
    any fault schedule: if the saga fails once [debit_source_wallet] has
    completed, both wallets end with their pre-transfer balances. *)
Definition C2_as_stated : Prop :=
  forall (context : SagaContext) (x : Transaction.t) (w : World) (s d : Wallet.t) (e : Exn),
    transactionId context = Transaction.id x ->
    wallets w !! sourceWalletId context = Some s ->
    wallets w !! destinationWalletId context = Some d ->
    let out := runSaga (createTransferSagaSteps context) (startSaga x w) in
    fst out = Throw e ->
    "debit_source_wallet" ∈ SagaState.completedSteps (sagaState (snd out)) ->
    Wallet.balance <$> wallets (world (snd out)) !! sourceWalletId context
      = Some (Wallet.balance s)
    /\ Wallet.balance <$> wallets (world (snd out)) !! destinationWalletId context
       = Some (Wallet.balance d).

(** S7 with one more fault: the first fifteen calls succeed (the saga gets
    past the debit), the read of [credit_destination_wallet] fails on each of
    its three attempts, and then the [UPDATE] of the debit's compensation
    fails too. *)
Definition creditAndCompensationFail : list bool :=
  replicate 15 false ++ [true; false; true; false; true; false; false; true].

Lemma S7_compensation_fails :
  let out := runSaga (createTransferSagaSteps (Scenario.context 15000))
               (startSaga (Scenario.pendingTransfer 15000)
                  (Scenario.worldWithTransfer 100000 0 15000 creditAndCompensationFail)) in
  fst out = Throw infrastructureFault
  /\ SagaState.completedSteps (sagaState (snd out))
     = ["debit_source_wallet"; "reserve_funds"; "validate_transfer"]
  /\ sagaLog (snd out)
     = [Executing 0 "validate_transfer"; Executing 1 "reserve_funds";
        Executing 2 "debit_source_wallet";
        Executing 3 "credit_destination_wallet"; Retrying "credit_destination_wallet" 1;
        Executing 3 "credit_destination_wallet"; Retrying "credit_destination_wallet" 2;
        Executing 3 "credit_destination_wallet";
        Compensating "debit_source_wallet"; CompensationFailed "debit_source_wallet";
        Compensating "reserve_funds"; Compensating "validate_transfer"]
  /\ SagaState.compensatedSteps (sagaState (snd out)) = ["reserve_funds"; "validate_transfer"]
  /\ Wallet.balance <$> wallets (world (snd out)) !! "w1" = Some 85000
  /\ Transaction.transferState (transaction (snd out)) = Some TransferState.COMPENSATED.
Proof. vm_compute. auto 10. Qed.

Lemma C2_counterexample : ~ C2_as_stated.
Proof.
  intros H.
  destruct S7_compensation_fails as (Hthrow & Hdone & _ & _ & Hbalance & _).
  destruct (H (Scenario.context 15000) (Scenario.pendingTransfer 15000)
              (Scenario.worldWithTransfer 100000 0 15000 creditAndCompensationFail)
              (Scenario.sourceWallet 100000) (Scenario.destinationWallet 0) _
              eq_refl eq_refl eq_refl Hthrow) as [Hsrc _].
  - rewrite Hdone. apply list_elem_of_here.
  - pose proof (eq_trans (eq_sym Hbalance) Hsrc) as Habs. discriminate Habs.
Qed.

(** C2, amended.  (1) The compensation loop never throws: it runs the
    compensate action of every named step the step list knows, in the order
    of the names, each on the world the previous one left and whether the
    previous one returned or threw; the names whose action returned are
    appended to [compensatedSteps], and a [CompensationFailed] line is
    logged for the others ([runCompensations]).  (2) When the transaction
    row can be saved, [compensateSaga] runs that loop over the completed
    steps, last completed first, and ends.  (3) On an available store, with
    distinct active wallets of the same currency and a source holding at
    least the amount, a failure injected at any of the five steps of a
    transfer makes the saga fail with the injected error; the steps
    completed before it are compensated, last completed first (for a
    failure at [finalize_transfer]: the credit is taken back from the
    destination, the debit given back to the source, the reservation
    released), the wallet table ends exactly as it was before the transfer,
    and the transaction ends [FAILED] and [COMPENSATED]. *)
Theorem compensation_runs_in_reverse_and_restores_balances :
  (forall (steps : list SagaStep) (names : list string) (s : Saga),
     compensateAll steps names s
     = (Ok tt, undone (runCompensations steps names (world s)) s))
  /\ (forall (steps : list SagaStep) (s : Saga),
        healthy s -> stepsKeepHealthy steps ->
        let u := runCompensations steps (rev (SagaState.completedSteps (sagaState s)))
                   (world (beforeCompensation s)) in
        exists s',
          compensateSaga steps s = (Ok tt, s')
          /\ wallets (world s') = wallets (un_world u)
          /\ redis (world s') = redis (un_world u)
          /\ SagaState.compensatedSteps (sagaState s')
             = SagaState.compensatedSteps (sagaState s) ++ un_compensated u
          /\ sagaLog s' = sagaLog s ++ un_log u)
  /\ (forall (context : SagaContext) (x : Transaction.t) (w : World) (s d : Wallet.t)
             (e : Exn) (i : nat),
        faults w = [] ->
        transactionId context = Transaction.id x ->
        sourceWalletId context <> destinationWalletId context ->
        wallets w !! sourceWalletId context = Some s -> Wallet.isActive s = true ->
        wallets w !! destinationWalletId context = Some d -> Wallet.isActive d = true ->
        Wallet.currency s = Wallet.currency d ->
        amount context <= Wallet.balance s ->
        (i < 5)%nat ->
        let out := runSaga (failAt i e (createTransferSagaSteps context)) (startSaga x w) in
        fst out = Throw e
        /\ wallets (world (snd out)) = wallets w
        /\ SagaState.compensatedSteps (sagaState (snd out)) = rev (take i transferStepNames)
        /\ Transaction.status (transaction (snd out)) = TransactionStatus.FAILED
        /\ Transaction.transferState (transaction (snd out)) = Some TransferState.COMPENSATED).
Proof.
  split; [| split].
  - apply compensateAll_runs.
  - apply compensateSaga_runs.
  - intros context x w s d e i Hf Hid Hne Hs Hsa Hd Hda Hcur Hbal Hi out.
    destruct (injected_failure_is_compensated context x w s d e i
                Hf Hid Hne Hs Hsa Hd Hda Hcur Hbal Hi) as (s8 & Hrun & Hrest).
    subst out. rewrite Hrun. simpl. split; [reflexivity | exact Hrest].
Qed.

(** S7 with the failure injected at the last step: both wallets were
    written, and both are back. *)
Lemma compensation_runs_in_reverse_and_restores_balances_witness :
  let w := Scenario.worldWithTransfer 100000 0 15000 [] in
  let out := runSaga (failAt 4 (Error "injected")
                        (createTransferSagaSteps (Scenario.context 15000)))
               (startSaga (Scenario.pendingTransfer 15000) w) in
  fst out = Throw (Error "injected")
  /\ wallets (world (snd out)) = wallets w
  /\ SagaState.compensatedSteps (sagaState (snd out))
     = rev (take 4 transferStepNames)
  /\ Transaction.status (transaction (snd out)) = TransactionStatus.FAILED
  /\ Transaction.transferState (transaction (snd out)) = Some TransferState.COMPENSATED.
Proof.
  destruct compensation_runs_in_reverse_and_restores_balances as (_ & _ & H).
  apply (H (Scenario.context 15000) (Scenario.pendingTransfer 15000)
           (Scenario.worldWithTransfer 100000 0 15000 [])
           (Scenario.sourceWallet 100000) (Scenario.destinationWallet 0) (Error "injected")
           4%nat).
  - reflexivity.
  - reflexivity.
  - discriminate.
  - reflexivity.
  - reflexivity.
  - reflexivity.
  - reflexivity.
  - reflexivity.
  - simpl. lia.
  - lia.
Defined.

(** The run of that witness, step by step: the four compensations, in
    reverse order, and the balances on the way. *)
Example S7_injected_at_the_last_step :
  let out := runSaga (failAt 4 (Error "injected")
                        (createTransferSagaSteps (Scenario.context 15000)))
               (startSaga (Scenario.pendingTransfer 15000)
                  (Scenario.worldWithTransfer 100000 0 15000 [])) in
  sagaLog (snd out)
  = [Executing 0 "validate_transfer"; Executing 1 "reserve_funds";
     Executing 2 "debit_source_wallet"; Executing 3 "credit_destination_wallet";
     Executing 4 "finalize_transfer";
     Compensating "credit_destination_wallet"; Compensating "debit_source_wallet";
     Compensating "reserve_funds"; Compensating "validate_transfer"]
  /\ trace (world (snd out))
     = [BalanceWrite "w1"; BalanceWrite "w2"; BalanceWrite "w2"; BalanceWrite "w1"]
  /\ Wallet.balance <$> wallets (world (snd out)) !! "w1" = Some 100000
  /\ Wallet.balance <$> wallets (world (snd out)) !! "w2" = Some 0.
Proof. vm_compute. auto. Qed.


(** ** C3: the saga writes balances without the wallet lease *)

(** Every balance write of the trace happens while the lease of its wallet
    is held; [held] are the leases held when the trace starts. *)
Fixpoint leaseDiscipline (held : list string) (tr : list Event) : bool :=
  match tr with
  | [] => true
  | LockAcquired walletId :: rest => leaseDiscipline (walletId :: held) rest
  | LockReleased walletId :: rest =>
      leaseDiscipline (filter (fun h => h <> walletId) held) rest
  | BalanceWrite walletId :: rest =>
      bool_decide (walletId ∈ held) && leaseDiscipline held rest
  end.

(** The debit step on a healthy store, from any world: it writes the source
    balance, emits no lease event and leaves the lease key as it found it. *)
Lemma debit_writes_without_lease (context : SagaContext) (w : World) (s : Wallet.t) :
  faults w = [] ->
  wallets w !! sourceWalletId context = Some s -> amount context <= Wallet.balance s ->
  fst (debitSourceWallet context w) = Ok tt
  /\ Wallet.balance <$> wallets (snd (debitSourceWallet context w)) !! sourceWalletId context
     = Some (Wallet.balance s - amount context)
  /\ trace (snd (debitSourceWallet context w))
     = trace w ++ [BalanceWrite (sourceWalletId context)]
  /\ redis (snd (debitSourceWallet context w)) !! CacheService.lockKey (sourceWalletId context)
     = redis w !! CacheService.lockKey (sourceWalletId context).
Proof.
  intros Hf Hs Hle.
  destruct (debitSourceWallet_ok context w s Hf Hs Hle)
    as (w' & -> & _ & Hw & _ & Htr & Hlock).
  simpl. rewrite Hw, lookup_insert_eq. auto.
Qed.

(** C3 (code bug).  On scenario S1 the transfer completes and its trace is
    the two balance writes of [debit_source_wallet] and
    [credit_destination_wallet], with no lease taken: the lease discipline
    fails on it, and no [wallet_lock:] key was ever set.  [addFunds], the
    other writer of balances, does take and release the lease around its
    write. *)
Theorem saga_writes_balances_without_lease :
  let transfer := TransferService.transferFunds "w1" Scenario.alice
                    (Scenario.request 15000 (Some "abc")) (Scenario.world 100000 0 []) in
  let deposit := WalletService.addFunds "w1" "u1" 5000 None (Scenario.world 100000 0 []) in
  (exists r, fst transfer = Ok r)
  /\ trace (snd transfer) = [BalanceWrite "w1"; BalanceWrite "w2"]
  /\ leaseDiscipline [] (trace (snd transfer)) = false
  /\ (exists u, fst deposit = Ok u /\ Wallet.balance u = 105000)
  /\ trace (snd deposit) = [LockAcquired "w1"; BalanceWrite "w1"; LockReleased "w1"]
  /\ leaseDiscipline [] (trace (snd deposit)) = true.
Proof. vm_compute. eauto 10. Qed.


(* ===================================================================== *)
(** * C1: a completed transfer and its replays                             *)
(* ===================================================================== *)

(** ** What a call that returned must have done *)




(** ** Computations that leave the transaction table alone *)

Definition keepsRows {A : Type} (m : M A) : Prop :=
  forall w, transactions (snd (m w)) = transactions w.

Lemma kr_ret {A : Type} (a : A) : keepsRows (ret a).
Proof. intros w. reflexivity. Qed.

Lemma kr_throw {A : Type} (e : Exn) : keepsRows (@throw World A e).
Proof. intros w. reflexivity. Qed.

Lemma kr_gets {A : Type} (f : World -> A) : keepsRows (gets f).
Proof. intros w. reflexivity. Qed.

Lemma kr_bind {A B : Type} (m : M A) (k : A -> M B) :
  keepsRows m -> (forall a, keepsRows (k a)) -> keepsRows (bind m k).
Proof.
  intros Hm Hk w. unfold bind. specialize (Hm w).
  destruct (m w) as [[a | e] w1]; simpl in *; [rewrite Hk |]; exact Hm.
Qed.

Lemma kr_tryCatch {A : Type} (m : M A) (h : Exn -> M A) :
  keepsRows m -> (forall e, keepsRows (h e)) -> keepsRows (tryCatch m h).
Proof.
  intros Hm Hh w. unfold tryCatch. specialize (Hm w).
  destruct (m w) as [[a | e] w1]; simpl in *; [| rewrite Hh]; exact Hm.
Qed.

Lemma kr_promiseAll2 {A B : Type} (m1 : M A) (m2 : M B) :
  keepsRows m1 -> keepsRows m2 -> keepsRows (promiseAll2 m1 m2).
Proof.
  intros H1 H2 w. unfold promiseAll2. specialize (H1 w).
  destruct (m1 w) as [r1 w1]; simpl in *. specialize (H2 w1).
  destruct (m2 w1) as [r2 w2]; simpl in *. destruct r1, r2; simpl; congruence.
Qed.

Lemma kr_modify (f : World -> World) :
  (forall w, transactions (f w) = transactions w) -> keepsRows (modify f).
Proof. intros Hf w. apply Hf. Qed.

Lemma kr_keepsStore {A : Type} (m : M A) : keepsStore m -> keepsRows m.
Proof. intros H w. apply frame_transactions, H. Qed.

Lemma kh_keepsStore {A : Type} (m : M A) : keepsStore m -> keepsHealthy m.
Proof. intros H w Hw. exact (frame_healthy _ _ (H w) Hw). Qed.

Lemma kr_io : keepsRows io.
Proof. apply kr_keepsStore, keepsStore_io. Qed.

Lemma kr_fresh : keepsRows fresh.
Proof. apply kr_keepsStore, keepsStore_fresh. Qed.

Lemma kr_emit (e : Event) : keepsRows (emit e).
Proof. apply kr_modify. reflexivity. Qed.

Create HintDb kr.
#[local] Hint Resolve kr_ret kr_throw kr_gets kr_io kr_fresh kr_emit : kr.

Ltac kr :=
  repeat first
    [ solve [eauto with kr]
    | apply kr_bind; [| intros ?]
    | apply kr_tryCatch; [| intros ?]
    | apply kr_promiseAll2
    | apply kr_modify; reflexivity
    | match goal with
      | |- keepsRows (match ?x with _ => _ end) => destruct x
      end ].

Lemma kr_findOne (id : string) (cond : Wallet.t -> bool) :
  keepsRows (walletRepository.findOne id cond).
Proof. unfold walletRepository.findOne. kr. Qed.

Lemma kr_updateBalanceBy (id : string) (delta : Z) :
  keepsRows (walletRepository.updateBalanceBy id delta).
Proof. unfold walletRepository.updateBalanceBy. kr. Qed.

Lemma kr_cache_get (key : string) : keepsRows (CacheService.get key).
Proof. apply kr_keepsStore, keepsStore_get. Qed.

Lemma kr_cache_set (key : string) (v : CacheVal) : keepsRows (CacheService.set key v).
Proof. apply kr_keepsStore, keepsStore_set. Qed.

Lemma kr_cache_del (key : string) : keepsRows (CacheService.del key).
Proof. unfold CacheService.del, client.del. kr. Qed.

Lemma kh_cache_del (key : string) : keepsHealthy (CacheService.del key).
Proof. unfold CacheService.del, client.del. kh. Qed.

#[local] Hint Resolve kr_findOne kr_updateBalanceBy kr_cache_get kr_cache_set kr_cache_del
  : kr.
#[local] Hint Resolve kh_cache_del : kh.

Lemma kr_refreshCache (walletId : string) (balance : Js.value) :
  keepsRows (refreshCache walletId balance).
Proof.
  unfold refreshCache, CacheService.getWalletBalanceWithVersion,
    CacheService.setWalletBalanceWithVersion. kr.
Qed.

#[local] Hint Resolve kr_refreshCache : kr.



Lemma kr_creditSourceWallet (context : SagaContext) : keepsRows (creditSourceWallet context).
Proof. unfold creditSourceWallet. kr. Qed.


Lemma kr_debitDestinationWallet (context : SagaContext) :
  keepsRows (debitDestinationWallet context).
Proof. unfold debitDestinationWallet. kr. Qed.

(** The limit ledger is another table. *)
Lemma kr_validateTransferLimits (userId : string) (amount : Z) :
  keepsRows (TransferService.validateTransferLimits userId amount).
Proof.
  unfold TransferService.validateTransferLimits, transferLimitRepository.findOne,
    transferLimitRepository.save. kr.
Qed.

Lemma kh_validateTransferLimits (userId : string) (amount : Z) :
  keepsHealthy (TransferService.validateTransferLimits userId amount).
Proof.
  unfold TransferService.validateTransferLimits, transferLimitRepository.findOne,
    transferLimitRepository.save. kh.
Qed.

#[local] Hint Resolve kr_validateTransferLimits : kr.
#[local] Hint Resolve kh_validateTransferLimits : kh.

Lemma kr_validateTransferRequest (src dst : string) (amount : Z) (user : User.t) :
  keepsRows (TransferService.validateTransferRequest src dst amount user).
Proof. unfold TransferService.validateTransferRequest. kr. Qed.





(** ** The row of the request, along the first call *)

Lemma find_app_none {A : Type} (f : A -> bool) (l1 l2 : list A) :
  existsb f l1 = false -> find f (l1 ++ l2) = find f l2.
Proof.
  induction l1 as [| y l1 IH]; simpl; [reflexivity |].
  intros H. apply orb_false_iff in H as [-> H]. apply IH. exact H.
Qed.

Lemma map_unless {A : Type} (f : A -> bool) (y : A) (l : list A) :
  existsb f l = false -> map (fun r => if f r then y else r) l = l.
Proof.
  induction l as [| z l IH]; simpl; [reflexivity |].
  intros H. apply orb_false_iff in H as [-> H]. rewrite IH by exact H. reflexivity.
Qed.

Section FirstCall.

Variables (B : list Transaction.t) (txid key : string) (a : Z).
Hypothesis HnoId : existsb (transactionRepository.hasId txid) B = false.

(** The store is available, and the table is what it was before the
    request, followed by the request's row. *)
Definition stored (w : World) : Prop :=
  faults w = []
  /\ exists r, transactions w = B ++ [r]
               /\ Transaction.id r = txid /\ Transaction.idempotencyKey r = Some key.

Definition keepsStored {A : Type} (m : M A) : Prop :=
  forall w, stored w -> stored (snd (m w)).


Lemma hasId_own (r : Transaction.t) :
  Transaction.id r = txid -> transactionRepository.hasId txid r = true.
Proof. intros H. unfold transactionRepository.hasId. apply bool_decide_eq_true_2, H. Qed.

Lemma find_request_row (r : Transaction.t) :
  Transaction.id r = txid ->
  find (transactionRepository.hasId txid) (B ++ [r]) = Some r.
Proof.
  intros Hr. rewrite (find_app_none _ _ _ HnoId). simpl. rewrite (hasId_own r Hr). reflexivity.
Qed.

Lemma replace_request_row (r r' : Transaction.t) :
  Transaction.id r = txid -> Transaction.id r' = txid ->
  transactionRepository.replaceRow r' (B ++ [r]) = B ++ [r'].
Proof.
  intros Hr Hr'. unfold transactionRepository.replaceRow. rewrite Hr'.
  rewrite existsb_app. simpl. rewrite (hasId_own r Hr), orb_true_r.
  rewrite map_app, (map_unless _ _ _ HnoId). simpl. rewrite (hasId_own r Hr). reflexivity.
Qed.

Lemma save_request_row (x : Transaction.t) (w : World) :
  stored w -> Transaction.id x = txid -> Transaction.idempotencyKey x = Some key ->
  stored (snd (transactionRepository.save x w)).
Proof.
  intros [Hf (r & Hrows & Hr & Hk)] Hx Hxk.
  rewrite (save_healthy x w Hf). simpl. split; [exact Hf |].
  exists x. rewrite Hrows, (replace_request_row r x Hr Hx). auto.
Qed.

Section StepsOfTheRequest.

Variable context : SagaContext.
Hypothesis Hcontext : transactionId context = txid.


Lemma ks_releaseReservedFunds : keepsStored (releaseReservedFunds context).
Proof.
  intros w Hw. pose proof Hw as [Hf (r & Hrows & Hr & Hk)].
  unfold releaseReservedFunds. unfold bind at 1.
  rewrite (findOneById_healthy _ w Hf), Hcontext, Hrows, (find_request_row r Hr).
  destruct (Transaction.reservedAmount r); [| exact Hw].
  apply save_request_row; [exact Hw | exact Hr | exact Hk].
Qed.




End StepsOfTheRequest.

(** The same for the coordinator: the entity object is the request's. *)
Definition storedS (s : Saga) : Prop :=
  stored (world s)
  /\ Transaction.id (transaction s) = txid
  /\ Transaction.idempotencyKey (transaction s) = Some key
  /\ Transaction.amount (transaction s) = Js.Number a.

Definition keepsStoredS {A : Type} (m : MS A) : Prop :=
  forall s, storedS s -> storedS (snd (m s)).




Lemma kS_bind {A C : Type} (m : MS A) (k : A -> MS C) :
  keepsStoredS m -> (forall v, keepsStoredS (k v)) -> keepsStoredS (bind m k).
Proof.
  intros Hm Hk s H. unfold bind. specialize (Hm s H).
  destruct (m s) as [[v | e] s1]; simpl in *; [apply Hk; exact Hm | exact Hm].
Qed.


Lemma kS_modify (f : Saga -> Saga) :
  (forall s, storedS s -> storedS (f s)) -> keepsStoredS (modify f).
Proof. intros Hf s H. apply Hf. exact H. Qed.


Lemma entity_key (s : Saga) :
  Transaction.idempotencyKey (entity s) = Transaction.idempotencyKey (transaction s).
Proof. unfold entity. destruct (Transaction.sagaState _); reflexivity. Qed.


(** A save of the entity object leaves its row, and only its row, as the
    object is. *)
Lemma persist_stored (s : Saga) :
  storedS s ->
  storedS (persist s)
  /\ transactions (world (persist s)) = B ++ [Transaction.asStored (entity s)].
Proof.
  intros ([Hf (r & Hrows & Hr & Hk)] & Hid & Hkey & Ha).
  assert (Hrows' : transactions (world (persist s))
                   = B ++ [Transaction.asStored (entity s)]).
  { unfold persist, transactionRepository.storeObject. simpl. rewrite Hrows.
    apply (replace_request_row r); [exact Hr |]. simpl. rewrite entity_id. exact Hid. }
  split; [| exact Hrows'].
  split; [| auto]. split; [exact Hf |].
  exists (Transaction.asStored (entity s)). split; [exact Hrows' |].
  simpl. rewrite entity_id, entity_key. auto.
Qed.

Lemma kS_saveTransaction : keepsStoredS saveTransaction.
Proof.
  intros s H. pose proof H as ([Hf _] & _).
  rewrite (saveTransaction_healthy s Hf). apply persist_stored. exact H.
Qed.


Lemma storedS_assignStatus (st : TransactionStatus.t) (s : Saga) :
  storedS s -> storedS (assignStatus st s).
Proof.
  intros (Hw & Hid & Hkey & Ha). unfold assignStatus.
  destruct (bool_decide (st = TransactionStatus.FAILED)); (split; [exact Hw | auto]).
Qed.



Lemma kS_updateTransactionStatus (st : TransactionStatus.t) :
  keepsStoredS (updateTransactionStatus st).
Proof.
  unfold updateTransactionStatus. apply kS_bind; [| intros _; apply kS_saveTransaction].
  apply kS_modify. apply storedS_assignStatus.
Qed.







End FirstCall.

(** ** The first call *)


Lemma resultKey_not_requestKey (k : string) :
  "idempotency_request:" +:+ k <> IdempotencyService.resultKey k.
Proof.
  unfold IdempotencyService.resultKey. cbv [String.append]. intros H. discriminate H.
Qed.

Lemma storeResult_healthy (k : string) (r : TransferResponseDto.t) (w : World) :
  faults w = [] ->
  IdempotencyService.storeResult k r w
  = (Ok tt,
     set_redis (<["idempotency_request:" +:+ k := CRequestStatus (now w)]>
                  (<[IdempotencyService.resultKey k := CResult r]> (redis w))) w).
Proof.
  intros Hf. unfold IdempotencyService.storeResult, tryCatch.
  unfold bind at 1. rewrite (set_healthy _ _ w Hf).
  unfold bind, gets. rewrite set_healthy by exact Hf. reflexivity.
Qed.


(** ** The replays *)


Section Replay.

Variables (key : string) (x : Transaction.t).
Hypothesis Hcompleted : Transaction.status x = TransactionStatus.COMPLETED.




End Replay.




(** ** C1: the replay of a completed transfer *)













(* ===================================================================== *)
(** * The limit ledger along a transfer                                   *)
(* ===================================================================== *)

(** ** Computations that leave the ledger alone, whatever the fault schedule *)

Definition keepsLedger {A : Type} (m : M A) : Prop :=
  forall w, transferLimits (snd (m w)) = transferLimits w.

Lemma kl_ret {A : Type} (a : A) : keepsLedger (ret a).
Proof. intros w. reflexivity. Qed.

Lemma kl_throw {A : Type} (e : Exn) : keepsLedger (@throw World A e).
Proof. intros w. reflexivity. Qed.

Lemma kl_gets {A : Type} (f : World -> A) : keepsLedger (gets f).
Proof. intros w. reflexivity. Qed.

Lemma kl_bind {A B : Type} (m : M A) (k : A -> M B) :
  keepsLedger m -> (forall a, keepsLedger (k a)) -> keepsLedger (bind m k).
Proof.
  intros Hm Hk w. unfold bind. specialize (Hm w).
  destruct (m w) as [[a | e] w1]; simpl in *; [rewrite Hk |]; exact Hm.
Qed.

Lemma kl_tryCatch {A : Type} (m : M A) (h : Exn -> M A) :
  keepsLedger m -> (forall e, keepsLedger (h e)) -> keepsLedger (tryCatch m h).
Proof.
  intros Hm Hh w. unfold tryCatch. specialize (Hm w).
  destruct (m w) as [[a | e] w1]; simpl in *; [| rewrite Hh]; exact Hm.
Qed.

Lemma kl_promiseAll2 {A B : Type} (m1 : M A) (m2 : M B) :
  keepsLedger m1 -> keepsLedger m2 -> keepsLedger (promiseAll2 m1 m2).
Proof.
  intros H1 H2 w. unfold promiseAll2. specialize (H1 w).
  destruct (m1 w) as [r1 w1]; simpl in *. specialize (H2 w1).
  destruct (m2 w1) as [r2 w2]; simpl in *. destruct r1, r2; simpl; congruence.
Qed.

Lemma kl_modify (f : World -> World) :
  (forall w, transferLimits (f w) = transferLimits w) -> keepsLedger (modify f).
Proof. intros Hf w. apply Hf. Qed.

Lemma kl_io : keepsLedger io.
Proof. intros w. unfold io. fault_cases w; reflexivity. Qed.

Lemma kl_fresh : keepsLedger fresh.
Proof. intros w. unfold fresh. destruct (entropy w); reflexivity. Qed.

Lemma kl_emit (e : Event) : keepsLedger (emit e).
Proof. apply kl_modify. reflexivity. Qed.

Create HintDb kl.
#[local] Hint Resolve kl_ret kl_throw kl_gets kl_io kl_fresh kl_emit : kl.

Ltac kl :=
  repeat first
    [ solve [eauto with kl]
    | apply kl_bind; [| intros ?]
    | apply kl_tryCatch; [| intros ?]
    | apply kl_promiseAll2
    | apply kl_modify; reflexivity
    | match goal with
      | |- keepsLedger (match ?x with _ => _ end) => destruct x
      | |- keepsLedger (if ?x then _ else _) => destruct x
      end ].

Lemma kl_findOne (id : string) (cond : Wallet.t -> bool) :
  keepsLedger (walletRepository.findOne id cond).
Proof. unfold walletRepository.findOne. kl. Qed.

Lemma kl_updateBalanceBy (id : string) (delta : Z) :
  keepsLedger (walletRepository.updateBalanceBy id delta).
Proof. unfold walletRepository.updateBalanceBy. kl. Qed.

Lemma kl_findOneById (id : string) : keepsLedger (transactionRepository.findOneById id).
Proof. unfold transactionRepository.findOneById. kl. Qed.

Lemma kl_save (x : Transaction.t) : keepsLedger (transactionRepository.save x).
Proof. unfold transactionRepository.save. kl. Qed.

Lemma kl_saveObject (x : Transaction.t) : keepsLedger (transactionRepository.saveObject x).
Proof. unfold transactionRepository.saveObject. kl. Qed.

Lemma kl_insert (x : Transaction.t) : keepsLedger (transactionRepository.insert x).
Proof. unfold transactionRepository.insert. kl. Qed.

Lemma kl_cache_get (key : string) : keepsLedger (CacheService.get key).
Proof. unfold CacheService.get, client.get. kl. Qed.

Lemma kl_cache_set (key : string) (v : CacheVal) : keepsLedger (CacheService.set key v).
Proof. unfold CacheService.set, client.set. kl. Qed.

Lemma kl_cache_del (key : string) : keepsLedger (CacheService.del key).
Proof. unfold CacheService.del, client.del. kl. Qed.

#[local] Hint Resolve kl_findOne kl_updateBalanceBy kl_findOneById kl_save kl_saveObject
  kl_insert kl_cache_get kl_cache_set kl_cache_del : kl.

Lemma kl_refreshCache (walletId : string) (balance : Js.value) :
  keepsLedger (refreshCache walletId balance).
Proof.
  unfold refreshCache, CacheService.getWalletBalanceWithVersion,
    CacheService.setWalletBalanceWithVersion. kl.
Qed.

#[local] Hint Resolve kl_refreshCache : kl.

Lemma transferSteps_keepLedger (context : SagaContext) :
  Forall (fun step => keepsLedger (execute step) /\ keepsLedger (compensate step))
    (createTransferSagaSteps context).
Proof.
  unfold createTransferSagaSteps.
  repeat apply Forall_cons_2; try apply Forall_nil_2; simpl; split;
    unfold validateTransfer, reserveFunds, releaseReservedFunds, debitSourceWallet,
      creditSourceWallet, creditDestinationWallet, debitDestinationWallet, finalizeTransfer,
      setSourceBalanceBefore, setDestinationBalanceBefore; kl.
Qed.

(** The same for the coordinator. *)
Definition keepsLedgerS {A : Type} (m : MS A) : Prop :=
  forall s, transferLimits (world (snd (m s))) = transferLimits (world s).

Lemma klS_ret {A : Type} (a : A) : keepsLedgerS (ret a).
Proof. intros s. reflexivity. Qed.

Lemma klS_throw {A : Type} (e : Exn) : keepsLedgerS (@throw Saga A e).
Proof. intros s. reflexivity. Qed.

Lemma klS_gets {A : Type} (f : Saga -> A) : keepsLedgerS (gets f).
Proof. intros s. reflexivity. Qed.

Lemma klS_bind {A B : Type} (m : MS A) (k : A -> MS B) :
  keepsLedgerS m -> (forall a, keepsLedgerS (k a)) -> keepsLedgerS (bind m k).
Proof.
  intros Hm Hk s. unfold bind. specialize (Hm s).
  destruct (m s) as [[a | e] s1]; simpl in *; [rewrite Hk |]; exact Hm.
Qed.

Lemma klS_tryCatch {A : Type} (m : MS A) (h : Exn -> MS A) :
  keepsLedgerS m -> (forall e, keepsLedgerS (h e)) -> keepsLedgerS (tryCatch m h).
Proof.
  intros Hm Hh s. unfold tryCatch. specialize (Hm s).
  destruct (m s) as [[a | e] s1]; simpl in *; [| rewrite Hh]; exact Hm.
Qed.

Lemma klS_modify (f : Saga -> Saga) :
  (forall s, world (f s) = world s) -> keepsLedgerS (modify f).
Proof. intros Hf s. unfold modify. simpl. rewrite Hf. reflexivity. Qed.

Lemma klS_liftW {A : Type} (m : M A) : keepsLedger m -> keepsLedgerS (liftW m).
Proof.
  intros Hm s. unfold liftW. specialize (Hm (world s)).
  destruct (m (world s)) as [r w1]. exact Hm.
Qed.

Lemma klS_logSaga (l : SagaLog) : keepsLedgerS (logSaga l).
Proof. apply klS_modify. reflexivity. Qed.

Lemma klS_updSagaState (f : SagaState.t -> SagaState.t) : keepsLedgerS (updSagaState f).
Proof. apply klS_modify. reflexivity. Qed.

Lemma klS_saveTransaction : keepsLedgerS saveTransaction.
Proof.
  unfold saveTransaction. apply klS_bind; [apply klS_gets |].
  intros x. apply klS_liftW, kl_saveObject.
Qed.

Lemma klS_updateSagaState : keepsLedgerS updateSagaState.
Proof.
  unfold updateSagaState. apply klS_bind; [| intros _; apply klS_saveTransaction].
  apply klS_modify. intros s. unfold assignSagaState. destruct (SagaState.lastError _); reflexivity.
Qed.

Lemma klS_updateTransactionStatus (status : TransactionStatus.t) :
  keepsLedgerS (updateTransactionStatus status).
Proof.
  unfold updateTransactionStatus. apply klS_bind; [| intros _; apply klS_saveTransaction].
  apply klS_modify. reflexivity.
Qed.

Lemma klS_updateTransferState (transferState : TransferState.t) :
  keepsLedgerS (updateTransferState transferState).
Proof.
  unfold updateTransferState. apply klS_bind; [| intros _; apply klS_saveTransaction].
  apply klS_modify. reflexivity.
Qed.

Create HintDb klS.
#[local] Hint Resolve klS_ret klS_throw klS_gets klS_logSaga klS_updSagaState
  klS_saveTransaction klS_updateSagaState klS_updateTransactionStatus
  klS_updateTransferState : klS.

Ltac klS :=
  repeat first
    [ solve [eauto with klS]
    | apply klS_bind; [| intros ?]
    | apply klS_tryCatch; [| intros ?]
    | apply klS_modify; reflexivity
    | match goal with
      | |- keepsLedgerS (match ?x with _ => _ end) => destruct x
      | |- keepsLedgerS (if ?x then _ else _) => destruct x
      end ].

Section Coordinator.

Variable steps : list SagaStep.
Hypothesis Hsteps :
  Forall (fun step => keepsLedger (execute step) /\ keepsLedger (compensate step)) steps.

Lemma klS_completeSaga : keepsLedgerS completeSaga.
Proof. unfold completeSaga. klS. Qed.

Lemma findStep_keepsLedger (stepName : string) (step : SagaStep) :
  findStep steps stepName = Some step ->
  keepsLedger (execute step) /\ keepsLedger (compensate step).
Proof.
  unfold findStep. intros H. apply find_some in H as [Hin _].
  rewrite Forall_forall in Hsteps. apply Hsteps. apply list_elem_of_In. exact Hin.
Qed.

Lemma klS_compensateStep (stepName : string) : keepsLedgerS (compensateStep steps stepName).
Proof.
  unfold compensateStep. destruct (findStep steps stepName) as [step |] eqn:E; [| klS].
  destruct (findStep_keepsLedger _ _ E) as [_ Hc].
  apply klS_tryCatch; [| intros ?; klS].
  apply klS_bind; [klS | intros _].
  apply klS_bind; [apply klS_liftW, Hc | intros _]. klS.
Qed.

Lemma klS_compensateAll (names : list string) : keepsLedgerS (compensateAll steps names).
Proof.
  induction names as [| n names IH]; simpl; [klS |].
  apply klS_bind; [apply klS_compensateStep | intros _; exact IH].
Qed.

Lemma klS_compensateSaga : keepsLedgerS (compensateSaga steps).
Proof.
  unfold compensateSaga.
  apply klS_bind; [klS | intros _]. apply klS_bind; [klS | intros _].
  apply klS_bind; [klS | intros _]. apply klS_bind; [klS | intros names].
  apply klS_bind; [apply klS_compensateAll | intros _]. klS.
Qed.

End Coordinator.

Lemma klS_attempt (fuel i : nat) (step : SagaStep) :
  keepsLedger (execute step) -> keepsLedgerS (attempt fuel i step).
Proof.
  intros He. induction fuel as [| fuel IH]; simpl.
  - apply klS_bind; [klS | intros _]. apply klS_bind; [klS | intros _].
    apply klS_tryCatch; [| intros ?; klS].
    apply klS_bind; [apply klS_liftW, He | intros _]. klS.
  - apply klS_bind; [klS | intros _]. apply klS_bind; [klS | intros _].
    apply klS_tryCatch.
    + apply klS_bind; [apply klS_liftW, He | intros _]. klS.
    + intros e. apply klS_bind; [klS | intros _]. apply klS_bind; [klS | intros n].
      destruct (retryable step && (n <? maxRetries step)%nat); [| klS].
      apply klS_bind; [klS | intros _]. apply klS_bind; [klS | intros _].
      apply klS_bind; [klS | intros _]. exact IH.
Qed.

Lemma klS_executeSteps (steps : list SagaStep) :
  Forall (fun step => keepsLedger (execute step) /\ keepsLedger (compensate step)) steps ->
  forall i, keepsLedgerS (executeSteps i steps).
Proof.
  induction 1 as [| step steps [He _] _ IH]; intros i; simpl; [klS |].
  apply klS_bind; [apply klS_attempt, He | intros _; apply IH].
Qed.

Lemma kl_executeSaga (x : Transaction.t) (steps : list SagaStep) :
  Forall (fun step => keepsLedger (execute step) /\ keepsLedger (compensate step)) steps ->
  keepsLedger (executeSaga x steps).
Proof.
  intros Hsteps w. unfold executeSaga.
  assert (Hrun : keepsLedgerS (runSaga steps)).
  { unfold runSaga. apply klS_tryCatch.
    - apply klS_bind; [klS | intros _].
      apply klS_bind; [apply klS_executeSteps, Hsteps | intros _].
      apply klS_completeSaga.
    - intros e. apply klS_bind; [apply klS_compensateSaga, Hsteps | intros _]. klS. }
  specialize (Hrun (startSaga x w)).
  destruct (runSaga steps (startSaga x w)) as [r s]. exact Hrun.
Qed.

Lemma kl_storeResult (key : string) (result : TransferResponseDto.t) :
  keepsLedger (IdempotencyService.storeResult key result).
Proof. unfold IdempotencyService.storeResult. kl. Qed.

Lemma kl_storeFailure (key : string) (error : Exn) :
  keepsLedger (IdempotencyService.storeFailure key error).
Proof. unfold IdempotencyService.storeFailure. kl. Qed.

(** ** The usage update keeps the reset dates *)

(** Two ledger rows with the same reset dates. *)
Definition sameResets (l l' : TransferLimit.t) : Prop :=
  TransferLimit.lastDailyReset l' = TransferLimit.lastDailyReset l
  /\ TransferLimit.lastMonthlyReset l' = TransferLimit.lastMonthlyReset l.

(** The ledger holds a row of the user with the reset dates of [l]. *)
Definition resetsKept (userId : string) (l : TransferLimit.t) (w : World) : Prop :=
  exists l', transferLimits w !! userId = Some l' /\ TransferLimit.userId l' = userId
             /\ sameResets l l'.

Lemma resetsKept_ledger (userId : string) (l : TransferLimit.t) (w w' : World) :
  transferLimits w' = transferLimits w -> resetsKept userId l w -> resetsKept userId l w'.
Proof. unfold resetsKept. intros ->. auto. Qed.

Lemma updateTransferLimitsUsage_keeps_resets (userId : string) (amount : Z)
    (l : TransferLimit.t) (w : World) :
  resetsKept userId l w ->
  resetsKept userId l (snd (TransferService.updateTransferLimitsUsage userId amount w)).
Proof.
  intros (l' & Hl' & Hu & Hd & Hm).
  unfold TransferService.updateTransferLimitsUsage. unfold bind at 1.
  unfold transferLimitRepository.findOne. unfold bind at 1.
  pose proof (kl_io w) as Hio.
  destruct (io w) as [[[] | e] w1]; simpl in Hio |- *;
    [| exists l'; rewrite Hio; unfold sameResets; auto].
  rewrite Hio, Hl'.
  unfold bind at 1.
  match goal with
  | |- context [transferLimitRepository.saveUsage l' ?d ?m w1] =>
      assert (Hsave :
        resetsKept userId l (snd (transferLimitRepository.saveUsage l' d m w1)));
      [| destruct (transferLimitRepository.saveUsage l' d m w1) as [[[] | e] w2];
         simpl in Hsave |- *; [| exact Hsave]]
  end.
  - match goal with
    | |- resetsKept _ _ (snd (transferLimitRepository.saveUsage _ ?d ?m _)) =>
        generalize d, m
    end.
    intros dailyUsed monthlyUsed.
    unfold transferLimitRepository.saveUsage. unfold bind.
    pose proof (kl_io w1) as Hio1.
    destruct (io w1) as [[[] | e] w2]; cbn [snd] in Hio1 |- *;
      [| exists l'; rewrite Hio1, Hio; unfold sameResets; auto].
    destruct (Js.column dailyUsed) as [d |]; [destruct (Js.column monthlyUsed) as [m |] |];
      try (exists l'; unfold throw; cbn [snd]; rewrite Hio1, Hio; unfold sameResets; auto).
    unfold modify. cbn [snd]. rewrite Hu.
    eexists. split; [apply lookup_insert_eq |].
    split; [exact Hu |]. split; simpl; assumption.
  - refine (resetsKept_ledger _ _ _ _ _ Hsave).
    apply (kl_bind _ _ (kl_cache_del _) (fun _ => kl_cache_del _)).
Qed.

(** [executeTransferSaga], the part of a transfer that follows the limit
    check: whatever it does and however it ends, the row of the user keeps
    its reset dates. *)
Lemma executeTransferSaga_keeps_resets (src dst : string) (amount : Z)
    (description : option string) (user : User.t) (key : string) (ext : option string)
    (l : TransferLimit.t) (w : World) :
  resetsKept (User.id user) l w ->
  resetsKept (User.id user) l
    (snd (TransferService.executeTransferSaga src dst amount description user key ext w)).
Proof.
  intros H. unfold TransferService.executeTransferSaga.
  unfold bind at 1.
  assert (Hc : keepsLedger (TransferService.createTransactionRecord src dst amount description
                              user key ext))
    by (unfold TransferService.createTransactionRecord; kl).
  specialize (Hc w).
  destruct (TransferService.createTransactionRecord _ _ _ _ _ _ _ w) as [[x | e] w1];
    simpl in Hc |- *; [| exact (resetsKept_ledger _ _ _ _ Hc H)].
  unfold bind at 1. unfold modify at 1.
  unfold bind at 1.
  match goal with
  | |- context [executeSaga x ?steps ?w0] =>
      pose proof (kl_executeSaga x steps (transferSteps_keepLedger _) w0) as Hs;
      destruct (executeSaga x steps w0) as [[done | e] w2]
  end; simpl in Hs |- *.
  - assert (H2 : resetsKept (User.id user) l w2)
      by (apply (resetsKept_ledger _ _ w); [rewrite Hs; exact Hc | exact H]).
    pose proof (updateTransferLimitsUsage_keeps_resets (User.id user) amount l w2 H2) as Hu.
    unfold bind.
    destruct (TransferService.updateTransferLimitsUsage (User.id user) amount w2)
      as [[[] | e] w3]; exact Hu.
  - apply (resetsKept_ledger _ _ w); [rewrite Hs; exact Hc | exact H].
Qed.

Lemma resetWindows_userId (today currentMonth : Z) (l : TransferLimit.t) :
  TransferLimit.userId (resetWindows today currentMonth l) = TransferLimit.userId l.
Proof.
  unfold resetWindows. destruct (_ <? today); simpl; destruct (_ <? currentMonth); reflexivity.
Qed.

Lemma ledger_set_faults (fs : list bool) (w : World) :
  transferLimits (set_faults fs w) = transferLimits w.
Proof. reflexivity. Qed.

(** C5, amended.  On a healthy store the check resets the expired windows on
    the row it loaded, and then either returns, the stored row being the
    reset row (counters zeroed, reset dates set, nothing added), or throws a
    [BadRequestException], the ledger table being exactly what it was, the
    reset included: the reset is stored only by a check that passes.  A
    window that was just reset is checked on the amount alone: an amount
    above the daily limit after a daily reset, or above the monthly limit
    after a monthly reset, is rejected and the reset is lost; with both
    windows reset, an amount within both limits passes and the reset is
    stored.  A reset that was stored stays: whatever the rest of the
    transfer ([executeTransferSaga]) does from then on, under any fault
    schedule and whether it returns or throws, the row of the user keeps the
    reset dates. *)
Theorem validateTransferLimits_saves_reset_only_when_check_passes :
  forall (userId : string) (amount : Z) (w : World) (l : TransferLimit.t),
    faults w = [] ->
    transferLimits w !! userId = Some l ->
    TransferLimit.userId l = userId ->
    0 <= TransferLimit.dailyLimit l ->
    0 <= TransferLimit.monthlyLimit l ->
    let l' := resetWindows (today w) (currentMonth w) l in
    let out := TransferService.validateTransferLimits userId amount w in
    (TransferLimit.lastDailyReset l < today w ->
       TransferLimit.dailyUsed l' = 0 /\ TransferLimit.lastDailyReset l' = today w)
    /\ (TransferLimit.lastMonthlyReset l < currentMonth w ->
       TransferLimit.monthlyUsed l' = 0 /\ TransferLimit.lastMonthlyReset l' = currentMonth w)
    /\ (resetSaved userId l' w out \/ rejectedUnsaved w out)
    /\ (TransferLimit.lastDailyReset l < today w ->
        TransferLimit.dailyLimit l < amount -> rejectedUnsaved w out)
    /\ (TransferLimit.lastMonthlyReset l < currentMonth w ->
        TransferLimit.monthlyLimit l < amount -> rejectedUnsaved w out)
    /\ (TransferLimit.lastDailyReset l < today w ->
        TransferLimit.lastMonthlyReset l < currentMonth w ->
        amount <= TransferLimit.dailyLimit l -> amount <= TransferLimit.monthlyLimit l ->
        resetSaved userId l' w out)
    /\ (forall (src dst : string) (description : option string) (user : User.t)
               (key : string) (ext : option string) (w2 : World),
          User.id user = userId ->
          resetSaved userId l' w out ->
          transferLimits w2 = transferLimits (snd out) ->
          exists l2,
            transferLimits
              (snd (TransferService.executeTransferSaga src dst amount description user
                      key ext w2)) !! userId = Some l2
            /\ TransferLimit.lastDailyReset l2 = TransferLimit.lastDailyReset l'
            /\ TransferLimit.lastMonthlyReset l2 = TransferLimit.lastMonthlyReset l').
Proof.
  intros userId amount w l Hf Hl Hu Hd Hm l' out.
  split; [apply resetWindows_daily |]. split; [apply resetWindows_monthly |].
  assert (Hkeep :
    forall (src dst : string) (description : option string) (user : User.t)
           (key : string) (ext : option string) (w2 : World),
      User.id user = userId ->
      resetSaved userId l' w out ->
      transferLimits w2 = transferLimits (snd out) ->
      exists l2,
        transferLimits
          (snd (TransferService.executeTransferSaga src dst amount description user
                  key ext w2)) !! userId = Some l2
        /\ TransferLimit.lastDailyReset l2 = TransferLimit.lastDailyReset l'
        /\ TransferLimit.lastMonthlyReset l2 = TransferLimit.lastMonthlyReset l').
  { intros src dst description user key ext w2 Huser [_ Hsaved] Hsame.
    assert (Hkept : resetsKept (User.id user) l' w2).
    { exists l'. rewrite Huser, Hsame, Hsaved. split; [apply lookup_insert_eq |].
      split; [unfold l'; rewrite resetWindows_userId; exact Hu | split; reflexivity]. }
    destruct (executeTransferSaga_keeps_resets src dst amount description user key ext
                l' w2 Hkept) as (l2 & Hl2 & _ & Hd2 & Hm2).
    rewrite Huser in Hl2. exists l2. auto. }
  refine ((fun H => match H with
                    | conj a (conj b (conj c d)) => conj a (conj b (conj c (conj d Hkeep)))
                    end) _).
  pose proof (validateTransferLimits_healthy userId amount w l Hf Hl Hu) as Hrun.
  cbv zeta in Hrun. fold out in Hrun. fold l' in Hrun.
  unfold resetSaved, rejectedUnsaved, TransferService.limitExceeded.
  assert (Hdaily : TransferLimit.lastDailyReset l < today w ->
            Js.gt (Js.add (TransferService.usedValue
                             (TransferLimit.lastDailyReset l <? today w)
                             (TransferLimit.dailyUsed l)) (Js.Number amount))
                  (TransferService.limitValue (TransferLimit.dailyLimit l))
            = (TransferLimit.dailyLimit l <? amount)).
  { intros H. apply Z.ltb_lt in H. rewrite H. simpl.
    apply gt_number_column. exact Hd. }
  assert (Hmonthly : TransferLimit.lastMonthlyReset l < currentMonth w ->
            Js.gt (Js.add (TransferService.usedValue
                             (TransferLimit.lastMonthlyReset l <? currentMonth w)
                             (TransferLimit.monthlyUsed l)) (Js.Number amount))
                  (TransferService.limitValue (TransferLimit.monthlyLimit l))
            = (TransferLimit.monthlyLimit l <? amount)).
  { intros H. apply Z.ltb_lt in H. rewrite H. simpl.
    apply gt_number_column. exact Hm. }
  repeat split.
  - rewrite Hrun. destruct (Js.gt _ _); [right; simpl; eauto |].
    destruct (Js.gt _ _); [right; simpl; eauto | left; simpl; auto].
  - rewrite Hrun, (Hdaily H). apply Z.ltb_lt in H0. rewrite H0. simpl. eauto.
  - rewrite Hrun, (Hdaily H). apply Z.ltb_lt in H0. rewrite H0. reflexivity.
  - rewrite Hrun, (Hmonthly H). apply Z.ltb_lt in H0. rewrite H0.
    destruct (Js.gt _ _); simpl; eauto.
  - rewrite Hrun, (Hmonthly H). apply Z.ltb_lt in H0. rewrite H0.
    destruct (Js.gt _ _); reflexivity.
  - rewrite Hrun, (Hdaily H), (Hmonthly H0).
    apply Z.ltb_ge in H1, H2. rewrite H1, H2. reflexivity.
  - rewrite Hrun, (Hdaily H), (Hmonthly H0).
    apply Z.ltb_ge in H1, H2. rewrite H1, H2. reflexivity.
Qed.

Lemma validateTransferLimits_saves_reset_only_when_check_passes_witness :
  (* both windows expired: 25.00 is within both limits, the reset row is stored *)
  (let w := Scenario.withLedger (TransferLimit.Build "l1" 10000 10000000 8000 8000 0 0 "u1")
              (Scenario.world 100000 0 []) in
   transferLimits (snd (TransferService.validateTransferLimits "u1" 2500 w)) !! "u1"
   = Some (TransferLimit.Build "l1" 10000 10000000 0 0 1000 1000 "u1"))
  (* daily window expired: 150.00 is above the daily limit, the ledger keeps the stale row *)
  /\ (let w := Scenario.withLedger (Scenario.ledger 10000 8000 0) (Scenario.world 100000 0 []) in
      transferLimits (snd (TransferService.validateTransferLimits "u1" 15000 w))
      = transferLimits w)
  (* the reset stored by the first check survives a transfer that fails *)
  /\ (let w := Scenario.withLedger (TransferLimit.Build "l1" 10000 10000000 8000 8000 0 0 "u1")
                (Scenario.world 100000 0 []) in
      let w2 := set_faults [false; true; true; true]
                  (snd (TransferService.validateTransferLimits "u1" 2500 w)) in
      let out2 := TransferService.executeTransferSaga "w1" "w2" 2500 None Scenario.alice
                    "abc" None w2 in
      fst out2 = Throw infrastructureFault
      /\ exists l2,
           transferLimits (snd out2) !! "u1" = Some l2
           /\ TransferLimit.lastDailyReset l2 = 1000
           /\ TransferLimit.lastMonthlyReset l2 = 1000).
Proof.
  split; [| split].
  - intros w.
    destruct (validateTransferLimits_saves_reset_only_when_check_passes
                "u1" 2500 w (TransferLimit.Build "l1" 10000 10000000 8000 8000 0 0 "u1")
                eq_refl eq_refl eq_refl ltac:(simpl; lia) ltac:(simpl; lia))
      as (_ & _ & _ & _ & _ & Hpass & _).
    destruct (Hpass ltac:(simpl; lia) ltac:(simpl; lia) ltac:(simpl; lia) ltac:(simpl; lia))
      as [_ ->].
    vm_compute. reflexivity.
  - intros w.
    destruct (validateTransferLimits_saves_reset_only_when_check_passes
                "u1" 15000 w (Scenario.ledger 10000 8000 0)
                eq_refl eq_refl eq_refl ltac:(simpl; lia) ltac:(simpl; lia))
      as (_ & _ & _ & Hfail & _).
    destruct (Hfail ltac:(simpl; lia) ltac:(simpl; lia)) as [_ ->]. reflexivity.
  - intros w w2 out2. split; [vm_compute; reflexivity |].
    destruct (validateTransferLimits_saves_reset_only_when_check_passes
                "u1" 2500 w (TransferLimit.Build "l1" 10000 10000000 8000 8000 0 0 "u1")
                eq_refl eq_refl eq_refl ltac:(simpl; lia) ltac:(simpl; lia))
      as (_ & _ & _ & _ & _ & Hpass & Hkeep).
    exact (Hkeep "w1" "w2" None Scenario.alice "abc" None w2 eq_refl
             (Hpass ltac:(simpl; lia) ltac:(simpl; lia) ltac:(simpl; lia) ltac:(simpl; lia))
             (ledger_set_faults _ _)).
Defined.


(* ===================================================================== *)
(** * The cache service: the lease and the versioned balance entry        *)
(* ===================================================================== *)

(** ** The wallet lease *)

(** The token [acquireWalletLock] writes: the clock and the next value of
    the entropy source. *)
Definition leaseToken (w : World) : string :=
  pretty (now w) +:+ "_" +:+ hd "" (entropy w).

(** The world [acquireWalletLock] leaves when it takes a free lease. *)
Definition leased (walletId : string) (w : World) : World :=
  set_trace (trace w ++ [LockAcquired walletId])
    (set_redis (<[CacheService.lockKey walletId := CString (leaseToken w)]> (redis w))
       (snd (fresh w))).

(** The world [releaseWalletLock] leaves when it gives the lease back. *)
Definition unleased (walletId : string) (w : World) : World :=
  set_trace (trace w ++ [LockReleased walletId])
    (set_redis (delete (CacheService.lockKey walletId) (redis w)) w).

Lemma fresh_spec (w : World) :
  fst (fresh w) = Ok (hd "" (entropy w))
  /\ faults (snd (fresh w)) = faults w /\ redis (snd (fresh w)) = redis w
  /\ now (snd (fresh w)) = now w /\ trace (snd (fresh w)) = trace w
  /\ wallets (snd (fresh w)) = wallets w /\ transactions (snd (fresh w)) = transactions w
  /\ transferLimits (snd (fresh w)) = transferLimits w.
Proof. unfold fresh. destruct (entropy w); simpl; auto 10. Qed.

Lemma fresh_eq (w : World) : fresh w = (Ok (hd "" (entropy w)), set_entropy (tl (entropy w)) w).
Proof. unfold fresh. destruct w as [? ? ? ? ? ? ? [| e es] ? ? ? ?]; reflexivity. Qed.

Lemma leased_eq (walletId : string) (w : World) :
  leased walletId w
  = set_trace (trace w ++ [LockAcquired walletId])
      (set_redis (<[CacheService.lockKey walletId := CString (leaseToken w)]> (redis w))
         (set_entropy (tl (entropy w)) w)).
Proof. unfold leased. rewrite fresh_eq. reflexivity. Qed.

Lemma acquireWalletLock_held (walletId : string) (w : World) (holder : CacheVal) :
  redis w !! CacheService.lockKey walletId = Some holder ->
  fst (CacheService.acquireWalletLock walletId w) = Ok None
  /\ redis (snd (CacheService.acquireWalletLock walletId w)) = redis w
  /\ frame w (snd (CacheService.acquireWalletLock walletId w)).
Proof.
  intros Hheld.
  unfold CacheService.acquireWalletLock, client.setNX, fresh, io, frame. unfold_monad.
  destruct (entropy w); simpl; fault_cases w; simpl; rewrite ?Hheld; simpl;
    repeat split; auto; intros; congruence.
Qed.

Lemma acquireWalletLock_free (walletId : string) (w : World) :
  faults w = [] ->
  redis w !! CacheService.lockKey walletId = None ->
  CacheService.acquireWalletLock walletId w = (Ok (Some (leaseToken w)), leased walletId w).
Proof.
  intros Hf Hfree.
  unfold leased, leaseToken.
  unfold CacheService.acquireWalletLock, client.setNX, fresh, io, emit.
  unfold_monad.
  destruct (entropy w); simpl; rewrite Hf; simpl; rewrite Hfree; reflexivity.
Qed.

Lemma releaseWalletLock_own (walletId token : string) (w : World) :
  faults w = [] ->
  redis w !! CacheService.lockKey walletId = Some (CString token) ->
  CacheService.releaseWalletLock walletId token w = (Ok true, unleased walletId w).
Proof.
  intros Hf Hheld.
  unfold CacheService.releaseWalletLock, client.compareAndDelete, io, unleased, emit.
  unfold_monad. rewrite Hf, Hheld. simpl.
  rewrite bool_decide_eq_true_2 by reflexivity. reflexivity.
Qed.

(** X1.  While the lease of a wallet is held (its key is set in Redis),
    [withWalletLock] on that wallet throws the "unable to acquire" error
    without running the operation: whatever the operation and the fault
    schedule, wallets, transactions, limits, Redis and the event trace are
    as before. *)
Theorem withWalletLock_fails_when_lease_is_held :
  forall (A : Type) (walletId : string) (operation : M A) (timeoutMs : Z) (w : World)
         (holder : CacheVal),
    redis w !! CacheService.lockKey walletId = Some holder ->
    let out := CacheService.withWalletLock walletId operation timeoutMs w in
    fst out = Throw (CacheService.unableToAcquire walletId timeoutMs)
    /\ wallets (snd out) = wallets w
    /\ transactions (snd out) = transactions w
    /\ transferLimits (snd out) = transferLimits w
    /\ redis (snd out) = redis w
    /\ trace (snd out) = trace w.
Proof.
  intros A walletId operation timeoutMs w holder Hheld. cbv zeta.
  destruct (acquireWalletLock_held walletId w holder Hheld) as (Hr & Hredis & Hframe).
  unfold CacheService.withWalletLock, bind.
  destruct (CacheService.acquireWalletLock walletId w) as [r w'].
  simpl in Hr, Hredis, Hframe. subst r. simpl.
  destruct Hframe as (? & ? & ? & ? & _). auto 10.
Qed.

Lemma withWalletLock_fails_when_lease_is_held_witness :
  let w := set_redis {[CacheService.lockKey "w1" := CString "4000_other"]}
             (Scenario.world 100000 0 []) in
  let out := CacheService.withWalletLock "w1" (walletRepository.updateBalanceBy "w1" 500)
               30000 w in
  fst out = Throw (Error "Unable to acquire lock for wallet w1 within 30000ms")
  /\ wallets (snd out) = wallets w
  /\ transactions (snd out) = transactions w
  /\ transferLimits (snd out) = transferLimits w
  /\ redis (snd out) = redis w
  /\ trace (snd out) = trace w.
Proof.
  exact (withWalletLock_fails_when_lease_is_held unit "w1"
           (walletRepository.updateBalanceBy "w1" 500) 30000
           (set_redis {[CacheService.lockKey "w1" := CString "4000_other"]}
              (Scenario.world 100000 0 []))
           (CString "4000_other") eq_refl).
Defined.

(** X2.  [releaseWalletLock] never throws, and it deletes the lease only when
    the key holds the caller's own token: with any other content (another
    holder's token, or no lease at all) it answers [false] and leaves Redis
    and the trace as they are, whatever the fault schedule. *)
Theorem releaseWalletLock_spares_a_foreign_lease :
  forall (walletId lockValue : string) (w : World),
    (exists released, fst (CacheService.releaseWalletLock walletId lockValue w) = Ok released)
    /\ (redis w !! CacheService.lockKey walletId <> Some (CString lockValue) ->
        fst (CacheService.releaseWalletLock walletId lockValue w) = Ok false
        /\ redis (snd (CacheService.releaseWalletLock walletId lockValue w)) = redis w
        /\ trace (snd (CacheService.releaseWalletLock walletId lockValue w)) = trace w).
Proof.
  intros walletId lockValue w.
  unfold CacheService.releaseWalletLock, client.compareAndDelete, io, emit. unfold_monad.
  split.
  - fault_cases w; simpl; eauto;
      destruct (redis w !! CacheService.lockKey walletId) as [[] |]; simpl; eauto;
      destruct (bool_decide _); simpl; eauto.
  - intros Hother.
    fault_cases w; simpl; auto;
      destruct (redis w !! CacheService.lockKey walletId) as [[] |] eqn:E; simpl; auto;
      destruct (bool_decide _) eqn:Eb; simpl; auto;
      apply bool_decide_eq_true_1 in Eb; subst; contradiction.
Qed.

Lemma releaseWalletLock_spares_a_foreign_lease_witness :
  let w := set_redis {[CacheService.lockKey "w1" := CString "4000_other"]}
             (Scenario.world 100000 0 []) in
  fst (CacheService.releaseWalletLock "w1" "5000_mine" w) = Ok false
  /\ redis (snd (CacheService.releaseWalletLock "w1" "5000_mine" w)) = redis w
  /\ trace (snd (CacheService.releaseWalletLock "w1" "5000_mine" w)) = trace w.
Proof.
  apply (releaseWalletLock_spares_a_foreign_lease "w1" "5000_mine"
           (set_redis {[CacheService.lockKey "w1" := CString "4000_other"]}
              (Scenario.world 100000 0 []))).
  vm_compute. discriminate.
Defined.

Lemma withWalletLock_healthy {A : Type} (walletId : string) (operation : M A)
    (timeoutMs : Z) (w : World) (outcome : Res A) (w2 : World) :
  faults w = [] ->
  redis w !! CacheService.lockKey walletId = None ->
  operation (leased walletId w) = (outcome, w2) ->
  faults w2 = [] ->
  redis w2 !! CacheService.lockKey walletId = Some (CString (leaseToken w)) ->
  CacheService.withWalletLock walletId operation timeoutMs w
  = (outcome, unleased walletId w2).
Proof.
  intros Hf Hfree Hop Hf2 Hkept.
  unfold CacheService.withWalletLock.
  rewrite (bind_ok _ _ _ _ _ (acquireWalletLock_free walletId w Hf Hfree)).
  unfold tryFinally. rewrite Hop.
  rewrite (bind_ok _ _ _ _ _ (releaseWalletLock_own walletId _ w2 Hf2 Hkept)).
  reflexivity.
Qed.

(** X3.  On an available Redis with the lease free, [withWalletLock] runs the
    operation in the world where the lease key holds a fresh token, and gives
    the lease back on both exits: whether the operation returns or throws,
    its outcome is passed on and the key is deleted again (provided the
    operation left the lease key alone and Redis stayed available). *)
Theorem withWalletLock_releases_on_both_exits :
  forall (A : Type) (walletId : string) (operation : M A) (timeoutMs : Z) (w : World)
         (outcome : Res A) (w2 : World),
    faults w = [] ->
    redis w !! CacheService.lockKey walletId = None ->
    operation (leased walletId w) = (outcome, w2) ->
    faults w2 = [] ->
    redis w2 !! CacheService.lockKey walletId = Some (CString (leaseToken w)) ->
    redis (leased walletId w) !! CacheService.lockKey walletId = Some (CString (leaseToken w))
    /\ CacheService.withWalletLock walletId operation timeoutMs w
       = (outcome, unleased walletId w2)
    /\ redis (unleased walletId w2) !! CacheService.lockKey walletId = None.
Proof.
  intros A walletId operation timeoutMs w outcome w2 Hf Hfree Hop Hf2 Hkept.
  split; [| split].
  - unfold leased. simpl. apply lookup_insert_eq.
  - apply withWalletLock_healthy; assumption.
  - unfold unleased. simpl. apply lookup_delete_eq.
Qed.

(** An operation that writes a balance and then fails. *)
Definition writeThenFail : M unit :=
  walletRepository.updateBalanceBy "w1" 500 ;; throw (Error "late failure").

Lemma withWalletLock_releases_on_both_exits_witness :
  let w := Scenario.world 100000 0 [] in
  CacheService.withWalletLock "w1" writeThenFail 30000 w
  = (Throw (Error "late failure"), unleased "w1" (snd (writeThenFail (leased "w1" w)))).
Proof.
  refine (proj1 (proj2 (withWalletLock_releases_on_both_exits unit "w1" writeThenFail 30000
           (Scenario.world 100000 0 []) (Throw (Error "late failure")) _
           eq_refl eq_refl _ _ _))).
  - vm_compute. reflexivity.
  - vm_compute. reflexivity.
  - vm_compute. reflexivity.
Defined.

(** ** The versioned balance entry *)

(** What [getWalletBalanceWithVersion] reads from an available Redis. *)
Definition cachedEntry (walletId : string) (w : World) : option (option Q * Z) :=
  match truthy (redis w !! CacheService.balanceKey walletId) with
  | Some (CBalance b v _) => Some (Js.parseFloat b, v)
  | _ => None
  end.

Lemma getWalletBalanceWithVersion_healthy (walletId : string) (w : World) :
  faults w = [] ->
  CacheService.getWalletBalanceWithVersion walletId w = (Ok (cachedEntry walletId w), w).
Proof.
  intros Hf. unfold CacheService.getWalletBalanceWithVersion, cachedEntry.
  rewrite (bind_ok _ _ _ _ _ (get_healthy _ w Hf)).
  destruct (truthy _) as [[] |]; reflexivity.
Qed.

Lemma setWalletBalanceWithVersion_healthy (walletId : string) (b : Js.value) (v : Z)
    (w : World) :
  faults w = [] ->
  CacheService.setWalletBalanceWithVersion walletId b v w
  = (Ok tt,
     set_redis (<[CacheService.balanceKey walletId := CBalance (Js.toString b) v (now w)]>
                  (redis w)) w).
Proof.
  intros Hf. unfold CacheService.setWalletBalanceWithVersion. unfold bind at 1. unfold gets.
  apply set_healthy. exact Hf.
Qed.

Lemma cachedEntry_insert (walletId : string) (b : string) (v t : Z)
    (r : gmap string CacheVal) (w : World) :
  cachedEntry walletId (set_redis (<[CacheService.balanceKey walletId := CBalance b v t]> r) w)
  = Some (Js.parseFloat b, v).
Proof. unfold cachedEntry. simpl. rewrite lookup_insert_eq. reflexivity. Qed.

Lemma cachedEntry_delete (walletId : string) (r : gmap string CacheVal) (w : World) :
  r !! CacheService.balanceKey walletId = None ->
  cachedEntry walletId (set_redis r w) = None.
Proof. intros H. unfold cachedEntry. simpl. rewrite H. reflexivity. Qed.

Lemma lookup_foldr_delete (keys : list string) (k : string) (r : gmap string CacheVal) :
  k ∈ keys -> foldr delete r keys !! k = None.
Proof.
  induction keys as [| k' keys IH]; intros Hin.
  - inversion Hin.
  - simpl. destruct (decide (k' = k)) as [-> | Hne].
    + apply lookup_delete_eq.
    + rewrite lookup_delete_ne by exact Hne. apply IH.
      apply elem_of_cons in Hin as [-> | Hin]; [contradiction | exact Hin].
Qed.

(** X4.  [updateWalletBalanceIfVersionMatches] never throws, and with a
    cached entry whose version differs from [expectedVersion] it answers
    [false] and leaves Redis exactly as it was, whatever the fault schedule. *)
Theorem updateWalletBalanceIfVersionMatches_refuses_a_stale_version :
  forall (walletId : string) (newBalance expectedVersion newVersion : Z) (w : World),
    let out := CacheService.updateWalletBalanceIfVersionMatches walletId newBalance
                 expectedVersion newVersion w in
    (exists updated, fst out = Ok updated)
    /\ (forall b v t,
          redis w !! CacheService.balanceKey walletId = Some (CBalance b v t) ->
          v <> expectedVersion ->
          fst out = Ok false /\ redis (snd out) = redis w).
Proof.
  intros walletId newBalance expectedVersion newVersion w.
  unfold CacheService.updateWalletBalanceIfVersionMatches, client.setIfVersionMatches, io.
  unfold_monad. simpl. split.
  - fault_cases w; simpl; eauto;
      destruct (redis w !! CacheService.balanceKey walletId) as [[] |]; simpl; eauto;
      destruct (bool_decide _); simpl; eauto.
  - intros b v t Hentry Hstale.
    fault_cases w; simpl; auto; rewrite Hentry;
      rewrite bool_decide_eq_false_2 by exact Hstale; simpl; auto.
Qed.

Lemma updateWalletBalanceIfVersionMatches_refuses_a_stale_version_witness :
  let w := set_redis {[CacheService.balanceKey "w1" := CBalance "1000.00" 7 4000]}
             (Scenario.world 100000 0 []) in
  fst (CacheService.updateWalletBalanceIfVersionMatches "w1" 85000 6 7 w) = Ok false
  /\ redis (snd (CacheService.updateWalletBalanceIfVersionMatches "w1" 85000 6 7 w)) = redis w.
Proof.
  apply (proj2 (updateWalletBalanceIfVersionMatches_refuses_a_stale_version "w1" 85000 6 7
                  (set_redis {[CacheService.balanceKey "w1" := CBalance "1000.00" 7 4000]}
                     (Scenario.world 100000 0 []))) "1000.00" 7 4000).
  - reflexivity.
  - lia.
Defined.

(** X5.  On an available Redis, when the balance key is missing or holds
    [expectedVersion], [updateWalletBalanceIfVersionMatches] answers [true],
    a following [getWalletBalanceWithVersion] reads the text of the new
    balance back, with the new version, and no other key is touched. *)
Theorem updateWalletBalanceIfVersionMatches_installs_the_new_version :
  forall (walletId : string) (newBalance expectedVersion newVersion : Z) (w : World),
    faults w = [] ->
    (redis w !! CacheService.balanceKey walletId = None
     \/ exists b t,
          redis w !! CacheService.balanceKey walletId = Some (CBalance b expectedVersion t)) ->
    let out := CacheService.updateWalletBalanceIfVersionMatches walletId newBalance
                 expectedVersion newVersion w in
    fst out = Ok true
    /\ fst (CacheService.getWalletBalanceWithVersion walletId (snd out))
       = Ok (Some (Js.parseFloat (Js.numberText newBalance), newVersion))
    /\ (forall k, k <> CacheService.balanceKey walletId ->
                  redis (snd out) !! k = redis w !! k).
Proof.
  intros walletId newBalance expectedVersion newVersion w Hf Hentry.
  assert (Hrun : CacheService.updateWalletBalanceIfVersionMatches walletId newBalance
                   expectedVersion newVersion w
                 = (Ok true,
                    set_redis (<[CacheService.balanceKey walletId
                                 := CBalance (Js.numberText newBalance) newVersion (now w)]>
                                 (redis w)) w)).
  { unfold CacheService.updateWalletBalanceIfVersionMatches, client.setIfVersionMatches.
    unfold_monad. rewrite (io_healthy w Hf).
    destruct Hentry as [-> | (b & t & ->)]; [reflexivity |].
    rewrite bool_decide_eq_true_2 by reflexivity. reflexivity. }
  cbv zeta. rewrite Hrun. simpl. split; [reflexivity | split].
  - rewrite getWalletBalanceWithVersion_healthy by exact Hf.
    simpl. rewrite cachedEntry_insert. reflexivity.
  - intros k Hk. apply lookup_insert_ne. congruence.
Qed.

Lemma updateWalletBalanceIfVersionMatches_installs_the_new_version_witness :
  let w := set_redis {[CacheService.balanceKey "w1" := CBalance "1000.00" 7 4000]}
             (Scenario.world 100000 0 []) in
  let out := CacheService.updateWalletBalanceIfVersionMatches "w1" 85050 7 8 w in
  fst out = Ok true
  /\ fst (CacheService.getWalletBalanceWithVersion "w1" (snd out))
     = Ok (Some (Js.parseFloat "850.5", 8))
  /\ (forall k, k <> CacheService.balanceKey "w1" -> redis (snd out) !! k = redis w !! k).
Proof.
  apply (updateWalletBalanceIfVersionMatches_installs_the_new_version "w1" 85050 7 8
           (set_redis {[CacheService.balanceKey "w1" := CBalance "1000.00" 7 4000]}
              (Scenario.world 100000 0 []))).
  - reflexivity.
  - right. exists "1000.00", 4000. reflexivity.
Defined.

Lemma del_healthy (key : string) (w : World) :
  faults w = [] -> CacheService.del key w = (Ok tt, set_redis (delete key (redis w)) w).
Proof.
  intros Hf. unfold CacheService.del, client.del. unfold_monad.
  rewrite (io_healthy w Hf). reflexivity.
Qed.

(** X6.  Round trips of the balance entry on an available Redis:
    [getWalletBalanceWithVersion] reads the number at the head of the text
    [setWalletBalanceWithVersion] wrote ([parseFloat] of [toString]), with
    the version written; the legacy [setWalletBalance] stores version 1
    whatever version the entry had; after [invalidateWalletBalance], and
    after [invalidateWalletBalances] of a list that names the wallet,
    [getWalletBalance] misses. *)
Theorem balance_entry_round_trips :
  forall (walletId : string) (balance : Js.value) (cents version : Z)
         (walletIds : list string) (w : World),
    faults w = [] ->
    fst (CacheService.getWalletBalanceWithVersion walletId
           (snd (CacheService.setWalletBalanceWithVersion walletId balance version w)))
      = Ok (Some (Js.parseFloat (Js.toString balance), version))
    /\ fst (CacheService.getWalletBalanceWithVersion walletId
              (snd (CacheService.setWalletBalance walletId cents w)))
       = Ok (Some (Js.parseFloat (Js.numberText cents), 1))
    /\ fst (CacheService.getWalletBalance walletId
              (snd (CacheService.invalidateWalletBalance walletId w)))
       = Ok None
    /\ (walletId ∈ walletIds ->
        fst (CacheService.getWalletBalance walletId
               (snd (CacheService.invalidateWalletBalances walletIds w)))
        = Ok None).
Proof.
  intros walletId balance cents version walletIds w Hf.
  repeat split.
  - rewrite setWalletBalanceWithVersion_healthy by exact Hf. simpl.
    rewrite getWalletBalanceWithVersion_healthy by exact Hf.
    simpl. rewrite cachedEntry_insert. reflexivity.
  - unfold CacheService.setWalletBalance.
    rewrite setWalletBalanceWithVersion_healthy by exact Hf. simpl.
    rewrite getWalletBalanceWithVersion_healthy by exact Hf.
    simpl. rewrite cachedEntry_insert. reflexivity.
  - unfold CacheService.invalidateWalletBalance, promiseAll2, bind, ret.
    rewrite (del_healthy _ w Hf).
    rewrite del_healthy by exact Hf. simpl.
    unfold CacheService.getWalletBalance, bind.
    rewrite getWalletBalanceWithVersion_healthy by exact Hf.
    rewrite cachedEntry_delete by apply lookup_delete_eq. reflexivity.
  - intros Hin.
    unfold CacheService.invalidateWalletBalances.
    rewrite bool_decide_eq_false_2
      by (destruct walletIds; [inversion Hin | discriminate]).
    unfold client.delMany. unfold_monad. rewrite (io_healthy w Hf). simpl.
    unfold CacheService.getWalletBalance, bind.
    rewrite getWalletBalanceWithVersion_healthy by exact Hf.
    rewrite cachedEntry_delete; [reflexivity |].
    apply lookup_foldr_delete. apply list_elem_of_In, in_flat_map.
    exists walletId. split; [apply list_elem_of_In; exact Hin | simpl; auto].
Qed.

Lemma balance_entry_round_trips_witness :
  let w := set_redis {[CacheService.balanceKey "w1" := CBalance "1000.00" 7 4000]}
             (Scenario.world 100000 0 []) in
  fst (CacheService.getWalletBalanceWithVersion "w1"
         (snd (CacheService.setWalletBalance "w1" 85000 w)))
    = Ok (Some (Js.parseFloat "850", 1))
  /\ fst (CacheService.getWalletBalance "w1"
            (snd (CacheService.invalidateWalletBalances ["w2"; "w1"] w)))
     = Ok None.
Proof.
  destruct (balance_entry_round_trips "w1" (Js.Number 85000) 85000 1 ["w2"; "w1"]
              (set_redis {[CacheService.balanceKey "w1" := CBalance "1000.00" 7 4000]}
                 (Scenario.world 100000 0 [])) eq_refl) as (_ & Hset & _ & Hdel).
  split; [exact Hset | apply Hdel].
  apply list_elem_of_In. simpl. auto.
Defined.


(* ===================================================================== *)
(** * The wallet service                                                  *)
(* ===================================================================== *)

Lemma entropy_fresh (w : World) : entropy (snd (fresh w)) = tl (entropy w).
Proof. unfold fresh. destruct (entropy w) eqn:E; simpl; [symmetry |]; auto. Qed.

Lemma insert_healthy (x : Transaction.t) (w : World) :
  faults w = [] ->
  match Transaction.idempotencyKey x with
  | Some k => existsb (transactionRepository.hasKey k) (transactions w)
  | None => false
  end = false ->
  existsb (transactionRepository.hasId (hd "" (entropy w))) (transactions w) = false ->
  transactionRepository.insert x w
  = (Ok (Transaction.set_generated (hd "" (entropy w)) (now w) x),
     set_transactions
       (transactions w
        ++ [Transaction.asStored (Transaction.set_generated (hd "" (entropy w)) (now w) x)])
       (snd (fresh w))).
Proof.
  intros Hf Hkey Hid. unfold transactionRepository.insert. unfold_monad.
  rewrite (io_healthy w Hf). unfold fresh.
  destruct (entropy w); simpl in *; rewrite Hkey, Hid; reflexivity.
Qed.

(** ** Computations that leave the tables alone, whatever the fault schedule *)

Definition keepsDurable {A : Type} (m : M A) : Prop :=
  forall w, durable (snd (m w)) = durable w.

Lemma kd_ret {A : Type} (a : A) : keepsDurable (ret a).
Proof. intros w. reflexivity. Qed.

Lemma kd_throw {A : Type} (e : Exn) : keepsDurable (@throw World A e).
Proof. intros w. reflexivity. Qed.

Lemma kd_gets {A : Type} (f : World -> A) : keepsDurable (gets f).
Proof. intros w. reflexivity. Qed.

Lemma kd_bind {A B : Type} (m : M A) (k : A -> M B) :
  keepsDurable m -> (forall a, keepsDurable (k a)) -> keepsDurable (bind m k).
Proof.
  intros Hm Hk w. unfold bind. specialize (Hm w).
  destruct (m w) as [[a | e] w1]; simpl in *; [| exact Hm].
  rewrite Hk. exact Hm.
Qed.

Lemma kd_tryCatch {A : Type} (m : M A) (h : Exn -> M A) :
  keepsDurable m -> (forall e, keepsDurable (h e)) -> keepsDurable (tryCatch m h).
Proof.
  intros Hm Hh w. unfold tryCatch. specialize (Hm w).
  destruct (m w) as [[a | e] w1]; simpl in *; [exact Hm |].
  rewrite Hh. exact Hm.
Qed.

Lemma kd_tryFinally {A : Type} (m : M A) (fin : M unit) :
  keepsDurable m -> keepsDurable fin -> keepsDurable (tryFinally m fin).
Proof.
  intros Hm Hfin w. unfold tryFinally. specialize (Hm w).
  destruct (m w) as [r w1]. specialize (Hfin w1).
  destruct (fin w1) as [[u | e] w2]; simpl in *; congruence.
Qed.

Lemma kd_promiseAll2 {A B : Type} (m1 : M A) (m2 : M B) :
  keepsDurable m1 -> keepsDurable m2 -> keepsDurable (promiseAll2 m1 m2).
Proof.
  intros H1 H2 w. unfold promiseAll2. specialize (H1 w).
  destruct (m1 w) as [r1 w1]. specialize (H2 w1).
  destruct (m2 w1) as [r2 w2]. destruct r1, r2; simpl in *; congruence.
Qed.

Lemma kd_modify (f : World -> World) :
  (forall w, durable (f w) = durable w) -> keepsDurable (modify f).
Proof. intros H w. apply H. Qed.

Lemma kd_io : keepsDurable io.
Proof. intros w. unfold io. fault_cases w; reflexivity. Qed.

Lemma kd_fresh : keepsDurable fresh.
Proof. intros w. rewrite fresh_eq. reflexivity. Qed.

Lemma kd_emit (e : Event) : keepsDurable (emit e).
Proof. intros w. reflexivity. Qed.

Create HintDb kd.
#[local] Hint Resolve kd_ret kd_throw kd_gets kd_io kd_fresh kd_emit : kd.

Ltac kd :=
  repeat first
    [ solve [eauto with kd]
    | apply kd_bind; [| intros ?]
    | apply kd_tryCatch; [| intros ?]
    | apply kd_tryFinally
    | apply kd_promiseAll2
    | apply kd_modify; reflexivity
    | match goal with
      | |- keepsDurable (match ?x with _ => _ end) => destruct x
      | |- keepsDurable (if ?x then _ else _) => destruct x
      end ].

Lemma kd_findOne (id : string) (cond : Wallet.t -> bool) :
  keepsDurable (walletRepository.findOne id cond).
Proof. unfold walletRepository.findOne. kd. Qed.

Lemma kd_cache_get (key : string) : keepsDurable (CacheService.get key).
Proof. unfold CacheService.get, client.get. kd. Qed.

Lemma kd_cache_set (key : string) (v : CacheVal) : keepsDurable (CacheService.set key v).
Proof. unfold CacheService.set, client.set. kd. Qed.

Lemma kd_cache_del (key : string) : keepsDurable (CacheService.del key).
Proof. unfold CacheService.del, client.del. kd. Qed.

#[local] Hint Resolve kd_findOne kd_cache_get kd_cache_set kd_cache_del : kd.

Lemma kd_acquireWalletLock (walletId : string) :
  keepsDurable (CacheService.acquireWalletLock walletId).
Proof. unfold CacheService.acquireWalletLock, client.setNX. kd. Qed.

Lemma kd_releaseWalletLock (walletId lockValue : string) :
  keepsDurable (CacheService.releaseWalletLock walletId lockValue).
Proof. unfold CacheService.releaseWalletLock, client.compareAndDelete. kd. Qed.

#[local] Hint Resolve kd_acquireWalletLock kd_releaseWalletLock : kd.

Lemma kd_withWalletLock {A : Type} (walletId : string) (operation : M A) (timeoutMs : Z) :
  keepsDurable operation ->
  keepsDurable (CacheService.withWalletLock walletId operation timeoutMs).
Proof. intros Hop. unfold CacheService.withWalletLock. kd. Qed.

Lemma kd_getWalletBalanceWithVersion (walletId : string) :
  keepsDurable (CacheService.getWalletBalanceWithVersion walletId).
Proof. unfold CacheService.getWalletBalanceWithVersion. kd. Qed.

Lemma kd_getWalletBalanceWithVersion' (walletId : string) :
  keepsDurable (CacheService.getWalletBalanceWithVersion' walletId).
Proof. unfold CacheService.getWalletBalanceWithVersion'. kd. Qed.

Lemma kd_setWalletBalanceWithVersion (walletId : string) (b : Js.value) (v : Z) :
  keepsDurable (CacheService.setWalletBalanceWithVersion walletId b v).
Proof. unfold CacheService.setWalletBalanceWithVersion. kd. Qed.

#[local] Hint Resolve kd_withWalletLock kd_getWalletBalanceWithVersion
  kd_getWalletBalanceWithVersion' kd_setWalletBalanceWithVersion : kd.

(** ** [addFunds] *)

(** The operation [addFunds] runs under the lease. *)
Definition deposit (walletId userId : string) (amount : Z) (description : option string)
    : M Wallet.t :=
  wallet <- walletRepository.findOne walletId (ownedActive userId) ;;
  match wallet with
  | None => throw (NotFoundException "Wallet not found")
  | Some _ =>
      io ;;
      queryRunner.startTransaction ;;
      tryFinally
        (tryCatch
           (cachedData <- CacheService.getWalletBalanceWithVersion walletId ;;
            let newVersion := match cachedData with
                              | Some (_, version) => version
                              | None => 0
                              end + 1 in
            walletRepository.updateBalanceBy walletId amount ;;
            transactionRepository.insert
              (WalletService.depositRecord walletId amount description) ;;
            updatedWallet <- walletRepository.findOne walletId any ;;
            match updatedWallet with
            | None => throw (Error "Failed to retrieve updated wallet")
            | Some u =>
                queryRunner.commitTransaction ;;
                CacheService.setWalletBalanceWithVersion walletId (balanceOf u)
                  newVersion ;;
                ret u
            end)
           (fun error => queryRunner.rollbackTransaction ;; throw error))
        io
  end.

Lemma addFunds_deposit (walletId userId : string) (amount : Z)
    (description : option string) :
  0 < amount ->
  WalletService.addFunds walletId userId amount description
  = CacheService.withWalletLock walletId (deposit walletId userId amount description) 30000.
Proof.
  intros Hpos. unfold WalletService.addFunds.
  destruct (amount <=? 0) eqn:E; [apply Z.leb_le in E; lia | reflexivity].
Qed.

(** The version [addFunds] gives the cache entry: one more than the cached
    version, or 1 when nothing is cached. *)
Definition depositVersion (walletId : string) (w : World) : Z :=
  match cachedEntry walletId w with
  | Some (_, version) => version
  | None => 0
  end + 1.

(** The row [addFunds] inserts in world [w]: its id is the next value of the
    entropy source, its amount the text of the column. *)
Definition depositRow (walletId : string) (amount : Z) (description : option string)
    (w : World) : Transaction.t :=
  Transaction.asStored
    (Transaction.set_generated (hd "" (entropy w)) (now w)
       (WalletService.depositRecord walletId amount description)).

(** The world [deposit] leaves on an available store. *)
Definition deposited (walletId : string) (amount : Z) (description : option string)
    (x : Wallet.t) (w : World) : World :=
  set_redis
    (<[CacheService.balanceKey walletId
       := CBalance (Js.pgDecimal (Wallet.balance x + amount)) (depositVersion walletId w)
            (now w)]> (redis w))
    (set_openTransaction None
       (set_transactions (transactions w ++ [depositRow walletId amount description w])
          (set_entropy (tl (entropy w))
             (set_trace (trace w ++ [BalanceWrite walletId])
                (set_wallets
                   (<[walletId := Wallet.set_balance (Wallet.balance x + amount) x]>
                      (wallets w)) w))))).

Lemma deposit_healthy (walletId userId : string) (amount : Z) (description : option string)
    (w : World) (x : Wallet.t) :
  faults w = [] ->
  wallets w !! walletId = Some x ->
  Wallet.userId x = userId -> Wallet.isActive x = true ->
  existsb (transactionRepository.hasId (hd "" (entropy w))) (transactions w) = false ->
  deposit walletId userId amount description w
  = (Ok (Wallet.set_balance (Wallet.balance x + amount) x),
     deposited walletId amount description x w).
Proof.
  intros Hf Hx Hown Hact Hid. unfold deposit.
  rewrite (bind_ok _ _ _ _ _ (findOne_healthy walletId _ w Hf)).
  rewrite Hx. unfold ownedActive.
  rewrite bool_decide_eq_true_2 by exact Hown. rewrite Hact. simpl.
  rewrite (bind_ok _ _ _ _ _ (io_healthy w Hf)).
  unfold queryRunner.startTransaction, queryRunner.commitTransaction,
    transactionRepository.insert, walletRepository.updateBalanceBy,
    walletRepository.findOne, CacheService.setWalletBalanceWithVersion, CacheService.set,
    client.set, emit.
  unfold tryFinally, tryCatch, bind, modify, gets, ret.
  repeat (first [ rewrite io_healthy by exact Hf
                | rewrite getWalletBalanceWithVersion_healthy by exact Hf
                | rewrite fresh_eq
                | rewrite Hx
                | rewrite Hid
                | rewrite lookup_insert_eq ]; simpl).
  reflexivity.
Qed.

(** X7.  A deposit on an available store and Redis, for a positive amount on
    an active wallet of the caller whose lease is free: [addFunds] returns the
    wallet with the amount added, the stored balance is the old one plus the
    amount, one COMPLETED deposit row is appended, the cache entry holds the
    column text of the new balance, which reads back as that balance, with
    the version bumped by one, the lease is free again and the database
    transaction closed, and the balance was written between taking the lease
    and giving it back. *)
Theorem addFunds_adds_the_amount_under_the_lease :
  forall (walletId userId : string) (amount : Z) (description : option string)
         (w : World) (x : Wallet.t),
    faults w = [] ->
    0 < amount ->
    wallets w !! walletId = Some x ->
    Wallet.userId x = userId -> Wallet.isActive x = true ->
    0 <= Wallet.balance x ->
    redis w !! CacheService.lockKey walletId = None ->
    existsb (transactionRepository.hasId (hd "" (tl (entropy w)))) (transactions w) = false ->
    let out := WalletService.addFunds walletId userId amount description w in
    let credited := Wallet.set_balance (Wallet.balance x + amount) x in
    fst out = Ok credited
    /\ wallets (snd out) = <[walletId := credited]> (wallets w)
    /\ transactions (snd out)
       = transactions w
         ++ [Transaction.asStored
               (Transaction.set_generated (hd "" (tl (entropy w))) (now w)
                  (WalletService.depositRecord walletId amount description))]
    /\ (exists t, redis (snd out) !! CacheService.balanceKey walletId
                  = Some (CBalance (Js.pgDecimal (Wallet.balance x + amount))
                            (depositVersion walletId w) t))
    /\ cachedEntry walletId (snd out)
       = Some (Some (inject_Z (Wallet.balance x + amount)), depositVersion walletId w)
    /\ redis (snd out) !! CacheService.lockKey walletId = None
    /\ openTransaction (snd out) = None
    /\ trace (snd out)
       = trace w ++ [LockAcquired walletId; BalanceWrite walletId; LockReleased walletId].
Proof.
  intros walletId userId amount description w x Hf Hpos Hx Hown Hact Hbal Hfree Hid.
  assert (Hversion : depositVersion walletId (leased walletId w) = depositVersion walletId w).
  { unfold depositVersion, cachedEntry. rewrite leased_eq. simpl.
    rewrite lookup_insert_ne by apply lockKey_not_balanceKey. reflexivity. }
  assert (Hrun :
    WalletService.addFunds walletId userId amount description w
    = (Ok (Wallet.set_balance (Wallet.balance x + amount) x),
       unleased walletId (deposited walletId amount description x (leased walletId w)))).
  { rewrite addFunds_deposit by exact Hpos.
    apply withWalletLock_healthy; try assumption.
    - apply deposit_healthy; rewrite ?leased_eq; simpl; assumption.
    - rewrite leased_eq. exact Hf.
    - rewrite leased_eq. unfold deposited. simpl.
      rewrite lookup_insert_ne
        by (intros Heq; symmetry in Heq; exact (lockKey_not_balanceKey _ _ Heq)).
      apply lookup_insert_eq. }
  cbv zeta. rewrite Hrun. unfold unleased, deposited, depositRow.
  rewrite Hversion. rewrite leased_eq. simpl.
  split; [reflexivity |]. split; [reflexivity |]. split; [reflexivity |].
  split; [| split; [| split; [| split; [reflexivity |]]]].
  - eexists. rewrite lookup_delete_ne by apply lockKey_not_balanceKey.
    apply lookup_insert_eq.
  - unfold cachedEntry. simpl.
    rewrite lookup_delete_ne by apply lockKey_not_balanceKey.
    rewrite lookup_insert_eq. simpl.
    rewrite parseFloat_pgDecimal by lia. reflexivity.
  - apply lookup_delete_eq.
  - rewrite <- !app_assoc. reflexivity.
Qed.

Lemma addFunds_adds_the_amount_under_the_lease_witness :
  let out := WalletService.addFunds "w1" "u1" 5000 None (Scenario.world 100000 0 []) in
  fst out = Ok (Scenario.sourceWallet 105000)
  /\ Wallet.balance <$> wallets (snd out) !! "w1" = Some 105000
  /\ cachedEntry "w1" (snd out) = Some (Some (inject_Z 105000), 1)
  /\ trace (snd out) = [LockAcquired "w1"; BalanceWrite "w1"; LockReleased "w1"].
Proof.
  destruct (addFunds_adds_the_amount_under_the_lease "w1" "u1" 5000 None
              (Scenario.world 100000 0 []) (Scenario.sourceWallet 100000)
              eq_refl eq_refl eq_refl eq_refl eq_refl ltac:(vm_compute; discriminate)
              eq_refl eq_refl)
    as (Hres & Hw & _ & _ & Hc & _ & _ & Htr).
  split; [exact Hres | split; [| split; [exact Hc | exact Htr]]].
  rewrite Hw. vm_compute. reflexivity.
Defined.

(** The wallet a caller may use: the row, when it is the caller's and active. *)
Definition accessible (walletId userId : string) (w : World) : option Wallet.t :=
  match wallets w !! walletId with
  | Some x => if ownedActive userId x then Some x else None
  | None => None
  end.

Lemma accessible_durable (walletId userId : string) (w w' : World) :
  durable w' = durable w -> accessible walletId userId w' = accessible walletId userId w.
Proof. unfold durable, accessible. intros [= -> _ _]. reflexivity. Qed.

Lemma deposit_inaccessible (walletId userId : string) (amount : Z)
    (description : option string) (w : World) :
  accessible walletId userId w = None ->
  (exists e, fst (deposit walletId userId amount description w) = Throw e)
  /\ durable (snd (deposit walletId userId amount description w)) = durable w
  /\ (faults w = [] ->
      deposit walletId userId amount description w
      = (Throw (NotFoundException "Wallet not found"), w)).
Proof.
  unfold accessible. intros Hno.
  unfold deposit, walletRepository.findOne, io. unfold_monad.
  fault_cases w; simpl; rewrite ?Hno; simpl; eauto 10; (split; [eauto |]; split; auto; discriminate).
Qed.

(** X8.  [addFunds] on a wallet that is missing, inactive or owned by someone
    else always throws and never changes a wallet, a transaction or a limit
    row, whatever the fault schedule; with the store and Redis available, the
    lease free and a positive amount, the error is the 404 "Wallet not found"
    and the lease is free again afterwards. *)
Theorem addFunds_leaves_the_wallet_of_another_user_alone :
  forall (walletId userId : string) (amount : Z) (description : option string) (w : World),
    accessible walletId userId w = None ->
    let out := WalletService.addFunds walletId userId amount description w in
    (exists e, fst out = Throw e)
    /\ durable (snd out) = durable w
    /\ (faults w = [] -> redis w !! CacheService.lockKey walletId = None -> 0 < amount ->
        fst out = Throw (NotFoundException "Wallet not found")
        /\ exn_status (NotFoundException "Wallet not found") = 404
        /\ redis (snd out) !! CacheService.lockKey walletId = None).
Proof.
  intros walletId userId amount description w Hno. cbv zeta.
  split; [| split].
  - unfold WalletService.addFunds.
    destruct (amount <=? 0); [simpl; eauto |].
    fold (deposit walletId userId amount description).
    unfold CacheService.withWalletLock, bind.
    pose proof (kd_acquireWalletLock walletId w) as Hacq.
    destruct (CacheService.acquireWalletLock walletId w) as [[[token |] | e] w1];
      simpl in *; eauto.
    unfold tryFinally.
    destruct (deposit_inaccessible walletId userId amount description w1) as ((e & He) & _).
    { rewrite (accessible_durable _ _ _ _ Hacq). exact Hno. }
    destruct (deposit walletId userId amount description w1) as [r w2]. simpl in He. subst r.
    destruct (CacheService.releaseWalletLock walletId token w2) as [[b | e'] w3]; simpl; eauto.
  - unfold WalletService.addFunds.
    destruct (amount <=? 0); [reflexivity |].
    fold (deposit walletId userId amount description).
    unfold CacheService.withWalletLock, bind.
    pose proof (kd_acquireWalletLock walletId w) as Hacq.
    destruct (CacheService.acquireWalletLock walletId w) as [[[token |] | e] w1];
      simpl in *; auto.
    unfold tryFinally.
    destruct (deposit_inaccessible walletId userId amount description w1) as (_ & Hd & _).
    { rewrite (accessible_durable _ _ _ _ Hacq). exact Hno. }
    destruct (deposit walletId userId amount description w1) as [r w2]. simpl in Hd.
    pose proof (kd_releaseWalletLock walletId token w2) as Hrel.
    destruct (CacheService.releaseWalletLock walletId token w2) as [[b | e'] w3];
      simpl in *; congruence.
  - intros Hf Hfree Hpos.
    rewrite addFunds_deposit by exact Hpos.
    assert (Hrun :
      CacheService.withWalletLock walletId (deposit walletId userId amount description)
        30000 w
      = (Throw (NotFoundException "Wallet not found"),
         unleased walletId (leased walletId w))).
    { apply withWalletLock_healthy; try assumption.
      - destruct (deposit_inaccessible walletId userId amount description (leased walletId w))
          as (_ & _ & Hrun).
        + rewrite leased_eq. exact Hno.
        + apply Hrun. rewrite leased_eq. exact Hf.
      - rewrite leased_eq. exact Hf.
      - rewrite leased_eq. simpl. apply lookup_insert_eq. }
    rewrite Hrun. simpl. repeat split. apply lookup_delete_eq.
Qed.

Lemma addFunds_leaves_the_wallet_of_another_user_alone_witness :
  let out := WalletService.addFunds "w2" "u1" 5000 None
               (Scenario.world 100000 0 [false; false; true]) in
  (exists e, fst out = Throw e)
  /\ durable (snd out) = durable (Scenario.world 100000 0 [false; false; true]).
Proof.
  destruct (addFunds_leaves_the_wallet_of_another_user_alone "w2" "u1" 5000 None
              (Scenario.world 100000 0 [false; false; true]) eq_refl) as (H1 & H2 & _).
  exact (conj H1 H2).
Defined.

(** ** [getWalletBalance] *)

Lemma getWalletBalanceWithVersion'_healthy (walletId : string) (w : World) :
  faults w = [] ->
  CacheService.getWalletBalanceWithVersion' walletId w
  = (Ok match truthy (redis w !! CacheService.balanceKey walletId) with
        | Some (CBalance b v t) =>
            Some {| CacheService.wb_balance := Js.parseFloat b; CacheService.wb_version := v;
                    CacheService.wb_lastUpdated := t |}
        | _ => None
        end, w).
Proof.
  intros Hf. unfold CacheService.getWalletBalanceWithVersion'.
  rewrite (bind_ok _ _ _ _ _ (get_healthy _ w Hf)).
  destruct (truthy _) as [[] |]; reflexivity.
Qed.

Lemma getWalletBalance_hit (walletId userId : string) (w : World)
    (balance : string) (version lastUpdated : Z) :
  faults w = [] ->
  redis w !! CacheService.balanceKey walletId = Some (CBalance balance version lastUpdated) ->
  now w - lastUpdated < 60000 ->
  WalletService.getWalletBalance walletId userId w
  = (Ok (WalletService.Cached (Js.parseFloat balance)), w).
Proof.
  intros Hf Hentry Hrecent.
  unfold WalletService.getWalletBalance.
  rewrite (bind_ok _ _ _ _ _ (getWalletBalanceWithVersion'_healthy walletId w Hf)).
  rewrite Hentry. simpl. unfold bind at 1. unfold gets.
  unfold WalletService.recent. simpl.
  apply Z.ltb_lt in Hrecent. rewrite Hrecent. reflexivity.
Qed.

(** X9.  A cache entry younger than one minute is served by
    [getWalletBalance] to any caller: whoever [userId] is, the number read
    from the cached text is returned and the world is left exactly as it was,
    with no read of the wallet table (hence no ownership test) and no lease
    taken. *)
Theorem getWalletBalance_serves_a_recent_entry_to_any_caller :
  forall (walletId userId : string) (w : World) (balance : string)
         (version lastUpdated : Z),
    faults w = [] ->
    redis w !! CacheService.balanceKey walletId = Some (CBalance balance version lastUpdated) ->
    now w - lastUpdated < 60000 ->
    WalletService.getWalletBalance walletId userId w
    = (Ok (WalletService.Cached (Js.parseFloat balance)), w).
Proof.
  intros walletId userId w balance version lastUpdated Hf Hentry Hrecent.
  exact (getWalletBalance_hit walletId userId w balance version lastUpdated Hf Hentry Hrecent).
Qed.

Lemma getWalletBalance_serves_a_recent_entry_to_any_caller_witness :
  let w := set_redis {[CacheService.balanceKey "w1" := CBalance "1000.00" 7 4000]}
             (Scenario.world 100000 0 []) in
  WalletService.getWalletBalance "w1" "u2" w
  = (Ok (WalletService.Cached (Js.parseFloat "1000.00")), w).
Proof.
  apply (getWalletBalance_serves_a_recent_entry_to_any_caller "w1" "u2"
           (set_redis {[CacheService.balanceKey "w1" := CBalance "1000.00" 7 4000]}
              (Scenario.world 100000 0 [])) "1000.00" 7 4000).
  - reflexivity.
  - reflexivity.
  - vm_compute. reflexivity.
Defined.

(** The cache entry as [getWalletBalance] sees it: stale after a minute. *)
Definition recentEntry (walletId : string) (w : World) : option (string * Z) :=
  match truthy (redis w !! CacheService.balanceKey walletId) with
  | Some (CBalance b v t) => if now w - t <? 60000 then Some (b, v) else None
  | _ => None
  end.

Lemma readThrough_healthy (walletId userId : string) (w : World) (x : Wallet.t) :
  faults w = [] ->
  recentEntry walletId w = None ->
  accessible walletId userId w = Some x ->
  WalletService.readThrough walletId userId w
  = (Ok (WalletService.Stored (balanceOf x)),
     set_redis (<[CacheService.balanceKey walletId
                  := CBalance (Js.pgDecimal (Wallet.balance x))
                       (nextVersion (cachedEntry walletId w)) (now w)]> (redis w)) w).
Proof.
  intros Hf Hstale Hacc. unfold WalletService.readThrough.
  rewrite (bind_ok _ _ _ _ _ (getWalletBalanceWithVersion'_healthy walletId w Hf)).
  unfold bind at 1. unfold gets.
  unfold recentEntry in Hstale. unfold cachedEntry, accessible in *.
  assert (Hstore :
    forall newVersion,
      (wallet <- walletRepository.findOne walletId (ownedActive userId) ;;
       match wallet with
       | None => throw (NotFoundException "Wallet not found")
       | Some x0 =>
           CacheService.setWalletBalanceWithVersion walletId (balanceOf x0) newVersion ;;
           ret (WalletService.Stored (balanceOf x0))
       end) w
      = (Ok (WalletService.Stored (balanceOf x)),
         set_redis (<[CacheService.balanceKey walletId
                      := CBalance (Js.pgDecimal (Wallet.balance x)) newVersion (now w)]>
                      (redis w)) w)).
  { intros newVersion.
    rewrite (bind_ok _ _ _ _ _ (findOne_healthy walletId _ w Hf)).
    rewrite Hacc.
    rewrite (bind_ok _ _ _ _ _ (setWalletBalanceWithVersion_healthy walletId _ _ w Hf)).
    reflexivity. }
  destruct (truthy (redis w !! CacheService.balanceKey walletId)) as [[] |]; simpl;
    try apply Hstore.
  unfold WalletService.recent. simpl.
  destruct (now w - lastUpdated <? 60000); [discriminate | apply Hstore].
Qed.

(** X10.  With no recent cache entry, on an available store and Redis with
    the lease free, [getWalletBalance] reads the caller's wallet under the
    lease and returns its balance as the store gives it, the text of the
    column; it rewrites the cache entry with that text and the next version,
    gives the lease back and leaves the tables alone, so that the same call
    repeated at once is served from the cache, this time with the balance as
    a number. *)
Theorem getWalletBalance_reads_through_under_the_lease :
  forall (walletId userId : string) (w : World) (x : Wallet.t),
    faults w = [] ->
    recentEntry walletId w = None ->
    accessible walletId userId w = Some x ->
    0 <= Wallet.balance x ->
    redis w !! CacheService.lockKey walletId = None ->
    let out := WalletService.getWalletBalance walletId userId w in
    fst out = Ok (WalletService.Stored (Js.Text (Js.pgDecimal (Wallet.balance x))))
    /\ cachedEntry walletId (snd out)
       = Some (Some (inject_Z (Wallet.balance x)), nextVersion (cachedEntry walletId w))
    /\ redis (snd out) !! CacheService.lockKey walletId = None
    /\ durable (snd out) = durable w
    /\ trace (snd out) = trace w ++ [LockAcquired walletId; LockReleased walletId]
    /\ WalletService.getWalletBalance walletId userId (snd out)
       = (Ok (WalletService.Cached (Some (inject_Z (Wallet.balance x)))), snd out).
Proof.
  intros walletId userId w x Hf Hstale Hacc Hbal Hfree.
  assert (Hlocked :
    CacheService.withWalletLock walletId (WalletService.readThrough walletId userId) 5000 w
    = (Ok (WalletService.Stored (balanceOf x)),
       unleased walletId
         (set_redis (<[CacheService.balanceKey walletId
                       := CBalance (Js.pgDecimal (Wallet.balance x))
                            (nextVersion (cachedEntry walletId w))
                            (now w)]> (redis (leased walletId w))) (leased walletId w)))).
  { apply withWalletLock_healthy; try assumption.
    - rewrite readThrough_healthy with (x := x).
      + f_equal. f_equal. rewrite leased_eq. simpl. f_equal. f_equal. f_equal.
        unfold cachedEntry. simpl.
        rewrite lookup_insert_ne by apply lockKey_not_balanceKey. reflexivity.
      + rewrite leased_eq. exact Hf.
      + rewrite leased_eq. unfold recentEntry in *. simpl.
        rewrite lookup_insert_ne by apply lockKey_not_balanceKey. exact Hstale.
      + rewrite leased_eq. exact Hacc.
    - rewrite leased_eq. exact Hf.
    - rewrite leased_eq. simpl.
      rewrite lookup_insert_ne
        by (intros Heq; symmetry in Heq; exact (lockKey_not_balanceKey _ _ Heq)).
      apply lookup_insert_eq. }
  assert (Hrun : WalletService.getWalletBalance walletId userId w
                 = CacheService.withWalletLock walletId
                     (WalletService.readThrough walletId userId) 5000 w).
  { unfold WalletService.getWalletBalance.
    rewrite (bind_ok _ _ _ _ _ (getWalletBalanceWithVersion'_healthy walletId w Hf)).
    unfold bind at 1. unfold gets. unfold recentEntry in Hstale.
    destruct (truthy (redis w !! CacheService.balanceKey walletId)) as [[] |];
      try reflexivity.
    unfold WalletService.recent. simpl.
    destruct (now w - lastUpdated <? 60000); [discriminate | reflexivity]. }
  cbv zeta. rewrite Hrun, Hlocked. rewrite leased_eq. unfold unleased. simpl.
  split; [reflexivity |]. split; [| split; [| split; [| split]]].
  - unfold cachedEntry. simpl.
    rewrite lookup_delete_ne by apply lockKey_not_balanceKey.
    rewrite lookup_insert_eq. simpl. rewrite parseFloat_pgDecimal by exact Hbal.
    reflexivity.
  - apply lookup_delete_eq.
  - reflexivity.
  - rewrite <- app_assoc. reflexivity.
  - rewrite <- (parseFloat_pgDecimal _ Hbal).
    apply getWalletBalance_hit with (version := nextVersion (cachedEntry walletId w))
                                    (lastUpdated := now w).
    + exact Hf.
    + simpl. rewrite lookup_delete_ne by apply lockKey_not_balanceKey.
      apply lookup_insert_eq.
    + simpl. lia.
Qed.

Lemma getWalletBalance_reads_through_under_the_lease_witness :
  let w := set_redis {[CacheService.balanceKey "w1" := CBalance "900.00" 7 (-60000)]}
             (Scenario.world 100000 0 []) in
  let out := WalletService.getWalletBalance "w1" "u1" w in
  fst out = Ok (WalletService.Stored (Js.Text "1000.00"))
  /\ cachedEntry "w1" (snd out) = Some (Some (inject_Z 100000), 8)
  /\ WalletService.getWalletBalance "w1" "u1" (snd out)
     = (Ok (WalletService.Cached (Some (inject_Z 100000))), snd out).
Proof.
  assert (Hstale : recentEntry "w1"
                     (set_redis {[CacheService.balanceKey "w1" := CBalance "900.00" 7 (-60000)]}
                        (Scenario.world 100000 0 [])) = None)
    by (vm_compute; reflexivity).
  destruct (getWalletBalance_reads_through_under_the_lease "w1" "u1"
              (set_redis {[CacheService.balanceKey "w1" := CBalance "900.00" 7 (-60000)]}
                 (Scenario.world 100000 0 []))
              (Scenario.sourceWallet 100000) eq_refl Hstale eq_refl
              ltac:(vm_compute; discriminate) eq_refl)
    as (H1 & H2 & _ & _ & _ & H3).
  exact (conj H1 (conj H2 H3)).
Defined.

(** ** [checkWalletCacheConsistency] *)




(** ** [createWallet] *)

Lemma wallet_insert_healthy (x : Wallet.t) (w : World) :
  faults w = [] ->
  wallets w !! hd "" (entropy w) = None ->
  walletRepository.insert x w
  = (Ok (Wallet.Build (hd "" (entropy w)) (Wallet.balance x) (Wallet.currency x)
           (Wallet.isActive x) (Wallet.name x) (Wallet.userId x)),
     set_wallets
       (<[hd "" (entropy w)
          := Wallet.Build (hd "" (entropy w)) (Wallet.balance x) (Wallet.currency x)
               (Wallet.isActive x) (Wallet.name x) (Wallet.userId x)]> (wallets w))
       (set_entropy (tl (entropy w)) w)).
Proof.
  intros Hf Hnew. unfold walletRepository.insert. unfold_monad.
  rewrite (io_healthy w Hf), fresh_eq. simpl. rewrite Hnew. reflexivity.
Qed.

(** X12.  On an available store and Redis, [createWallet] adds one wallet and
    changes no other: the new wallet belongs to the caller, is active, holds
    a zero balance in USD unless a currency was given, and is named after the
    caller's first name unless a non-empty name was given; its cache entry is
    written with the text of the number 0 and version 1, so that the owner's
    first [getWalletBalance] is answered 0 from the cache. *)
Theorem createWallet_opens_an_empty_wallet :
  forall (user : User.t) (dto : WalletService.CreateWalletDto) (w : World),
    faults w = [] ->
    wallets w !! hd "" (entropy w) = None ->
    let id := hd "" (entropy w) in
    let out := WalletService.createWallet user dto w in
    let created := Wallet.Build id 0 (default "USD" (WalletService.cw_currency dto)) true
                     (WalletService.nameOrDefault user (WalletService.cw_name dto))
                     (User.id user) in
    fst out = Ok created
    /\ wallets (snd out) = <[id := created]> (wallets w)
    /\ (forall other, other <> id -> wallets (snd out) !! other = wallets w !! other)
    /\ transactions (snd out) = transactions w
    /\ redis (snd out) !! CacheService.balanceKey id = Some (CBalance "0" 1 (now w))
    /\ cachedEntry id (snd out) = Some (Some (inject_Z 0), 1)
    /\ WalletService.getWalletBalance id (User.id user) (snd out)
       = (Ok (WalletService.Cached (Some (inject_Z 0))), snd out).
Proof.
  intros user dto w Hf Hnew. cbv zeta.
  assert (Hrun :
    WalletService.createWallet user dto w
    = (Ok (Wallet.Build (hd "" (entropy w)) 0 (default "USD" (WalletService.cw_currency dto))
             true (WalletService.nameOrDefault user (WalletService.cw_name dto))
             (User.id user)),
       set_redis (<[CacheService.balanceKey (hd "" (entropy w)) := CBalance "0" 1 (now w)]>
                    (redis w))
         (set_wallets
            (<[hd "" (entropy w)
               := Wallet.Build (hd "" (entropy w)) 0
                    (default "USD" (WalletService.cw_currency dto)) true
                    (WalletService.nameOrDefault user (WalletService.cw_name dto))
                    (User.id user)]> (wallets w))
            (set_entropy (tl (entropy w)) w)))).
  { unfold WalletService.createWallet.
    rewrite (bind_ok _ _ _ _ _ (wallet_insert_healthy _ w Hf Hnew)). simpl.
    unfold bind at 1. rewrite setWalletBalanceWithVersion_healthy by exact Hf.
    reflexivity. }
  rewrite Hrun. simpl. repeat split.
  - intros other Hother. apply lookup_insert_ne. congruence.
  - apply lookup_insert_eq.
  - rewrite cachedEntry_insert. reflexivity.
  - apply (getWalletBalance_hit _ _ _ "0" 1 (now w)).
    + exact Hf.
    + apply lookup_insert_eq.
    + simpl. lia.
Qed.

Lemma createWallet_opens_an_empty_wallet_witness :
  let w := Scenario.world 100000 0 [] in
  let out := WalletService.createWallet Scenario.alice
               {| WalletService.cw_name := None; WalletService.cw_currency := None |} w in
  fst out = Ok (Wallet.Build "tx-1" 0 "USD" true "Alice's Wallet" "u1")
  /\ cachedEntry "tx-1" (snd out) = Some (Some (inject_Z 0), 1)
  /\ WalletService.getWalletBalance "tx-1" "u1" (snd out)
     = (Ok (WalletService.Cached (Some (inject_Z 0))), snd out).
Proof.
  destruct (createWallet_opens_an_empty_wallet Scenario.alice
              {| WalletService.cw_name := None; WalletService.cw_currency := None |}
              (Scenario.world 100000 0 []) eq_refl eq_refl)
    as (H1 & _ & _ & _ & _ & H2 & H3).
  exact (conj H1 (conj H2 H3)).
Defined.


(* ===================================================================== *)
(** * The saga on an available store: a transfer that completes           *)
(* ===================================================================== *)



Section Writes.

Variable context : SagaContext.




End Writes.









Section Completion.

Variables (context : SagaContext) (x : Transaction.t) (w : World) (s d : Wallet.t).

Hypothesis Hf : faults w = [].
Hypothesis Hid : transactionId context = Transaction.id x.
Hypothesis Hne : sourceWalletId context <> destinationWalletId context.
Hypothesis Hs : wallets w !! sourceWalletId context = Some s.
Hypothesis Hsa : Wallet.isActive s = true.
Hypothesis Hd : wallets w !! destinationWalletId context = Some d.
Hypothesis Hda : Wallet.isActive d = true.
Hypothesis Hcur : Wallet.currency s = Wallet.currency d.
Hypothesis Hbal : amount context <= Wallet.balance s.

Let steps : list SagaStep := createTransferSagaSteps context.
Let src : string := sourceWalletId context.
Let dst : string := destinationWalletId context.
Let debited : Wallet.t := Wallet.set_balance (Wallet.balance s - amount context) s.
Let credited : Wallet.t := Wallet.set_balance (Wallet.balance d + amount context) d.



End Completion.




(* ===================================================================== *)
(** * Around the saga: the ledger, the bookkeeping, the early checks      *)
(* ===================================================================== *)

(** X14.  The saga of a transfer never touches the limit ledger: whatever
    the transaction, the context and the fault schedule, and whether the
    saga completes or fails and compensates, the ledger after [executeSaga]
    is the ledger before. *)
Theorem transfer_saga_leaves_the_ledger_alone :
  forall (x : Transaction.t) (context : SagaContext) (w : World),
    transferLimits (snd (executeSaga x (createTransferSagaSteps context) w))
    = transferLimits w.
Proof.
  intros x context w. apply kl_executeSaga, transferSteps_keepLedger.
Qed.

(** ** [updateTransferLimitsUsage] *)

Lemma limits_findOne_healthy (userId : string) (w : World) :
  faults w = [] ->
  transferLimitRepository.findOne userId w = (Ok (transferLimits w !! userId), w).
Proof.
  intros Hf. unfold transferLimitRepository.findOne. unfold_monad.
  rewrite (io_healthy w Hf). reflexivity.
Qed.

(** X15.  [updateTransferLimitsUsage] on an available store: each counter is
    sent to the store as the text of the stored counter followed by the text
    of the amount.  When the store reads both texts as numbers, the row gets
    them rounded to two decimals; otherwise the call throws and the ledger is
    as before. *)
Theorem updateTransferLimitsUsage_appends_the_amount :
  forall (userId : string) (amount : Z) (w : World) (l : TransferLimit.t),
    faults w = [] ->
    transferLimits w !! userId = Some l ->
    TransferLimit.userId l = userId ->
    let daily := Js.Text (Js.pgDecimal (TransferLimit.dailyUsed l) +:+ Js.numberText amount) in
    let monthly :=
      Js.Text (Js.pgDecimal (TransferLimit.monthlyUsed l) +:+ Js.numberText amount) in
    let out := TransferService.updateTransferLimitsUsage userId amount w in
    (forall d m : Z,
       Js.column daily = Some d -> Js.column monthly = Some m ->
       fst out = Ok tt
       /\ transferLimits (snd out)
          = <[userId := TransferLimit.set_monthlyUsed m (TransferLimit.set_dailyUsed d l)]>
              (transferLimits w))
    /\ (Js.column daily = None \/ Js.column monthly = None ->
        (exists e, fst out = Throw e) /\ transferLimits (snd out) = transferLimits w).
Proof.
  intros userId amount w l Hf Hl Hu daily monthly out.
  assert (Hrun :
    out = match Js.column daily, Js.column monthly with
          | Some d, Some m =>
              CacheService.invalidateTransferLimitUsage userId
                (set_transferLimits
                   (<[userId := TransferLimit.set_monthlyUsed m
                                  (TransferLimit.set_dailyUsed d l)]> (transferLimits w)) w)
          | None, _ => (Throw (transferLimitRepository.invalidNumeric (Js.toString daily)), w)
          | _, None => (Throw (transferLimitRepository.invalidNumeric (Js.toString monthly)), w)
          end).
  { unfold out, TransferService.updateTransferLimitsUsage.
    rewrite (bind_ok _ _ _ _ _ (limits_findOne_healthy userId w Hf)). rewrite Hl.
    unfold transferLimitRepository.saveUsage, TransferService.limitValue.
    change (Js.add (Js.Text ?a) (Js.Number ?b)) with (Js.Text (a +:+ Js.numberText b)).
    fold daily monthly.
    unfold bind at 1. unfold bind at 1. rewrite (io_healthy w Hf).
    destruct (Js.column daily) as [d |]; [destruct (Js.column monthly) as [m |] |];
      try reflexivity.
    unfold modify. rewrite Hu. reflexivity. }
  split.
  - intros d m Hd Hm. rewrite Hrun, Hd, Hm.
    match goal with
    | |- context [CacheService.invalidateTransferLimitUsage _ ?w0] => set (saved := w0)
    end.
    assert (Hsaved : faults saved = []) by exact Hf.
    unfold CacheService.invalidateTransferLimitUsage.
    rewrite (bind_ok _ _ _ _ _ (del_healthy _ saved Hsaved)).
    rewrite del_healthy by exact Hsaved. split; reflexivity.
  - intros [Hd | Hm]; rewrite Hrun.
    + rewrite Hd. simpl. eauto.
    + rewrite Hm. destruct (Js.column daily); simpl; eauto.
Qed.

(** A transfer of 25.00 on counters at 0.00: the store rounds ["0.0025"] to
    0.00 and the row is the one it was; a transfer of 25.50 sends
    ["0.0025.5"], which the store rejects. *)
Lemma updateTransferLimitsUsage_appends_the_amount_witness :
  let w := Scenario.world 100000 0 [] in
  (fst (TransferService.updateTransferLimitsUsage "u1" 2500 w) = Ok tt
   /\ transferLimits (snd (TransferService.updateTransferLimitsUsage "u1" 2500 w))
      = <["u1" := Scenario.ledger 1000000 0 1000]> (transferLimits w))
  /\ ((exists e, fst (TransferService.updateTransferLimitsUsage "u1" 2550 w) = Throw e)
      /\ transferLimits (snd (TransferService.updateTransferLimitsUsage "u1" 2550 w))
         = transferLimits w).
Proof.
  intros w. split.
  - exact (proj1 (updateTransferLimitsUsage_appends_the_amount "u1" 2500 w
                    (Scenario.ledger 1000000 0 1000) eq_refl eq_refl eq_refl)
             0 0 eq_refl eq_refl).
  - exact (proj2 (updateTransferLimitsUsage_appends_the_amount "u1" 2550 w
                    (Scenario.ledger 1000000 0 1000) eq_refl eq_refl eq_refl)
             (or_introl eq_refl)).
Defined.

(** ** The record of the outcome *)

Lemma swallowed (m : M unit) (w : World) : fst (tryCatch m (fun _ => ret tt) w) = Ok tt.
Proof. unfold tryCatch, ret. destruct (m w) as [[[] | e] w1]; reflexivity. Qed.

Lemma kd_storeResult (key : string) (result : TransferResponseDto.t) :
  keepsDurable (IdempotencyService.storeResult key result).
Proof. unfold IdempotencyService.storeResult. kd. Qed.

Lemma kd_storeFailure (key : string) (error : Exn) :
  keepsDurable (IdempotencyService.storeFailure key error).
Proof. unfold IdempotencyService.storeFailure. kd. Qed.

(** X16.  [storeResult] and [storeFailure] are best effort: whatever the
    fault schedule they never throw and change no wallet, transaction or
    limit row; with Redis available the response is cached under
    [idempotency:<key>], and a failure that has a message is recorded
    (message, HTTP status, time) under [idempotency_error:<key>]. *)
Theorem storeResult_and_storeFailure_never_throw :
  forall (key : string) (result : TransferResponseDto.t) (error : Exn) (w : World),
    let stored := IdempotencyService.storeResult key result w in
    let failed := IdempotencyService.storeFailure key error w in
    fst stored = Ok tt /\ durable (snd stored) = durable w
    /\ fst failed = Ok tt /\ durable (snd failed) = durable w
    /\ (faults w = [] ->
        redis (snd stored) !! IdempotencyService.resultKey key = Some (CResult result))
    /\ (faults w = [] -> exn_message error <> "" ->
        redis (snd failed) !! ("idempotency_error:" +:+ key)
        = Some (CFailure (exn_message error) (exn_status error) (now w))).
Proof.
  intros key result error w stored failed.
  split; [apply swallowed |]. split; [apply kd_storeResult |].
  split; [apply swallowed |]. split; [apply kd_storeFailure |].
  split.
  - intros Hf. unfold stored. rewrite (storeResult_healthy key result w Hf). simpl.
    rewrite lookup_insert_ne by apply resultKey_not_requestKey.
    apply lookup_insert_eq.
  - intros Hf _. unfold failed, IdempotencyService.storeFailure, tryCatch.
    unfold bind, gets. rewrite (set_healthy _ _ w Hf). simpl. apply lookup_insert_eq.
Qed.

Lemma storeResult_and_storeFailure_never_throw_witness :
  let w := Scenario.world 100000 0 [true] in
  fst (IdempotencyService.storeResult "abc" Scenario.firstResponse w) = Ok tt
  /\ fst (IdempotencyService.storeFailure "abc" (BadRequestException "Insufficient balance") w)
     = Ok tt
  /\ redis (snd (IdempotencyService.storeFailure "abc"
                   (BadRequestException "Insufficient balance")
                   (Scenario.world 100000 0 []))) !! "idempotency_error:abc"
     = Some (CFailure "Insufficient balance" 400 5000).
Proof.
  intros w.
  destruct (storeResult_and_storeFailure_never_throw "abc" Scenario.firstResponse
              (BadRequestException "Insufficient balance") w) as (H1 & _ & H2 & _).
  destruct (storeResult_and_storeFailure_never_throw "abc" Scenario.firstResponse
              (BadRequestException "Insufficient balance") (Scenario.world 100000 0 []))
    as (_ & _ & _ & _ & _ & H3).
  split; [exact H1 |]. split; [exact H2 |]. apply (H3 eq_refl). discriminate.
Defined.

(** ** The idempotency key of a request *)

(** X17.  [transferFunds] uses the client's idempotency key when there is
    one that is not empty, without drawing anything; otherwise it generates a
    key that starts with [auto_], which changes no table and no Redis
    entry.  It never throws. *)
Theorem resolveIdempotencyKey_prefers_the_client_key :
  forall (dto : TransferDto.t) (w : World),
    (forall k, TransferDto.idempotencyKey dto = Some k -> k <> "" ->
               TransferService.resolveIdempotencyKey dto w = (Ok k, w))
    /\ (TransferDto.idempotencyKey dto = None \/ TransferDto.idempotencyKey dto = Some "" ->
        exists digest w',
          TransferService.resolveIdempotencyKey dto w = (Ok ("auto_" +:+ digest), w')
          /\ durable w' = durable w /\ redis w' = redis w /\ faults w' = faults w).
Proof.
  intros dto w. unfold TransferService.resolveIdempotencyKey. split.
  - intros k -> Hk. rewrite bool_decide_eq_false_2 by exact Hk. reflexivity.
  - assert (Hgen : exists digest w',
              IdempotencyService.generateIdempotencyKey w = (Ok ("auto_" +:+ digest), w')
              /\ durable w' = durable w /\ redis w' = redis w /\ faults w' = faults w).
    { unfold IdempotencyService.generateIdempotencyKey, bind, ret, fresh.
      destruct (entropy w) as [| digest rest]; eexists _, _; split; reflexivity || auto. }
    intros [-> | ->]; [exact Hgen |].
    rewrite bool_decide_eq_true_2 by reflexivity. exact Hgen.
Qed.

Lemma resolveIdempotencyKey_prefers_the_client_key_witness :
  let w := Scenario.world 100000 0 [] in
  TransferService.resolveIdempotencyKey (Scenario.request 15000 (Some "abc")) w = (Ok "abc", w)
  /\ exists digest w',
       TransferService.resolveIdempotencyKey (Scenario.request 15000 None) w
       = (Ok ("auto_" +:+ digest), w')
       /\ durable w' = durable w /\ redis w' = redis w /\ faults w' = faults w.
Proof.
  intros w. split.
  - apply (proj1 (resolveIdempotencyKey_prefers_the_client_key
                    (Scenario.request 15000 (Some "abc")) w) "abc" eq_refl).
    discriminate.
  - exact (proj2 (resolveIdempotencyKey_prefers_the_client_key
                    (Scenario.request 15000 None) w) (or_introl eq_refl)).
Defined.

(** ** An existing transaction handed back by the idempotency check *)

(** X18.  [handleExistingTransaction] of the transfer service reads nothing
    and writes nothing: a COMPLETED transaction is answered with its
    response, a PENDING or PROCESSING one with a 409, and any other status
    with a 400. *)
Theorem handleExistingTransaction_answers_by_status :
  forall (x : Transaction.t) (w : World),
    let out := TransferService.handleExistingTransaction x w in
    snd out = w
    /\ (Transaction.status x = TransactionStatus.COMPLETED ->
        fst out = Ok (TransferService.mapToTransferResponseDto x))
    /\ (Transaction.status x = TransactionStatus.PENDING
        \/ Transaction.status x = TransactionStatus.PROCESSING ->
        exists e, fst out = Throw e /\ exn_status e = 409
                  /\ exn_message e = "Transfer is already in progress")
    /\ (Transaction.status x <> TransactionStatus.COMPLETED ->
        Transaction.status x <> TransactionStatus.PENDING ->
        Transaction.status x <> TransactionStatus.PROCESSING ->
        exists e, fst out = Throw e /\ exn_status e = 400).
Proof.
  intros x w. unfold TransferService.handleExistingTransaction.
  destruct (Transaction.status x); simpl;
    (split; [reflexivity |]); (split; [intros H; try discriminate H; reflexivity |]);
    (split; [intros [H | H]; try discriminate H; eauto |]);
    intros H1 H2 H3; try contradiction; eauto.
Qed.

Lemma handleExistingTransaction_answers_by_status_witness :
  let w := Scenario.world 100000 0 [] in
  fst (TransferService.handleExistingTransaction Scenario.completedRow w)
  = Ok (TransferService.mapToTransferResponseDto Scenario.completedRow)
  /\ exists e,
       fst (TransferService.handleExistingTransaction (Scenario.pendingTransfer 15000) w)
       = Throw e
       /\ exn_status e = 409 /\ exn_message e = "Transfer is already in progress".
Proof.
  intros w. split.
  - exact (proj1 (proj2 (handleExistingTransaction_answers_by_status
                           Scenario.completedRow w)) eq_refl).
  - exact (proj1 (proj2 (proj2 (handleExistingTransaction_answers_by_status
                                  (Scenario.pendingTransfer 15000) w)))
             (or_introl eq_refl)).
Defined.

(** ** The checks before any read *)

(** X19.  [validateTransferRequest] rejects an amount that is not positive,
    and then a transfer from a wallet to itself, with a 400 and before any
    read: the world is exactly as it was, whatever the fault schedule. *)
Theorem validateTransferRequest_rejects_before_reading :
  forall (src dst : string) (amount : Z) (user : User.t) (w : World),
    let out := TransferService.validateTransferRequest src dst amount user w in
    (amount <= 0 ->
     out = (Throw (BadRequestException "Transfer amount must be positive"), w))
    /\ (0 < amount -> src = dst ->
        out = (Throw (BadRequestException "Cannot transfer to the same wallet"), w)).
Proof.
  intros src dst amount user w. unfold TransferService.validateTransferRequest. split.
  - intros H. apply Z.leb_le in H. rewrite H. reflexivity.
  - intros H ->. apply Z.leb_gt in H. rewrite H.
    rewrite bool_decide_eq_true_2 by reflexivity. reflexivity.
Qed.

Lemma validateTransferRequest_rejects_before_reading_witness :
  let w := Scenario.world 100000 0 [true] in
  TransferService.validateTransferRequest "w1" "w2" 0 Scenario.alice w
  = (Throw (BadRequestException "Transfer amount must be positive"), w)
  /\ TransferService.validateTransferRequest "w1" "w1" 15000 Scenario.alice w
     = (Throw (BadRequestException "Cannot transfer to the same wallet"), w).
Proof.
  intros w. split.
  - apply (proj1 (validateTransferRequest_rejects_before_reading "w1" "w2" 0
                    Scenario.alice w)). lia.
  - apply (proj2 (validateTransferRequest_rejects_before_reading "w1" "w1" 15000
                    Scenario.alice w)); [lia | reflexivity].
Defined.
